(** * pymclevel/materials.py: block registry and palette conversion

    A shallow embedding of the material registry ([MCMaterials] with its
    lookups [__getitem__], [get], [blockWithID] and [blocksMatching], and
    [Block]) and of the conversion engine ([_filterTable],
    [filterConversion], [guessFilterTable], [conversionFunc],
    [convertBlocks]) of [pymclevel/materials.py], together with the
    properties of the registry specification that were checked against it
    and further properties read off the code.

    Conventions of the embedding:
    - Python lists and numpy arrays are lists, indexed with stdpp's lookup
      [l !! i] and updated with [<[i:=x]> l].  An index that Python rejects
      with [IndexError] makes the operation return [None].  Identifiers are
      natural numbers: Python's negative (wrap-around) indices are outside
      the model.
    - numpy's fixed-width element types are written out: a value stored in
      a [uint8] array is reduced modulo 256, one stored in a [uint16] array
      modulo 65536 (the silent cast of the numpy versions this Python 2
      code runs on).  The cast is that of an integer that fits a C [long];
      numpy rejects a larger one with [OverflowError], which the casts do
      not raise: a statement that a call returns is made for integers
      that fit ([fits_long]).
    - Index arrays are lists; two index arrays of one subscript are
      paired by numpy's broadcast ([broadcast_indices]).
    - A raised exception is [None]; the state a raising call leaves behind
      is not modelled, so every statement below is about calls that return.
    - Python dicts are [gmap]s. *)

From Stdlib Require Import ZArith String Ascii List.
From stdpp Require Import base option list gmap strings sorting.

(** ** Python string operations used by the module *)

Module PyStr.

(** [c.lower()] on one ASCII character. *)
Definition lower_ascii (c : ascii) : ascii :=
  let n := nat_of_ascii c in
  if (65 <=? n)%nat && (n <=? 90)%nat then ascii_of_nat (n + 32) else c.

(** [s.lower()] *)
Fixpoint lower (s : string) : string :=
  match s with
  | EmptyString => EmptyString
  | String c s' => String (lower_ascii c) (lower s')
  end.

(** [s.split(" ")]: split at every single space, keeping empty pieces. *)
Fixpoint split (s : string) : list string :=
  match s with
  | EmptyString => [EmptyString]
  | String c s' =>
      if Ascii.eqb c " "%char then EmptyString :: split s'
      else match split s' with
           | h :: t => String c h :: t
           | [] => [String c EmptyString]
           end
  end.

(** [s.startswith(p)] *)
Definition startswith (s p : string) : bool := String.prefix p s.

(** [needle in hay] *)
Fixpoint contains (needle hay : string) : bool :=
  String.prefix needle hay ||
  match hay with
  | EmptyString => false
  | String _ hay' => contains needle hay'
  end.

End PyStr.

(** ** Texture faces and the rotation helper of [addYamlBlock] *)

(** [texDirs]: the index of each named face in a 6-face texture list. *)
Inductive Face := FORWARD | BACKWARD | LEFT | RIGHT | TOP | BOTTOM.

Definition texDirs (f : Face) : nat :=
  match f with
  | FORWARD => 5
  | BACKWARD => 4
  | LEFT => 1
  | RIGHT => 0
  | TOP => 2
  | BOTTOM => 3
  end.

(** [rot = (5, 0, 2, 3, 4, 1)] *)
Definition rot : list nat := [5; 0; 2; 3; 4; 1].

(** [texture[:] = [texture[r] for r in rot]]; [None] is the [IndexError]
    of a texture list with fewer than six faces. *)
Definition rot90cw {A} (texture : list A) : option (list A) :=
  mapM (λ r, texture !! r) rot.

(** [for _i in range(n): rot90cw()] *)
Fixpoint rot90cw_times {A} (n : nat) (texture : list A) : option (list A) :=
  match n with
  | O => Some texture
  | S n' => texture' ← rot90cw texture; rot90cw_times n' texture'
  end.

(** ** The dense conversion table *)

Definition id_limit : nat := 4096.

Definition uint8 (n : nat) : nat := n mod 256.

(** A table of shape [(id_limit, 16, 2)]: one (ID, data) pair per source
    identifier. *)
Abbreviation Table := (list (list (nat * nat))).

(** [_indices = rollaxis(indices((id_limit, 16)), 0, 3)]:
    [_indices[i][j] = (i, j)]. *)
Definition _indices : Table :=
  (λ i, (λ j, (i, j)) <$> seq 0 16) <$> seq 0 id_limit.

(** The cast of a pair of integers that fit a C [long] into the table's
    [dtype='uint8']. *)
Definition to_uint8_pair (p : nat * nat) : nat * nat := (uint8 p.1, uint8 p.2).

(** [table = zeros((id_limit, 16, 2), dtype='uint8'); table[:] = _indices] *)
Definition table_of_indices : Table :=
  (λ row : list (nat * nat), to_uint8_pair <$> row) <$> _indices.

(** [if u[1] == 0: u = u[0]] followed by [table[u] = v]: a key whose data
    is 0 addresses the whole row of its ID, and the pair is broadcast over
    the 16 variants; another key addresses one cell. *)
Definition table_assign (table : Table) (u : nat * nat) (v : nat * nat)
  : option Table :=
  row ← table !! u.1;
  if (u.2 =? 0)%nat then
    Some (<[u.1 := replicate (length row) (to_uint8_pair v)]> table)
  else
    _ ← row !! u.2;
    Some (<[u.1 := <[u.2 := to_uint8_pair v]> row]> table).

Fixpoint assign_unavailable (table : Table) (unavailable : list (nat * nat))
    (default : nat * nat) : option Table :=
  match unavailable with
  | [] => Some table
  | u :: rest =>
      table' ← table_assign table u default;
      assign_unavailable table' rest default
  end.

Fixpoint assign_filters (table : Table)
    (filters : list ((nat * nat) * (nat * nat))) : option Table :=
  match filters with
  | [] => Some table
  | (f, t) :: rest =>
      table' ← table_assign table f t;
      assign_filters table' rest
  end.

(** [_filterTable(filters, unavailable, default)] *)
Definition _filterTable (filters : list ((nat * nat) * (nat * nat)))
    (unavailable : list (nat * nat)) (default : nat * nat) : option Table :=
  table ← assign_unavailable table_of_indices unavailable default;
  assign_filters table filters.

(** [nullConversion = lambda b, d: (b, d)] *)
Definition nullConversion {B D} (b : B) (d : D) : B * D := (b, d).

(** The [convert] closure of [filterConversion(table)] at one identifier:
    [data] defaults to 0 when it is [None], and the result is the pair
    stored at [table[blocks, data]]. *)
Definition filterConversion (table : Table) (blocks : nat) (data : option nat)
  : option (nat * nat) :=
  let data := default 0 data in
  row ← table !! blocks;
  row !! data.

(** numpy's broadcast of the two index arrays of [table[blocks, data]]:
    arrays of the same length are paired position by position, an array of
    one entry is repeated along the other, and any other pair of lengths
    is an [IndexError]; the scalar 0 that stands for [data is None] is
    repeated along [blocks]. *)
Definition broadcast_indices (blocks : list nat) (data : option (list nat))
  : option (list (nat * nat)) :=
  match data with
  | None => Some ((λ b, (b, 0)) <$> blocks)
  | Some data =>
      if (length blocks =? length data)%nat then Some (zip blocks data)
      else match blocks, data with
           | [b], _ => Some ((λ d, (b, d)) <$> data)
           | _, [d] => Some ((λ b, (b, d)) <$> blocks)
           | _, _ => None
           end
  end.

(** The same closure on arrays of identifiers: [t = table[blocks, data]]
    is the table entry of every pair of the broadcast, and the result the
    arrays [t[..., 0]] and [t[..., 1]]. *)
Definition filterConversion_arrays (table : Table) (blocks : list nat)
    (data : option (list nat)) : option (list nat * list nat) :=
  pairs ← broadcast_indices blocks data;
  ts ← mapM (λ bd, filterConversion table bd.1 (Some bd.2)) pairs;
  Some (fst <$> ts, snd <$> ts).

(** ** Blocks and the registry *)

(** A [Block] is the value object [(ID, blockData)] with its [stringID].
    The Python object also holds a reference to its registry; here the
    registry is the explicit first argument of every attribute read. *)
Record Block := mkBlock {
  ID : nat;
  blockData : nat;
  stringID : string
}.

Global Instance Block_eq_dec : EqDecision Block.
Proof. solve_decision. Defined.

(** The key of [Block.__cmp__]: [(a.ID, a.blockData)]. *)
Definition Block_key (b : Block) : nat * nat := (ID b, blockData b).

(** [cmp(key(self), key(other))] on two blocks: tuples compare
    lexicographically. *)
Definition Block_cmp (a b : Block) : comparison :=
  match Nat.compare (ID a) (ID b) with
  | Eq => Nat.compare (blockData a) (blockData b)
  | c => c
  end.

(** The value a [uint8], a [uint16] cell holds after an integer that fits
    a C [long] is stored in it. *)
Definition Z_uint8 (z : Z) : Z := (z mod 256)%Z.
Definition Z_uint16 (z : Z) : Z := (z mod 65536)%Z.

(** [NOTEX = (0x1F0, 0x1F0)] *)
Definition NOTEX : Z * Z := (496, 496)%Z.

Definition defaultColor : list Z := [201; 119; 240; 255]%Z.
Definition defaultBrightness : Z := 0.
Definition defaultOpacity : Z := 15.
Definition defaultTexture : Z * Z := NOTEX.

(** The value of a [texture] keyword: one atlas coordinate for all faces
    (as in the constructor's [texture=(0x0, 0x150)]) or a list of per-face
    coordinates (as built by [addYamlBlock]). *)
Inductive TextureArg :=
| TexCoord (x y : Z)
| TexFaces (faces : list (Z * Z)).

(** The keyword arguments [addBlock] pops from [**kw]; an absent keyword
    is [None]. *)
Record BlockKw := mkKw {
  kw_name : option string;
  kw_idStr : option string;
  kw_brightness : option Z;
  kw_opacity : option Z;
  kw_aka : option string;
  kw_type : option string;
  kw_mapcolor : option (list Z);
  kw_texture : option TextureArg
}.

Definition kw_empty : BlockKw := mkKw None None None None None None None None.

(** The registry.  [type] is built as [[["NORMAL"] * 16] * id_limit]: its
    entries are references to row objects, so the rows live in a store
    [typeRows] and [type] holds their addresses.  [names] and [aka] are
    built by a comprehension, one fresh row per ID, and are plain values.
    [mats_name] is the [name] attribute that the module assigns to a
    registry after it is constructed. *)
Record MCMaterials := mkMaterials {
  mats_name : option string;
  defaultName : string;
  blockTextures : list (list (list (Z * Z)));
  names : list (list string);
  aka : list (list string);
  type : list nat;
  typeRows : list (list string);
  blocksByType : gmap string (list Block);
  allBlocks : list Block;
  blocksByID : gmap (nat * nat) Block;
  lightEmission : list Z;
  lightAbsorption : list Z;
  flatColors : list (list (list Z));
  idStr : list string
}.

(** [self.color = self.flatColors], [self.brightness = self.lightEmission],
    [self.opacity = self.lightAbsorption]: second names of the same arrays. *)
Definition color (self : MCMaterials) := flatColors self.
Definition brightness (self : MCMaterials) := lightEmission self.
Definition opacity (self : MCMaterials) := lightAbsorption self.

(** numpy's broadcast of a sequence [v] into [n] cells: [v] has [n]
    entries, or one entry that is repeated; anything else is a
    [ValueError]. *)
Definition broadcast {A} (n : nat) (v : list A) : option (list A) :=
  if (length v =? n)%nat then Some v
  else match v with
       | [x] => Some (replicate n x)
       | _ => None
       end.

(** The six faces a [texture] keyword is stored as; [Some None] is a
    keyword that is absent or falsy (an empty list), which [if texture:]
    skips. *)
Definition texture_faces (texture : option TextureArg)
  : option (option (list (Z * Z))) :=
  match texture with
  | None => Some None
  | Some (TexCoord x y) => Some (Some (replicate 6 (Z_uint16 x, Z_uint16 y)))
  | Some (TexFaces []) => Some None
  | Some (TexFaces faces) =>
      match broadcast 6 faces with
      | Some fs => Some (Some ((λ f, (Z_uint16 f.1, Z_uint16 f.2)) <$> fs))
      | None => None
      end
  end.

(** [arr[blockID, (blockData or slice(None))] = v]: data 0 writes all the
    variants of the ID, another data writes one. *)
Definition assign_variants {A} (arr : list (list A)) (blockID blockData : nat)
    (v : A) : option (list (list A)) :=
  row ← arr !! blockID;
  if (blockData =? 0)%nat then
    Some (<[blockID := replicate (length row) v]> arr)
  else
    _ ← row !! blockData;
    Some (<[blockID := <[blockData := v]> row]> arr).

(** The row such an assignment writes in place of [row]. *)
Definition assigned_row {A} (row : list A) (d : nat) (v : A) : list A :=
  if (d =? 0)%nat then replicate (length row) v else <[d := v]> row.

(** [MCMaterials.addBlock(self, blockID, blockData, **kw)].
    [blockData is 0] is [blockData = 0] for the small integers the
    callers pass. *)
Definition addBlock (self : MCMaterials) (blockID blockData : nat)
    (kw : BlockKw) : option (MCMaterials * Block) :=
  (* name = kw.pop('name', self.names[blockID][blockData]) *)
  namesRow ← names self !! blockID;
  currentName ← namesRow !! blockData;
  let name := default currentName (kw_name kw) in
  let stringName := default EmptyString (kw_idStr kw) in
  (* self.lightEmission[blockID] = kw.pop('brightness', self.defaultBrightness) *)
  _ ← lightEmission self !! blockID;
  let lightEmission' :=
    <[blockID := Z_uint8 (default defaultBrightness (kw_brightness kw))]>
      (lightEmission self) in
  (* self.lightAbsorption[blockID] = kw.pop('opacity', self.defaultOpacity) *)
  _ ← lightAbsorption self !! blockID;
  let lightAbsorption' :=
    <[blockID := Z_uint8 (default defaultOpacity (kw_opacity kw))]>
      (lightAbsorption self) in
  (* self.aka[blockID][blockData] = kw.pop('aka', "") *)
  akaRow ← aka self !! blockID;
  _ ← akaRow !! blockData;
  let aka' :=
    <[blockID := <[blockData := default EmptyString (kw_aka kw)]> akaRow]>
      (aka self) in
  (* type = kw.pop('type', 'NORMAL') *)
  let type_ := default "NORMAL"%string (kw_type kw) in
  (* color = kw.pop('mapcolor', self.flatColors[blockID, blockData]) *)
  colorRow ← flatColors self !! blockID;
  currentColor ← colorRow !! blockData;
  let color := default currentColor (kw_mapcolor kw) in
  (* self.flatColors[blockID, (blockData or slice(None))] =
       (tuple(color) + (255,))[:4] *)
  rgba ← broadcast 4 (take 4 (color ++ [255%Z]));
  flatColors' ←
    assign_variants (flatColors self) blockID blockData (Z_uint8 <$> rgba);
  (* texture = kw.pop('texture', None)
     if texture:
         self.blockTextures[blockID, (blockData or slice(None))] = texture *)
  texture ← texture_faces (kw_texture kw);
  blockTextures' ←
    match texture with
    | Some faces => assign_variants (blockTextures self) blockID blockData faces
    | None => Some (blockTextures self)
    end;
  (* if blockData is 0:
         self.names[blockID] = [name] * 16
         self.type[blockID] = [type] * 16
     else:
         self.names[blockID][blockData] = name
         self.type[blockID][blockData] = type *)
  (* the row [self.type[blockID]] refers to; a reference always has its
     row, and the row has the slot of every data that [names] has *)
  typeRef ← type self !! blockID;
  typeRow ← typeRows self !! typeRef;
  _ ← typeRow !! blockData;
  let names' :=
    if (blockData =? 0)%nat then <[blockID := replicate 16 name]> (names self)
    else <[blockID := <[blockData := name]> namesRow]> (names self) in
  let type' :=
    if (blockData =? 0)%nat then <[blockID := length (typeRows self)]> (type self)
    else type self in
  let typeRows' :=
    if (blockData =? 0)%nat then typeRows self ++ [replicate 16 type_]
    else <[typeRef := <[blockData := type_]> typeRow]> (typeRows self) in
  (* block = Block(self, blockID, blockData, blockString=stringName) *)
  let block := mkBlock blockID blockData stringName in
  (* self.allBlocks.append(block)
     self.blocksByType[type].append(block)
     self.blocksByID[blockID, blockData] = block *)
  Some ({| mats_name := mats_name self;
           defaultName := defaultName self;
           blockTextures := blockTextures';
           names := names';
           aka := aka';
           type := type';
           typeRows := typeRows';
           blocksByType :=
             <[type_ := default [] (blocksByType self !! type_) ++ [block]]>
               (blocksByType self);
           allBlocks := allBlocks self ++ [block];
           blocksByID := <[(blockID, blockData) := block]> (blocksByID self);
           lightEmission := lightEmission';
           lightAbsorption := lightAbsorption';
           flatColors := flatColors';
           idStr := idStr self |},
        block).

(** The tables [MCMaterials.__init__] allocates before it defines Air
    (lines 66 to 93 of the constructor). *)
Definition MCMaterials_alloc (defaultName : string) : MCMaterials :=
  {| mats_name := None;
     defaultName := defaultName;
     blockTextures :=
       replicate id_limit
         (replicate 16 (replicate 6 (Z_uint16 defaultTexture.1,
                                     Z_uint16 defaultTexture.2)));
     names := replicate id_limit (replicate 16 defaultName);
     aka := replicate id_limit (replicate 16 EmptyString);
     type := replicate id_limit 0;
     typeRows := [replicate 16 "NORMAL"%string];
     blocksByType := ∅;
     allBlocks := [];
     blocksByID := ∅;
     lightEmission := replicate id_limit (Z_uint8 defaultBrightness);
     lightAbsorption := replicate id_limit (Z_uint8 defaultOpacity);
     flatColors := replicate id_limit (replicate 16 (Z_uint8 <$> defaultColor));
     idStr := replicate id_limit EmptyString |}.

(** The keywords of the constructor's
    [self.addBlock(0, name="Air", texture=(0x0, 0x150), opacity=0)]. *)
Definition Air_kw : BlockKw :=
  {| kw_name := Some "Air"%string; kw_idStr := None; kw_brightness := None;
     kw_opacity := Some 0%Z; kw_aka := None; kw_type := None;
     kw_mapcolor := None; kw_texture := Some (TexCoord 0 336) |}.

(** [MCMaterials(defaultName)] *)
Definition MCMaterials_init (defaultName : string) : option MCMaterials :=
  fst <$> addBlock (MCMaterials_alloc defaultName) 0 0 Air_kw.

(** [PCMaterials.name = "Alpha"] and the like. *)
Definition set_name (self : MCMaterials) (name : string) : MCMaterials :=
  {| mats_name := Some name;
     defaultName := defaultName self;
     blockTextures := blockTextures self;
     names := names self;
     aka := aka self;
     type := type self;
     typeRows := typeRows self;
     blocksByType := blocksByType self;
     allBlocks := allBlocks self;
     blocksByID := blocksByID self;
     lightEmission := lightEmission self;
     lightAbsorption := lightAbsorption self;
     flatColors := flatColors self;
     idStr := idStr self |}.

(** ** Attribute resolution: [Block.__getattr__] *)

(** [self.materials.names[self.ID][self.blockData]] *)
Definition Block_name (materials : MCMaterials) (b : Block) : option string :=
  r ← names materials !! ID b; r !! blockData b.

(** [self.materials.aka[self.ID][self.blockData]] *)
Definition Block_aka (materials : MCMaterials) (b : Block) : option string :=
  r ← aka materials !! ID b; r !! blockData b.

(** [self.materials.type[self.ID][self.blockData]], through the row the
    entry of [type] refers to. *)
Definition Block_type (materials : MCMaterials) (b : Block) : option string :=
  ref ← type materials !! ID b;
  r ← typeRows materials !! ref;
  r !! blockData b.

(** [self.materials.color[self.ID][self.blockData]] *)
Definition Block_color (materials : MCMaterials) (b : Block) : option (list Z) :=
  r ← color materials !! ID b; r !! blockData b.

(** [self.materials.brightness[self.ID]] *)
Definition Block_brightness (materials : MCMaterials) (b : Block) : option Z :=
  brightness materials !! ID b.

(** [self.materials.opacity[self.ID]] *)
Definition Block_opacity (materials : MCMaterials) (b : Block) : option Z :=
  opacity materials !! ID b.

(** [self.materials.blockTextures[self.ID]]: the faces of all the variants
    of the ID. *)
Definition Block_blockTextures (materials : MCMaterials) (b : Block)
  : option (list (list (Z * Z))) :=
  blockTextures materials !! ID b.

(** [MCMaterials.blockWithID(self, id, data=0)] *)
Definition blockWithID (self : MCMaterials) (id : nat) (data : nat) : Block :=
  match blocksByID self !! (id, data) with
  | Some b => b
  | None => mkBlock id data EmptyString
  end.

(** ** Partial-name lookup: [MCMaterials.blocksMatching] *)

(** The [while] loop over [j]: the first query token that occurs in the
    block token [v2] and whose index is not yet in [spiltNamesUsed]. *)
Fixpoint first_unused (spiltNames : list string) (v2 : string)
    (spiltNamesUsed : list nat) (j : nat) : option nat :=
  match spiltNames with
  | [] => None
  | s :: rest =>
      if PyStr.contains s v2 && negb (bool_decide (j ∈ spiltNamesUsed))
      then Some j
      else first_unused rest v2 spiltNamesUsed (S j)
  end.

(** The [for v2 in nameParts] loop: the counter [i] and [spiltNamesUsed]
    after it. *)
Fixpoint count_parts (spiltNames : list string) (nameParts : list string)
    (i : nat) (spiltNamesUsed : list nat) : nat * list nat :=
  match nameParts with
  | [] => (i, spiltNamesUsed)
  | v2 :: rest =>
      match first_unused spiltNames v2 spiltNamesUsed 0 with
      | Some j => count_parts spiltNames rest (i + 1) (spiltNamesUsed ++ [j])
      | None => count_parts spiltNames rest i spiltNamesUsed
      end
  end.

(** The test [i == amount] for one block, given its name and alias. *)
Definition block_matches (spiltNames : list string) (vname vaka : string)
  : bool :=
  let nameParts :=
    PyStr.split (PyStr.lower vname) ++ PyStr.split (PyStr.lower vaka) in
  ((count_parts spiltNames nameParts 0 []).1 =? length spiltNames)%nat.

Fixpoint blocksMatching_loop (self : MCMaterials) (spiltNames : list string)
    (blocks : list Block) (toReturn : list Block) : option (list Block) :=
  match blocks with
  | [] => Some toReturn
  | v :: rest =>
      vname ← Block_name self v;
      vaka ← Block_aka self v;
      blocksMatching_loop self spiltNames rest
        (if block_matches spiltNames vname vaka then toReturn ++ [v]
         else toReturn)
  end.

(** [MCMaterials.blocksMatching(self, name)] *)
Definition blocksMatching (self : MCMaterials) (name : string)
  : option (list Block) :=
  let name := PyStr.lower name in
  let spiltNames := PyStr.split name in
  blocksMatching_loop self spiltNames (allBlocks self) [].

(** ** The correspondence resolver: [guessFilterTable] *)

(** Insertion of a block into a list that is in descending [Block_cmp]
    order, before the blocks that compare equal to it. *)
Fixpoint insert_sorted (b : Block) (l : list Block) : list Block :=
  match l with
  | [] => [b]
  | x :: l' =>
      match Block_cmp x b with
      | Gt => x :: insert_sorted b l'
      | _ => b :: x :: l'
      end
  end.

(** [sorted(blocks, reverse=True)]: descending by [Block.__cmp__], blocks
    that compare equal staying in their original order. *)
Definition sorted_reverse (blocks : list Block) : list Block :=
  foldr insert_sorted [] blocks.

(** [dict((b.name, b) for b in blocks)]: the pairs are inserted in order,
    a later pair replacing an earlier one with the same name. *)
Fixpoint dict_by_name (materials : MCMaterials) (blocks : list Block)
    (d : gmap string Block) : option (gmap string Block) :=
  match blocks with
  | [] => Some d
  | b :: rest =>
      n ← Block_name materials b;
      dict_by_name materials rest (<[n := b]> d)
  end.

(** [toByName = dict(((b.name, b) for b in
                      sorted(matsTo.allBlocks, reverse=True)))] *)
Definition toByName (matsTo : MCMaterials) : option (gmap string Block) :=
  dict_by_name matsTo (sorted_reverse (allBlocks matsTo)) ∅.

(** [for b in blocks: if test(b): block = b; break] *)
Fixpoint first_block (test : Block → option bool) (blocks : list Block)
  : option (option Block) :=
  match blocks with
  | [] => Some None
  | b :: rest =>
      t ← test b;
      if (t : bool) then Some (Some b) else first_block test rest
  end.

(** One round of a search that runs only [if block is None]. *)
Definition or_search (block : option Block)
    (search : option (option Block)) : option (option Block) :=
  match block with
  | Some _ => Some block
  | None => search
  end.

(** The tests of the three search loops, for a source name [fromName] and
    a destination block [b]:
    [b.name.startswith(fromBlock.name)], [fromBlock.name in b.name] and
    [fromBlock.name in b.aka]. *)
Definition name_startswith (matsTo : MCMaterials) (fromName : string)
    (b : Block) : option bool :=
  n ← Block_name matsTo b; Some (PyStr.startswith n fromName).

Definition name_contains (matsTo : MCMaterials) (fromName : string)
    (b : Block) : option bool :=
  n ← Block_name matsTo b; Some (PyStr.contains fromName n).

Definition aka_contains (matsTo : MCMaterials) (fromName : string)
    (b : Block) : option bool :=
  a ← Block_aka matsTo b; Some (PyStr.contains fromName a).

(** The two fixed cases that end the search. *)
Definition special_case (byName : gmap string Block) (fromName : string)
  : option Block :=
  if String.eqb "Indigo Wool" fromName then byName !! "Purple Wool"%string
  else if String.eqb "Violet Wool" fromName then byName !! "Purple Wool"%string
  else None.

(** The body of the loop of [guessFilterTable] up to the decision: the
    destination block chosen for [fromBlock], if any. *)
Definition guess_block (matsFrom matsTo : MCMaterials)
    (byName : gmap string Block) (fromBlock : Block) : option (option Block) :=
  fromName ← Block_name matsFrom fromBlock;
  let block := byName !! fromName in
  block ← or_search block
    (first_block (name_startswith matsTo fromName) (allBlocks matsTo));
  block ← or_search block
    (first_block (name_contains matsTo fromName) (allBlocks matsTo));
  block ← or_search block
    (first_block (aka_contains matsTo fromName) (allBlocks matsTo));
  or_search block (Some (special_case byName fromName)).

Abbreviation Filters := (list ((nat * nat) * (nat * nat))).

Fixpoint guess_loop (matsFrom matsTo : MCMaterials)
    (byName : gmap string Block) (blocks : list Block)
    (filters : Filters) (unavailable : list (nat * nat))
  : option (Filters * list (nat * nat)) :=
  match blocks with
  | [] => Some (filters, unavailable)
  | fromBlock :: rest =>
      block ← guess_block matsFrom matsTo byName fromBlock;
      match block with
      | Some block =>
          (* if block != fromBlock *)
          if bool_decide (Block_key block ≠ Block_key fromBlock) then
            guess_loop matsFrom matsTo byName rest
              (filters ++ [(Block_key fromBlock, Block_key block)]) unavailable
          else guess_loop matsFrom matsTo byName rest filters unavailable
      | None =>
          guess_loop matsFrom matsTo byName rest
            filters (unavailable ++ [Block_key fromBlock])
      end
  end.

(** [guessFilterTable(matsFrom, matsTo)] *)
Definition guessFilterTable (matsFrom matsTo : MCMaterials)
  : option (Filters * list (nat * nat)) :=
  byName ← toByName matsTo;
  guess_loop matsFrom matsTo byName (allBlocks matsFrom) [] [].

(** ** The conversion cache: [conversionFunc] *)

(** The function objects [conversionFunc] returns: [nullConversion] or a
    [convert] closure over a table. *)
Inductive ConversionFunc :=
| ConvNull
| ConvFilter (table : Table).

(** Calling the returned function on one identifier. *)
Definition call_conversion (func : ConversionFunc) (b d : nat)
  : option (nat * nat) :=
  match func with
  | ConvNull => Some (nullConversion b d)
  | ConvFilter table => filterConversion table b (Some d)
  end.

(** The module state around [conversionFunc].  Registries are objects
    compared by identity ([is]) and used as dict keys by identity, so they
    are named by their address in [registries].  [resolver_runs] is a
    trace: the arguments of every call of [guessFilterTable] so far. *)
Record Module_state := mkState {
  registries : gmap nat MCMaterials;
  _conversionFuncs : gmap (nat * nat) ConversionFunc;
  resolver_runs : list (nat * nat)
}.

(** [conversionFunc(destMats, sourceMats)] *)
Definition conversionFunc (st : Module_state) (destMats sourceMats : nat)
  : option (ConversionFunc * Module_state) :=
  if bool_decide (destMats = sourceMats) then Some (ConvNull, st)
  else
    match _conversionFuncs st !! (destMats, sourceMats) with
    | Some func => Some (func, st)
    | None =>
        source ← registries st !! sourceMats;
        dest ← registries st !! destMats;
        '(filters, unavailable) ← guessFilterTable source dest;
        (* the arguments of the log.debug calls *)
        _ ← mats_name source;
        _ ← mats_name dest;
        _ ← mapM (λ ab : (nat * nat) * (nat * nat),
                   a ← Block_name source (blockWithID source ab.1.1 ab.1.2);
                   b ← Block_name dest (blockWithID dest ab.2.1 ab.2.2);
                   Some (a, b)) filters;
        _ ← mapM (λ a : nat * nat,
                   Block_name source (blockWithID source a.1 a.2)) unavailable;
        table ← _filterTable filters unavailable (35, 0);
        let func := ConvFilter table in
        Some (func,
              {| registries := registries st;
                 _conversionFuncs :=
                   <[(destMats, sourceMats) := func]> (_conversionFuncs st);
                 resolver_runs :=
                   resolver_runs st ++ [(sourceMats, destMats)] |})
    end.

(** ** Registry histories *)

(** The operations that change a registry after it is constructed. *)
Inductive Op :=
| OpAddBlock (blockID blockData : nat) (kw : BlockKw)
| OpSetName (name : string).

Fixpoint run_ops (self : MCMaterials) (ops : list Op) : option MCMaterials :=
  match ops with
  | [] => Some self
  | OpAddBlock blockID blockData kw :: rest =>
      r ← addBlock self blockID blockData kw;
      run_ops r.1 rest
  | OpSetName name :: rest => run_ops (set_name self name) rest
  end.

(** A registry state: [MCMaterials(defaultName)] followed by [ops]. *)
Definition build (defaultName : string) (ops : list Op) : option MCMaterials :=
  self ← MCMaterials_init defaultName;
  run_ops self ops.

(** Every [addBlock] call such a registry has received, the constructor's
    own definition of Air first. *)
Definition history (ops : list Op) : list Op := OpAddBlock 0 0 Air_kw :: ops.

(** The ID an operation defines a block for. *)
Definition op_blockID (op : Op) : option nat :=
  match op with
  | OpAddBlock blockID _ _ => Some blockID
  | OpSetName _ => None
  end.

(** No call of the history defines data 0 of ID [p] (the call that
    replaces the rows of the ID). *)
Definition op_is_default_of (p : nat) (op : Op) : bool :=
  match op with
  | OpAddBlock blockID 0 _ => bool_decide (blockID = p)
  | _ => false
  end.

Definition no_default_definition (p : nat) (ops : list Op) : Prop :=
  Forall (λ op, op_is_default_of p op = false) (history ops).

(** Keywords that [addBlock] accepts without a broadcast error: a
    [mapcolor] of no or at least three channels, a [texture] of one
    coordinate or of zero, one or six faces. *)
Definition kw_ok (kw : BlockKw) : Prop :=
  match kw_mapcolor kw with
  | None => True
  | Some c => length c = 0 ∨ 3 ≤ length c
  end ∧
  match kw_texture kw with
  | Some (TexFaces faces) => length faces = 0 ∨ length faces = 1 ∨ length faces = 6
  | _ => True
  end.

(** An operation whose call returns: identifiers in range and keywords
    that are accepted. *)
Definition op_ok (op : Op) : Prop :=
  match op with
  | OpAddBlock blockID blockData kw =>
      blockID < id_limit ∧ blockData < 16 ∧ kw_ok kw
  | OpSetName _ => True
  end.

(** [addBlock] keywords that give only a name. *)
Definition kw_named (name : string) : BlockKw :=
  mkKw (Some name) None None None None None None None.

(** ** The shape invariant of a registry *)

(** A color cell: four channels of a [uint8] array. *)
Definition is_rgba (c : list Z) : Prop :=
  length c = 4 ∧ Forall (λ z, (0 ≤ z < 256)%Z) c.

Record wf (m : MCMaterials) : Prop := mk_wf {
  wf_names_len : length (names m) = id_limit;
  wf_names_rows : Forall (λ r, length r = 16) (names m);
  wf_aka_len : length (aka m) = id_limit;
  wf_aka_rows : Forall (λ r, length r = 16) (aka m);
  wf_type_len : length (type m) = id_limit;
  wf_type_refs : Forall (λ ref, ref < length (typeRows m)) (type m);
  wf_typeRows : Forall (λ r, length r = 16) (typeRows m);
  wf_lightEmission : length (lightEmission m) = id_limit;
  wf_lightAbsorption : length (lightAbsorption m) = id_limit;
  wf_flatColors_len : length (flatColors m) = id_limit;
  wf_flatColors_rows :
    Forall (λ r, length r = 16 ∧ Forall is_rgba r) (flatColors m);
  wf_blockTextures_len : length (blockTextures m) = id_limit;
  wf_blockTextures_rows : Forall (λ r, length r = 16) (blockTextures m);
  wf_allBlocks :
    Forall (λ b, ID b < id_limit ∧ blockData b < 16) (allBlocks m);
  wf_blocksByID :
    ∀ k b, blocksByID m !! k = Some b → Block_key b = k
}.

(** ** Sample definitions *)

(** A definition that gives every field but the texture. *)
Definition stone_kw : BlockKw :=
  {| kw_name := Some "Stone"%string; kw_idStr := Some "stone"%string;
     kw_brightness := Some 7%Z; kw_opacity := Some 3%Z;
     kw_aka := Some "Rock"%string; kw_type := Some "SIMPLE"%string;
     kw_mapcolor := Some [125; 125; 125]%Z; kw_texture := None |}.

(** A definition that gives only a light emission. *)
Definition glow_kw : BlockKw :=
  mkKw None None (Some 9%Z) None None None None None.

(** A definition that gives only a category. *)
Definition stairs_kw : BlockKw :=
  mkKw None None None None None (Some "STAIRS"%string) None None.

(** The rows of the per-ID tables at ID [p] are the same in [m] and [m']. *)
Definition same_tables_at (p : nat) (m m' : MCMaterials) : Prop :=
  names m' !! p = names m !! p
  ∧ aka m' !! p = aka m !! p
  ∧ lightEmission m' !! p = lightEmission m !! p
  ∧ lightAbsorption m' !! p = lightAbsorption m !! p
  ∧ flatColors m' !! p = flatColors m !! p
  ∧ blockTextures m' !! p = blockTextures m !! p.

(** The order of [Block.__cmp__] on keys: [k1 <= k2] as Python tuples. *)
Definition key_le (k1 k2 : nat * nat) : Prop :=
  k1.1 < k2.1 ∨ (k1.1 = k2.1 ∧ k1.2 ≤ k2.2).

(** [a >= b] by [Block.__cmp__]. *)
Definition Block_ge (a b : Block) : Prop := key_le (Block_key b) (Block_key a).

(** Sample histories for the resolver. *)
Definition two_stones : list Op :=
  [OpAddBlock 1 0 (kw_named "Stone"); OpAddBlock 2 0 (kw_named "Stone")].

Definition classic_wool : list Op :=
  [OpAddBlock 35 0 (kw_named "Wool"); OpAddBlock 35 10 (kw_named "Violet Wool")].

Definition old_wool : list Op := [OpAddBlock 31 0 (kw_named "Violet Wool")].

Definition alpha_wool : list Op :=
  [OpAddBlock 35 0 (kw_named "White"); OpAddBlock 35 10 (kw_named "Purple Wool")].

(** The registry a sample history builds (the allocated tables when the
    history is rejected, which the sample histories are not). *)
Definition built (defaultName : string) (ops : list Op) : MCMaterials :=
  default (MCMaterials_alloc defaultName) (build defaultName ops).

(** A definition that gives only a map color of three channels. *)
Definition gray_kw : BlockKw :=
  mkKw None None None None None None (Some [125; 300; 125]%Z) None.

(** ** Lookup by key: [MCMaterials.__getitem__] and [MCMaterials.get] *)

(** The exceptions of the lookups: [KeyError] is raised by [__getitem__]
    itself, [IndexError] by the resolution of a name. *)
Inductive Exn := KeyError | IndexError.

Inductive Result (A : Type) :=
| Ok (a : A)
| Raise (e : Exn).
Arguments Ok {A} a.
Arguments Raise {A} e.

(** The keys [__getitem__] accepts: a string, an (id, data) pair, or an
    id. *)
Inductive Key :=
| KeyName (name : string)
| KeyPair (id data : nat)
| KeyID (id : nat).

(** [for b in self.allBlocks: if b.name == key: return b]
    [raise KeyError("No blocks named: " + key)] *)
Fixpoint getitem_name (self : MCMaterials) (key : string)
    (blocks : list Block) : Result Block :=
  match blocks with
  | [] => Raise KeyError
  | b :: rest =>
      match Block_name self b with
      | None => Raise IndexError
      | Some n => if String.eqb n key then Ok b else getitem_name self key rest
      end
  end.

(** [MCMaterials.__getitem__(self, key)] *)
Definition getitem (self : MCMaterials) (key : Key) : Result Block :=
  match key with
  | KeyName name => getitem_name self name (allBlocks self)
  | KeyPair id data => Ok (blockWithID self id data)
  | KeyID id => Ok (blockWithID self id 0)
  end.

(** [MCMaterials.get(self, key, default=None)]: only [KeyError] is
    caught. *)
Definition get (self : MCMaterials) (key : Key) (default : option Block)
  : Result (option Block) :=
  match getitem self key with
  | Ok b => Ok (Some b)
  | Raise KeyError => Ok default
  | Raise e => Raise e
  end.

(** [MCMaterials.__len__(self)] *)
Definition len (self : MCMaterials) : nat := length (allBlocks self).

(** The test of [blocksMatching] on a known block of a registry: whether
    the block passes for the query tokens [spiltNames]. *)
Definition block_passes (self : MCMaterials) (spiltNames : list string)
    (v : Block) : bool :=
  match Block_name self v, Block_aka self v with
  | Some vname, Some vaka => block_matches spiltNames vname vaka
  | _, _ => false
  end.

(** ** The writes of a conversion table *)

(** The key [u] of a table entry addresses the identifier [(i, d)]: the
    same ID, and data 0 (the whole row) or the same data. *)
Definition touches (u : nat * nat) (i d : nat) : bool :=
  (u.1 =? i)%nat && ((u.2 =? 0)%nat || (u.2 =? d)%nat).

(** The assignments [_filterTable] makes, in its order: the unavailable
    keys with the default, then the filters. *)
Definition table_writes (filters : Filters) (unavailable : list (nat * nat))
    (default : nat * nat) : Filters :=
  ((λ u, (u, default)) <$> unavailable) ++ filters.

(** The value of the last assignment of [writes] that addresses
    [(i, d)]. *)
Fixpoint last_write (writes : Filters) (i d : nat) : option (nat * nat) :=
  match writes with
  | [] => None
  | (u, v) :: rest =>
      match last_write rest i d with
      | Some w => Some w
      | None => if touches u i d then Some v else None
      end
  end.

(** The shape of a table: [id_limit] rows of 16 cells. *)
Definition table_wf (table : Table) : Prop :=
  length table = id_limit ∧ Forall (λ row, length row = 16) table.

(** A key in the range of the table. *)
Definition key_in_range (u : nat * nat) : Prop := u.1 < id_limit ∧ u.2 < 16.

(** ** The batch entry point: [convertBlocks] *)

(** Calling a conversion function on arrays: [nullConversion] returns its
    arguments, a [convert] closure the two arrays of the table entries. *)
Definition call_conversion_arrays (func : ConversionFunc) (blocks : list nat)
    (blockData : option (list nat)) : option (list nat * option (list nat)) :=
  match func with
  | ConvNull => Some (nullConversion blocks blockData)
  | ConvFilter table =>
      r ← filterConversion_arrays table blocks blockData;
      Some (r.1, Some r.2)
  end.

(** [convertBlocks(destMats, sourceMats, blocks, blockData)];
    [sourceMats == destMats] is the identity of the two registries, which
    define no [__eq__]. *)
Definition convertBlocks (st : Module_state) (destMats sourceMats : nat)
    (blocks : list nat) (blockData : option (list nat))
  : option ((list nat * option (list nat)) * Module_state) :=
  if bool_decide (sourceMats = destMats) then Some ((blocks, blockData), st)
  else
    fs ← conversionFunc st destMats sourceMats;
    r ← call_conversion_arrays fs.1 blocks blockData;
    Some (r, fs.2).

(** A module state with the two sample registries, named as the module
    names them. *)
Definition sample_state : Module_state :=
  {| registries :=
       <[0 := set_name (built "Future Block!" alpha_wool) "Alpha"]>
         (<[1 := set_name (built "Unused Block" old_wool) "Classic"]> ∅);
     _conversionFuncs := ∅;
     resolver_runs := [] |}.

(** ** Integers that numpy accepts for a cell *)

(** An integer that fits a C [long] on every platform (32 signed bits).
    numpy converts the Python integer given for a cell of a fixed-width
    array through a C [long] and rejects a larger one with
    [OverflowError]; the casts [Z_uint8], [Z_uint16] and [to_uint8_pair]
    describe the integers that fit. *)
Definition fits_long (z : Z) : Prop := (- 2 ^ 31 ≤ z < 2 ^ 31)%Z.

(** The integers among the keywords of an [addBlock] call fit. *)
Definition kw_fits (kw : BlockKw) : Prop :=
  from_option fits_long True (kw_brightness kw)
  ∧ from_option fits_long True (kw_opacity kw)
  ∧ from_option (Forall fits_long) True (kw_mapcolor kw)
  ∧ match kw_texture kw with
    | None => True
    | Some (TexCoord x y) => fits_long x ∧ fits_long y
    | Some (TexFaces faces) =>
        Forall (λ f : Z * Z, fits_long f.1 ∧ fits_long f.2) faces
    end.

(** The two components of a table value fit. *)
Definition pair_fits (v : nat * nat) : Prop :=
  fits_long (Z.of_nat v.1) ∧ fits_long (Z.of_nat v.2).

(** ** Assignments of query tokens to block tokens *)

(** An assignment of the query tokens [spiltNames] to the block tokens
    [nameParts], as pairs (index of the query token, index of the block
    token): every query token is assigned, no query token and no block
    token is assigned twice, and each query token occurs in the block
    token it is assigned to. *)
Definition token_assignment (spiltNames nameParts : list string)
    (pairs : list (nat * nat)) : Prop :=
  NoDup pairs.*1
  ∧ NoDup pairs.*2
  ∧ (∀ j, j < length spiltNames → j ∈ pairs.*1)
  ∧ Forall (λ jk : nat * nat,
              ∃ s v2, spiltNames !! jk.1 = Some s
                      ∧ nameParts !! jk.2 = Some v2
                      ∧ PyStr.contains s v2 = true) pairs.

(** The block tokens of a block: those of its lower-cased name followed by
    those of its lower-cased alias. *)
Definition block_tokens (vname vaka : string) : list string :=
  PyStr.split (PyStr.lower vname) ++ PyStr.split (PyStr.lower vaka).

(** ** The calls that write an attribute of an identifier *)

(** The keywords of an operation; [OpSetName] carries none. *)
Definition op_kw (op : Op) : BlockKw :=
  match op with
  | OpAddBlock _ _ kw => kw
  | OpSetName _ => kw_empty
  end.

(** The call defines the identifier [(p, v)] itself. *)
Definition op_targets (p v : nat) (op : Op) : bool :=
  match op with
  | OpAddBlock blockID blockData _ =>
      (blockID =? p)%nat && (blockData =? v)%nat
  | OpSetName _ => false
  end.

(** The call writes the cell of [(p, v)] in the tables that a call on
    data 0 writes for every variant ([names], [flatColors],
    [blockTextures]): it defines [(p, v)] or [(p, 0)]. *)
Definition op_addresses (p v : nat) (op : Op) : bool :=
  match op with
  | OpAddBlock blockID blockData _ =>
      (blockID =? p)%nat && ((blockData =? 0)%nat || (blockData =? v)%nat)
  | OpSetName _ => false
  end.

(** A [texture] keyword that [if texture:] does not skip. *)
Definition gives_texture (kw : BlockKw) : bool :=
  match kw_texture kw with
  | None => false
  | Some (TexFaces []) => false
  | Some _ => true
  end.

(** No call of the history that defines [(p, v)] gave an alias. *)
Definition aka_not_given (p v : nat) (ops : list Op) : Prop :=
  Forall (λ op, op_targets p v op = true → kw_aka (op_kw op) = None)
    (history ops).

(** No call of the history that defines [(p, v)] or [(p, 0)] gave a
    name, a map color, a texture. *)
Definition name_not_given (p v : nat) (ops : list Op) : Prop :=
  Forall (λ op, op_addresses p v op = true → kw_name (op_kw op) = None)
    (history ops).

Definition mapcolor_not_given (p v : nat) (ops : list Op) : Prop :=
  Forall (λ op, op_addresses p v op = true → kw_mapcolor (op_kw op) = None)
    (history ops).

Definition texture_not_given (p v : nat) (ops : list Op) : Prop :=
  Forall (λ op, op_addresses p v op = true → gives_texture (op_kw op) = false)
    (history ops).

(** No call of the history that defines a variant of ID [p] gave a light
    emission, a light absorption. *)
Definition brightness_not_given (p : nat) (ops : list Op) : Prop :=
  Forall (λ op, op_blockID op = Some p → kw_brightness (op_kw op) = None)
    (history ops).

Definition opacity_not_given (p : nat) (ops : list Op) : Prop :=
  Forall (λ op, op_blockID op = Some p → kw_opacity (op_kw op) = None)
    (history ops).

(** The cells that hold the default: the alias cell of [(p, v)]; the name
    cells and the color cells of [(p, 0)] and [(p, v)]; the texture cell
    of [(p, v)]. *)
Definition aka_default (p v : nat) (m : MCMaterials) : Prop :=
  ∃ row, aka m !! p = Some row ∧ row !! v = Some EmptyString.

Definition name_default (dn : string) (p v : nat) (m : MCMaterials) : Prop :=
  ∃ row, names m !! p = Some row
         ∧ row !! 0 = Some dn ∧ row !! v = Some dn.

Definition color_default (p v : nat) (m : MCMaterials) : Prop :=
  ∃ row, flatColors m !! p = Some row
         ∧ row !! 0 = Some defaultColor ∧ row !! v = Some defaultColor.

Definition texture_default (p v : nat) (m : MCMaterials) : Prop :=
  ∃ row, blockTextures m !! p = Some row
         ∧ row !! v = Some (replicate 6 NOTEX).

(** ** The calls that write the category of an identifier *)

(** No call of [before] defines data 0 of ID [i]: the entry of [type] for
    [i] still refers to the row that the constructor shared among the
    IDs. *)
Definition keeps_shared_row (i : nat) (before : list Op) : bool :=
  forallb (λ op, negb (op_is_default_of i op)) before.

(** After the calls [before], the call writes the category cell of
    [(p, v)]: it defines [(p, 0)] or [(p, v)], or it defines data [v]
    (not 0) of another ID while that ID and [p] both still refer to the
    shared row. *)
Definition op_writes_type (p v : nat) (before : list Op) (op : Op) : bool :=
  match op with
  | OpAddBlock blockID blockData _ =>
      if (blockID =? p)%nat then (blockData =? 0)%nat || (blockData =? v)%nat
      else (blockData =? v)%nat && negb (blockData =? 0)%nat
           && keeps_shared_row blockID before && keeps_shared_row p before
  | OpSetName _ => false
  end.

(** No call of [rest], made after the calls [before], that writes the
    category cell of [(p, v)] gave a category. *)
Fixpoint type_not_given_from (p v : nat) (before rest : list Op) : Prop :=
  match rest with
  | [] => True
  | op :: rest' =>
      (op_writes_type p v before op = true → kw_type (op_kw op) = None)
      ∧ type_not_given_from p v (before ++ [op]) rest'
  end.

Definition type_not_given (p v : nat) (ops : list Op) : Prop :=
  type_not_given_from p v [] (history ops).

(** The category cell of [(p, v)] holds the default, and the entries of
    [type] refer to the shared row 0 exactly for the IDs that [before]
    gave no data 0, to rows of their own otherwise. *)
Definition type_default (p v : nat) (before : list Op) (m : MCMaterials)
  : Prop :=
  (∃ ref row, type m !! p = Some ref ∧ typeRows m !! ref = Some row
              ∧ row !! v = Some "NORMAL"%string)
  ∧ (∀ i ref, type m !! i = Some ref →
              (ref = 0 ↔ keeps_shared_row i before = true))
  ∧ (∀ i j ref, i ≠ j → type m !! i = Some ref → type m !! j = Some ref →
                ref = 0).

(** * Properties *)

(** ** The texture rotation *)

Section Rotation.
Context {A : Type}.
Implicit Types a b c d e f : A.

(** One rotation moves the faces at indices 5, 0 and 1 and keeps the
    faces at indices 2 (TOP), 3 (BOTTOM) and 4 (BACKWARD). *)
Lemma rot90cw_faces a b c d e f :
  rot90cw [a; b; c; d; e; f] = Some [f; a; c; d; e; b].
Proof. reflexivity. Qed.

(** Three rotations give the texture list back. *)
Lemma rot90cw_three_times a b c d e f :
  rot90cw_times 3 [a; b; c; d; e; f] = Some [a; b; c; d; e; f].
Proof. reflexivity. Qed.

(** The rotation fails on a list that is too short to have a face 5. *)
Lemma rot90cw_short (texture : list A) :
  length texture < 6 → rot90cw texture = None.
Proof.
  intros Hlen. unfold rot90cw, rot. cbn [mapM].
  rewrite (lookup_ge_None_2 texture 5) by lia. reflexivity.
Qed.
End Rotation.

(** C2: [rot90cw] keeps the TOP and BOTTOM faces of a 6-face texture list,
    but it also keeps the BACKWARD face and cycles only the three faces
    RIGHT, LEFT and FORWARD: four rotations of the faces [0 .. 5] give
    the list of one rotation, which differs from the original list, while
    three rotations restore it. *)
Theorem rot90cw_four_times_is_one_rotation :
  rot90cw_times 4 [0; 1; 2; 3; 4; 5] = Some [5; 0; 2; 3; 4; 1]
  ∧ rot90cw_times 4 [0; 1; 2; 3; 4; 5] = rot90cw [0; 1; 2; 3; 4; 5]
  ∧ rot90cw_times 4 [0; 1; 2; 3; 4; 5] ≠ Some [0; 1; 2; 3; 4; 5]
  ∧ rot90cw_times 3 [0; 1; 2; 3; 4; 5] = Some [0; 1; 2; 3; 4; 5]
  ∧ (∀ texture texture' : list nat,
       rot90cw texture = Some texture' →
       texture' !! texDirs TOP = texture !! texDirs TOP
       ∧ texture' !! texDirs BOTTOM = texture !! texDirs BOTTOM
       ∧ texture' !! texDirs BACKWARD = texture !! texDirs BACKWARD).
Proof.
  split; [reflexivity|]. split; [reflexivity|]. split; [discriminate|].
  split; [reflexivity|].
  intros texture texture' H. unfold rot90cw, rot in H. cbn [mapM] in H.
  destruct (texture !! 5) as [t5|]; [|discriminate].
  destruct (texture !! 0) as [t0|]; [|discriminate].
  destruct (texture !! 2) as [t2|] eqn:E2; [|discriminate].
  destruct (texture !! 3) as [t3|] eqn:E3; [|discriminate].
  destruct (texture !! 4) as [t4|] eqn:E4; [|discriminate].
  destruct (texture !! 1) as [t1|]; [|discriminate].
  simpl in H. injection H as <-. simpl. rewrite E2, E3, E4. done.
Qed.

(** ** The conversion table *)

Lemma table_of_indices_lookup (i j : nat) :
  i < id_limit → j < 16 →
  filterConversion table_of_indices i (Some j) = Some (i mod 256, j).
Proof.
  intros Hi Hj. unfold filterConversion, table_of_indices, _indices.
  rewrite !list_lookup_fmap, lookup_seq_lt by done.
  cbn [fmap option_fmap option_map mbind option_bind default Nat.add].
  rewrite !list_lookup_fmap, lookup_seq_lt by done.
  cbn [fmap option_fmap option_map Nat.add].
  unfold to_uint8_pair, uint8, id. cbn [fst snd].
  rewrite (Nat.mod_small j 256) by lia. reflexivity.
Qed.

(** With no filter and no unavailable entry the table is the one filled
    from [_indices], whatever the fallback. *)
Lemma filterTable_empty (fallback : nat * nat) :
  _filterTable [] [] fallback = Some table_of_indices.
Proof. reflexivity. Qed.

(** Below ID 256 the table built from empty lists is the identity. *)
Lemma filterTable_empty_identity_below_256 (fallback : nat * nat) (i j : nat) :
  i < 256 → j < 16 →
  (table ← _filterTable [] [] fallback; filterConversion table i (Some j))
  = Some (i, j).
Proof.
  intros Hi Hj. rewrite filterTable_empty. simpl.
  rewrite table_of_indices_lookup; [|unfold id_limit; lia|done].
  rewrite Nat.mod_small by done. reflexivity.
Qed.

(** C1: the table built from an empty filter list and an empty unavailable
    list is not the identity on every identifier: its cells are [uint8],
    so the source identifier (256, 0) is mapped to (0, 0), whatever the
    fallback. *)
Theorem filterTable_empty_wraps_at_256 :
  ∀ fallback : nat * nat,
    (table ← _filterTable [] [] fallback; filterConversion table 256 (Some 0))
    = Some (0, 0).
Proof.
  intros fallback. rewrite filterTable_empty. simpl.
  rewrite table_of_indices_lookup; [reflexivity|unfold id_limit; lia|lia].
Qed.

(** ** The conversion cache *)

(** C6: for every module state and every registry [R], [conversionFunc(R, R)]
    returns [nullConversion], which is the identity on every identifier,
    and leaves the state as it was: no table is stored in the cache and no
    call of [guessFilterTable] is added to the trace. *)
Theorem conversionFunc_same_registry :
  ∀ (st : Module_state) (R : nat),
    ∃ func st',
      conversionFunc st R R = Some (func, st')
      ∧ func = ConvNull
      ∧ (∀ primaryID variantID,
           call_conversion func primaryID variantID
           = Some (primaryID, variantID))
      ∧ resolver_runs st' = resolver_runs st
      ∧ _conversionFuncs st' = _conversionFuncs st
      ∧ st' = st.
Proof.
  intros st R. exists ConvNull, st. unfold conversionFunc.
  rewrite bool_decide_eq_true_2 by reflexivity. repeat split.
Qed.

(** * Registry invariants *)

(** ** Array updates *)

Section AssignVariants.
Context {A : Type}.
Implicit Types (arr : list (list A)) (row : list A) (v : A).

Lemma assign_variants_inv arr i d v arr' :
  assign_variants arr i d v = Some arr' →
  ∃ row, arr !! i = Some row ∧ arr' = <[i := assigned_row row d v]> arr.
Proof.
  unfold assign_variants, assigned_row. intros H.
  destruct (arr !! i) as [row|]; [|discriminate]. simpl in H.
  exists row. split; [done|].
  destruct (d =? 0)%nat; [by injection H as <-|].
  destruct (row !! d); [|discriminate]. by injection H as <-.
Qed.

Lemma assign_variants_Some arr i d v row :
  arr !! i = Some row → d < length row →
  assign_variants arr i d v = Some (<[i := assigned_row row d v]> arr).
Proof.
  intros Hrow Hd. unfold assign_variants, assigned_row. rewrite Hrow. simpl.
  destruct (d =? 0)%nat; [done|].
  destruct (lookup_lt_is_Some_2 row d Hd) as [x ->]. done.
Qed.

Lemma assigned_row_length row d v : length (assigned_row row d v) = length row.
Proof.
  unfold assigned_row. destruct (d =? 0)%nat.
  - apply length_replicate.
  - apply length_insert.
Qed.

Lemma assigned_row_lookup row d v :
  d < length row → assigned_row row d v !! d = Some v.
Proof.
  intros Hd. unfold assigned_row. destruct (d =? 0)%nat.
  - by apply lookup_replicate_2.
  - by apply list_lookup_insert_eq.
Qed.

Lemma assigned_row_Forall (P : A → Prop) row d v :
  Forall P row → P v → Forall P (assigned_row row d v).
Proof.
  intros Hrow Hv. unfold assigned_row. destruct (d =? 0)%nat.
  - by apply Forall_replicate.
  - by apply Forall_insert.
Qed.

Lemma assign_variants_length arr i d v arr' :
  assign_variants arr i d v = Some arr' → length arr' = length arr.
Proof.
  intros (row & _ & ->)%assign_variants_inv. apply length_insert.
Qed.

Lemma assign_variants_lookup_ne arr i d v arr' j :
  assign_variants arr i d v = Some arr' → j ≠ i → arr' !! j = arr !! j.
Proof.
  intros (row & _ & ->)%assign_variants_inv Hne.
  by apply list_lookup_insert_ne.
Qed.

Lemma assign_variants_Forall (P : list A → Prop) arr i d v arr' :
  assign_variants arr i d v = Some arr' →
  Forall P arr → (∀ row, P row → P (assigned_row row d v)) →
  Forall P arr'.
Proof.
  intros (row & Hrow & ->)%assign_variants_inv Harr HP.
  apply Forall_insert; [done|]. apply HP.
  by eapply (Forall_lookup_1 P arr).
Qed.
End AssignVariants.

Lemma broadcast_length {A} (n : nat) (v r : list A) :
  broadcast n v = Some r → length r = n.
Proof.
  unfold broadcast. destruct (length v =? n)%nat eqn:E.
  - intros [= <-]. by apply Nat.eqb_eq.
  - destruct v as [|x [|]]; try discriminate. intros [= <-].
    apply length_replicate.
Qed.

Lemma broadcast_exact {A} (n : nat) (v : list A) :
  length v = n → broadcast n v = Some v.
Proof. intros H. unfold broadcast. by rewrite (proj2 (Nat.eqb_eq _ _) H). Qed.

Lemma Z_uint8_range (z : Z) : (0 ≤ Z_uint8 z < 256)%Z.
Proof. unfold Z_uint8. apply Z.mod_pos_bound. lia. Qed.

Lemma Z_uint8_small (z : Z) : (0 ≤ z < 256)%Z → Z_uint8 z = z.
Proof. intros H. unfold Z_uint8. by apply Z.mod_small. Qed.

Lemma is_rgba_uint8 (c : list Z) : length c = 4 → is_rgba (Z_uint8 <$> c).
Proof.
  intros H. split; [by rewrite length_fmap|].
  apply Forall_fmap, Forall_true. intros z. apply Z_uint8_range.
Qed.

Lemma is_rgba_stored (c : list Z) :
  is_rgba c →
  broadcast 4 (take 4 (c ++ [255%Z])) = Some c ∧ Z_uint8 <$> c = c.
Proof.
  intros [Hlen Hrange]. split.
  - rewrite take_app_le, take_ge by lia. by apply broadcast_exact.
  - clear Hlen. induction Hrange as [|z c Hz Hc IH]; [done|].
    rewrite fmap_cons, IH, Z_uint8_small by done. done.
Qed.

(** ** Inversion of [addBlock] *)

(** Case analysis on the first step of a computation that returned. *)
Ltac bind_inv H :=
  repeat match type of H with
    | (?x ≫= _) = Some _ =>
        let E := fresh "E" in
        destruct x eqn:E; [cbn [mbind option_bind] in H|discriminate H]
    end.

Lemma addBlock_inv m i d kw m' b :
  addBlock m i d kw = Some (m', b) →
  ∃ namesRow currentName akaRow colorRow currentColor rgba texture
    typeRef typeRow,
    (names m !! i = Some namesRow ∧ namesRow !! d = Some currentName)
    ∧ (i < length (lightEmission m) ∧ i < length (lightAbsorption m))
    ∧ (aka m !! i = Some akaRow ∧ d < length akaRow)
    ∧ (flatColors m !! i = Some colorRow ∧ colorRow !! d = Some currentColor
       ∧ broadcast 4 (take 4 (default currentColor (kw_mapcolor kw) ++ [255%Z]))
         = Some rgba
       ∧ assign_variants (flatColors m) i d (Z_uint8 <$> rgba)
         = Some (flatColors m'))
    ∧ (texture_faces (kw_texture kw) = Some texture
       ∧ match texture with
         | Some faces => assign_variants (blockTextures m) i d faces
         | None => Some (blockTextures m)
         end = Some (blockTextures m'))
    ∧ (type m !! i = Some typeRef ∧ typeRows m !! typeRef = Some typeRow
       ∧ d < length typeRow)
    ∧ names m' =
        (if (d =? 0)%nat
         then <[i := replicate 16 (default currentName (kw_name kw))]> (names m)
         else <[i := <[d := default currentName (kw_name kw)]> namesRow]> (names m))
    ∧ type m' =
        (if (d =? 0)%nat then <[i := length (typeRows m)]> (type m) else type m)
    ∧ typeRows m' =
        (if (d =? 0)%nat
         then typeRows m ++ [replicate 16 (default "NORMAL"%string (kw_type kw))]
         else <[typeRef := <[d := default "NORMAL"%string (kw_type kw)]> typeRow]>
                (typeRows m))
    ∧ aka m' = <[i := <[d := default EmptyString (kw_aka kw)]> akaRow]> (aka m)
    ∧ lightEmission m' =
        <[i := Z_uint8 (default defaultBrightness (kw_brightness kw))]>
          (lightEmission m)
    ∧ lightAbsorption m' =
        <[i := Z_uint8 (default defaultOpacity (kw_opacity kw))]>
          (lightAbsorption m)
    ∧ allBlocks m' = allBlocks m ++ [b]
    ∧ blocksByID m' = <[(i, d) := b]> (blocksByID m)
    ∧ b = mkBlock i d (default EmptyString (kw_idStr kw))
    ∧ mats_name m' = mats_name m
    ∧ defaultName m' = defaultName m.
Proof.
  unfold addBlock. intros H. bind_inv H.
  injection H as <- <-.
  eexists _, _, _, _, _, _, _, _, _. cbn.
  repeat match goal with |- _ ∧ _ => split end; try done.
  all: eauto using lookup_lt_Some.
Qed.

(** ** The invariant holds in every registry state *)

Lemma row_length {A} (arr : list (list A)) (n i : nat) (row : list A) :
  Forall (λ r, length r = n) arr → arr !! i = Some row → length row = n.
Proof. intros H Hi. exact (Forall_lookup_1 _ _ _ _ H Hi). Qed.

Lemma wf_alloc (dn : string) : wf (MCMaterials_alloc dn).
Proof.
  split; cbn [MCMaterials_alloc names aka type typeRows lightEmission
      lightAbsorption flatColors blockTextures allBlocks blocksByID].
  all: rewrite ?length_replicate; try done.
  - by apply Forall_replicate, length_replicate.
  - by apply Forall_replicate, length_replicate.
  - apply Forall_replicate. simpl. lia.
  - by repeat constructor.
  - apply Forall_replicate. split; [apply length_replicate|].
    apply Forall_replicate, is_rgba_uint8. done.
  - by apply Forall_replicate, length_replicate.
Qed.

Lemma set_name_wf m name : wf m → wf (set_name m name).
Proof. intros []. by split. Qed.

Lemma addBlock_wf m i d kw m' b :
  wf m → addBlock m i d kw = Some (m', b) → wf m'.
Proof.
  intros Hwf H.
  destruct (addBlock_inv _ _ _ _ _ _ H) as
    (namesRow & currentName & akaRow & colorRow & currentColor & rgba & texture
     & typeRef & typeRow & [HN1 HN2] & [HL1 HL2] & [HA1 HA2]
     & (HC1 & HC2 & HC3 & HC4) & [HT1 HT2] & (HY1 & HY2 & HY3)
     & Hnames & Htype & HtypeRows & Haka & HlE & HlA & Hall & HbyID & Hb & _).
  destruct Hwf as [Wn Wnr Wa War Wt Wtr Wtrows WlE WlA Wc Wcr Wx Wxr Wall Wby].
  assert (Hi : i < id_limit).
  { rewrite <- Wn. by eapply lookup_lt_Some. }
  assert (Hd : d < 16).
  { pose proof (Forall_lookup_1 _ _ _ _ Wnr HN1) as Hrow; cbv beta in Hrow.
    rewrite <- Hrow. by eapply lookup_lt_Some. }
  split.
  - rewrite Hnames. destruct (d =? 0)%nat; by rewrite length_insert.
  - rewrite Hnames. destruct (d =? 0)%nat; (apply Forall_insert; [done|]).
    + apply length_replicate.
    + rewrite length_insert. exact (row_length _ _ _ _ Wnr HN1).
  - rewrite Haka. by rewrite length_insert.
  - rewrite Haka. apply Forall_insert; [done|].
    rewrite length_insert. exact (row_length _ _ _ _ War HA1).
  - rewrite Htype. destruct (d =? 0)%nat; by rewrite ?length_insert.
  - rewrite Htype, HtypeRows. destruct (d =? 0)%nat.
    + rewrite length_app. simpl. apply Forall_insert; [|lia].
      eapply Forall_impl; [done|]. simpl. lia.
    + by rewrite length_insert.
  - rewrite HtypeRows. destruct (d =? 0)%nat.
    + apply Forall_app. split; [done|]. by repeat constructor.
    + apply Forall_insert; [done|]. rewrite length_insert.
      exact (row_length _ _ _ _ Wtrows HY2).
  - rewrite HlE. by rewrite length_insert.
  - rewrite HlA. by rewrite length_insert.
  - by rewrite (assign_variants_length _ _ _ _ _ HC4).
  - eapply assign_variants_Forall; [done..|].
    intros row [Hlen Hrow]. split; [by rewrite assigned_row_length|].
    apply assigned_row_Forall; [done|].
    apply is_rgba_uint8. by eapply broadcast_length.
  - destruct texture as [faces|].
    + by rewrite (assign_variants_length _ _ _ _ _ HT2).
    + by injection HT2 as <-.
  - destruct texture as [faces|].
    + eapply assign_variants_Forall; [done..|].
      intros row Hrow. by rewrite assigned_row_length.
    + by injection HT2 as <-.
  - rewrite Hall. apply Forall_app. split; [done|].
    constructor; [|done]. by rewrite Hb.
  - intros k b' Hk. rewrite HbyID in Hk.
    destruct (decide ((i, d) = k)) as [<-|Hne].
    + rewrite lookup_insert_eq in Hk. injection Hk as <-. by rewrite Hb.
    + rewrite lookup_insert_ne in Hk by done. by apply Wby.
Qed.

Lemma texture_faces_ok (texture : option TextureArg) :
  match texture with
  | Some (TexFaces faces) => length faces = 0 ∨ length faces = 1 ∨ length faces = 6
  | _ => True
  end →
  ∃ r, texture_faces texture = Some r
       ∧ match r with Some faces => length faces = 6 | None => True end.
Proof.
  destruct texture as [[x y|faces]|]; simpl.
  - intros _. eexists. split; [done|]. done.
  - intros Hlen.
    destruct faces as [|f0 [|f1 [|f2 [|f3 [|f4 [|f5 [|f6 faces]]]]]]];
      simpl in Hlen; try lia; by eexists.
  - intros _. by eexists.
Qed.

Lemma addBlock_Some m i d kw :
  wf m → i < id_limit → d < 16 → kw_ok kw →
  ∃ m' b, addBlock m i d kw = Some (m', b).
Proof.
  intros Hwf Hi Hd [Hcolor Htex].
  destruct Hwf as [Wn Wnr Wa War Wt Wtr Wtrows WlE WlA Wc Wcr Wx Wxr Wall Wby].
  destruct (lookup_lt_is_Some_2 (names m) i) as [namesRow HN1]; [lia|].
  pose proof (Forall_lookup_1 _ _ _ _ Wnr HN1) as HNlen; cbv beta in HNlen.
  destruct (lookup_lt_is_Some_2 namesRow d) as [currentName HN2]; [lia|].
  destruct (lookup_lt_is_Some_2 (lightEmission m) i) as [le HL1]; [lia|].
  destruct (lookup_lt_is_Some_2 (lightAbsorption m) i) as [la HL2]; [lia|].
  destruct (lookup_lt_is_Some_2 (aka m) i) as [akaRow HA1]; [lia|].
  pose proof (Forall_lookup_1 _ _ _ _ War HA1) as HAlen; cbv beta in HAlen.
  destruct (lookup_lt_is_Some_2 akaRow d) as [currentAka HA2]; [lia|].
  destruct (lookup_lt_is_Some_2 (flatColors m) i) as [colorRow HC1]; [lia|].
  destruct (Forall_lookup_1 _ _ _ _ Wcr HC1) as [HClen HCrow].
  destruct (lookup_lt_is_Some_2 colorRow d) as [currentColor HC2]; [lia|].
  pose proof (Forall_lookup_1 _ _ _ _ HCrow HC2) as Hrgba; cbv beta in Hrgba.
  assert (∃ rgba,
    broadcast 4 (take 4 (default currentColor (kw_mapcolor kw) ++ [255%Z]))
    = Some rgba) as [rgba HC3].
  { revert Hcolor. destruct (kw_mapcolor kw) as [c|]; cbn [default];
      intros Hcolor.
    - destruct Hcolor as [Hc|Hc].
      + destruct c; [|done]. by eexists.
      + eexists. apply broadcast_exact. rewrite length_take, length_app.
        cbn [length]. unfold id. lia.
    - exists currentColor. by apply is_rgba_stored. }
  destruct (texture_faces_ok _ Htex) as (texture & HT1 & HT2).
  destruct (lookup_lt_is_Some_2 (blockTextures m) i) as [texRow HX1]; [lia|].
  pose proof (Forall_lookup_1 _ _ _ _ Wxr HX1) as HXlen; cbv beta in HXlen.
  destruct (lookup_lt_is_Some_2 (type m) i) as [typeRef HY1]; [lia|].
  pose proof (Forall_lookup_1 _ _ _ _ Wtr HY1) as HYref; cbv beta in HYref.
  destruct (lookup_lt_is_Some_2 (typeRows m) typeRef) as [typeRow HY2]; [lia|].
  pose proof (Forall_lookup_1 _ _ _ _ Wtrows HY2) as HYlen; cbv beta in HYlen.
  destruct (lookup_lt_is_Some_2 typeRow d) as [currentType HY3]; [lia|].
  unfold addBlock.
  rewrite HN1; cbn [mbind option_bind]. rewrite HN2; cbn [mbind option_bind].
  rewrite HL1; cbn [mbind option_bind]. rewrite HL2; cbn [mbind option_bind].
  rewrite HA1; cbn [mbind option_bind]. rewrite HA2; cbn [mbind option_bind].
  rewrite HC1; cbn [mbind option_bind]. rewrite HC2; cbn [mbind option_bind].
  rewrite HC3; cbn [mbind option_bind].
  rewrite (assign_variants_Some _ _ _ _ _ HC1) by lia; cbn [mbind option_bind].
  rewrite HT1; cbn [mbind option_bind].
  destruct texture as [faces|].
  - rewrite (assign_variants_Some _ _ _ _ _ HX1) by lia; cbn [mbind option_bind].
    rewrite HY1; cbn [mbind option_bind]. rewrite HY2; cbn [mbind option_bind].
    rewrite HY3; cbn [mbind option_bind]. by eexists _, _.
  - cbn [mbind option_bind].
    rewrite HY1; cbn [mbind option_bind]. rewrite HY2; cbn [mbind option_bind].
    rewrite HY3; cbn [mbind option_bind]. by eexists _, _.
Qed.

Lemma kw_ok_Air : kw_ok Air_kw.
Proof. by split. Qed.

Lemma kw_ok_named (name : string) : kw_ok (kw_named name).
Proof. by split. Qed.

Lemma MCMaterials_init_Some (dn : string) :
  ∃ m, MCMaterials_init dn = Some m ∧ wf m.
Proof.
  destruct (addBlock_Some (MCMaterials_alloc dn) 0 0 Air_kw) as (m & b & H).
  - apply wf_alloc.
  - unfold id_limit. lia.
  - lia.
  - apply kw_ok_Air.
  - exists m. unfold MCMaterials_init. rewrite H. split; [done|].
    eapply addBlock_wf; [apply wf_alloc|done].
Qed.

Lemma run_ops_wf (ops : list Op) :
  ∀ m m', wf m → run_ops m ops = Some m' → wf m'.
Proof.
  induction ops as [|[i d kw|name] ops IH]; intros m m' Hwf H; simpl in H.
  - by injection H as <-.
  - destruct (addBlock m i d kw) as [[m1 b]|] eqn:E; [|discriminate].
    simpl in H. eapply IH; [|done]. by eapply addBlock_wf.
  - eapply IH; [|done]. by apply set_name_wf.
Qed.

(** A registry state is its allocation followed by its history. *)
Lemma build_history (dn : string) (ops : list Op) :
  build dn ops = run_ops (MCMaterials_alloc dn) (history ops).
Proof.
  unfold build, MCMaterials_init, history. cbn [run_ops].
  by destruct (addBlock (MCMaterials_alloc dn) 0 0 Air_kw) as [[m b]|].
Qed.

Lemma build_wf (dn : string) (ops : list Op) (m : MCMaterials) :
  build dn ops = Some m → wf m.
Proof.
  rewrite build_history. apply run_ops_wf, wf_alloc.
Qed.

(** ** Resolution by identifier *)

Lemma blockWithID_key (m : MCMaterials) (p v : nat) :
  wf m → Block_key (blockWithID m p v) = (p, v).
Proof.
  intros Hwf. unfold blockWithID.
  destruct (blocksByID m !! (p, v)) as [b|] eqn:E; [|done].
  by apply (wf_blocksByID _ Hwf).
Qed.

Lemma blockWithID_ID (m : MCMaterials) (p v : nat) :
  wf m → ID (blockWithID m p v) = p ∧ blockData (blockWithID m p v) = v.
Proof.
  intros Hwf. pose proof (blockWithID_key m p v Hwf) as H.
  unfold Block_key in H. by injection H.
Qed.

(** In a well-shaped registry every attribute of an in-range identifier
    resolves. *)
Lemma resolve_in_range (m : MCMaterials) (b : Block) :
  wf m → ID b < id_limit → blockData b < 16 →
  is_Some (Block_name m b) ∧ is_Some (Block_aka m b)
  ∧ is_Some (Block_type m b) ∧ is_Some (Block_color m b)
  ∧ is_Some (Block_brightness m b) ∧ is_Some (Block_opacity m b)
  ∧ is_Some (Block_blockTextures m b).
Proof.
  intros [Wn Wnr Wa War Wt Wtr Wtrows WlE WlA Wc Wcr Wx Wxr Wall Wby] Hi Hd.
  unfold Block_name, Block_aka, Block_type, Block_color, Block_brightness,
    Block_opacity, Block_blockTextures, color, brightness, opacity.
  destruct (lookup_lt_is_Some_2 (names m) (ID b)) as [r1 H1]; [lia|].
  destruct (lookup_lt_is_Some_2 (aka m) (ID b)) as [r2 H2]; [lia|].
  destruct (lookup_lt_is_Some_2 (type m) (ID b)) as [r3 H3]; [lia|].
  destruct (lookup_lt_is_Some_2 (flatColors m) (ID b)) as [r4 H4]; [lia|].
  pose proof (row_length _ _ _ _ Wnr H1) as L1.
  pose proof (row_length _ _ _ _ War H2) as L2.
  pose proof (Forall_lookup_1 _ _ _ _ Wtr H3) as L3; cbv beta in L3.
  destruct (lookup_lt_is_Some_2 (typeRows m) r3 L3) as [r5 H5].
  pose proof (row_length _ _ _ _ Wtrows H5) as L5.
  destruct (Forall_lookup_1 _ _ _ _ Wcr H4) as [L4 _].
  rewrite H1, H2, H3, H4. cbn [mbind option_bind]. rewrite H5.
  cbn [mbind option_bind].
  repeat split; apply lookup_lt_is_Some_2; lia.
Qed.

Lemma run_ops_Some (ops : list Op) :
  ∀ m, wf m → Forall op_ok ops → ∃ m', run_ops m ops = Some m'.
Proof.
  induction ops as [|[i d kw|name] ops IH]; intros m Hwf Hok.
  - by exists m.
  - apply Forall_cons in Hok as [(Hi & Hd & Hkw) Hok].
    destruct (addBlock_Some m i d kw Hwf Hi Hd Hkw) as (m1 & b & H).
    cbn [run_ops]. rewrite H. cbn [mbind option_bind fst].
    apply IH; [|done]. by eapply addBlock_wf.
  - apply Forall_cons in Hok as [_ Hok]. cbn [run_ops].
    apply IH; [|done]. by apply set_name_wf.
Qed.

(** Every history of accepted operations builds a registry. *)
Lemma build_Some (dn : string) (ops : list Op) :
  Forall op_ok ops → ∃ m, build dn ops = Some m.
Proof.
  intros Hok. destruct (MCMaterials_init_Some dn) as (m0 & H0 & Hwf).
  unfold build. rewrite H0. cbn [mbind option_bind]. by apply run_ops_Some.
Qed.

(** ** Definitions with omitted fields *)

(** C3 (amended): for every registry state and every [addBlock] call that
    returns, an omitted [name], [mapcolor] or [texture] leaves the value
    stored for the targeted identifier as it was, while an omitted
    [brightness], [opacity], [aka] or [type] stores the default of that
    field (0, 15, the empty string, "NORMAL") for it. *)
Theorem addBlock_omitted_fields :
  ∀ (dn : string) (ops : list Op) (m : MCMaterials) (blockID blockData : nat)
    (kw : BlockKw) (m' : MCMaterials) (b : Block),
    build dn ops = Some m →
    addBlock m blockID blockData kw = Some (m', b) →
    Block_key b = (blockID, blockData)
    ∧ (kw_name kw = None → Block_name m' b = Block_name m b)
    ∧ (kw_mapcolor kw = None → Block_color m' b = Block_color m b)
    ∧ (kw_texture kw = None →
       Block_blockTextures m' b = Block_blockTextures m b)
    ∧ (kw_brightness kw = None → Block_brightness m' b = Some 0%Z)
    ∧ (kw_opacity kw = None → Block_opacity m' b = Some 15%Z)
    ∧ (kw_aka kw = None → Block_aka m' b = Some EmptyString)
    ∧ (kw_type kw = None → Block_type m' b = Some "NORMAL"%string).
Proof.
  intros dn ops m i d kw m' b Hm H.
  pose proof (build_wf _ _ _ Hm) as Hwf.
  destruct (addBlock_inv _ _ _ _ _ _ H) as
    (namesRow & currentName & akaRow & colorRow & currentColor & rgba & texture
     & typeRef & typeRow & [HN1 HN2] & [HL1 HL2] & [HA1 HA2]
     & (HC1 & HC2 & HC3 & HC4) & [HT1 HT2] & (HY1 & HY2 & HY3)
     & Hnames & Htype & HtypeRows & Haka & HlE & HlA & Hall & HbyID & Hb & _).
  pose proof (lookup_lt_Some _ _ _ HN1) as Hi.
  pose proof (lookup_lt_Some _ _ _ HN2) as Hd.
  subst b. cbn [Block_key ID blockData].
  unfold Block_name, Block_color, Block_blockTextures, Block_brightness,
    Block_opacity, Block_aka, Block_type, color, brightness, opacity.
  cbn [ID blockData].
  split; [done|]. split; [|split; [|split; [|split; [|split; [|split]]]]].
  - intros Hkw. rewrite Hnames, Hkw, HN1. cbn [default mbind option_bind].
    rewrite HN2. destruct (d =? 0)%nat eqn:E.
    + apply Nat.eqb_eq in E as ->. rewrite list_lookup_insert_eq by done.
      cbn [mbind option_bind]. apply lookup_replicate_2. lia.
    + rewrite list_lookup_insert_eq by done. cbn [mbind option_bind].
      by apply list_lookup_insert_eq.
  - intros Hkw. rewrite Hkw in HC3. cbn [default] in HC3.
    destruct (Forall_lookup_1 _ _ _ _ (wf_flatColors_rows _ Hwf) HC1)
      as [Hlen Hrow].
    pose proof (Forall_lookup_1 _ _ _ _ Hrow HC2) as Hrgba.
    destruct (is_rgba_stored _ Hrgba) as [Hb Hu].
    rewrite Hb in HC3. injection HC3 as <-. rewrite Hu in HC4.
    apply assign_variants_inv in HC4 as (row & Hrow' & ->).
    rewrite HC1 in Hrow'. injection Hrow' as <-.
    rewrite list_lookup_insert_eq by by eapply lookup_lt_Some.
    rewrite HC1. cbn [mbind option_bind]. rewrite HC2.
    apply assigned_row_lookup. by eapply lookup_lt_Some.
  - intros Hkw. rewrite Hkw in HT1. injection HT1 as <-.
    by injection HT2 as <-.
  - intros Hkw. rewrite HlE, Hkw. by apply list_lookup_insert_eq.
  - intros Hkw. rewrite HlA, Hkw. by apply list_lookup_insert_eq.
  - intros Hkw. rewrite Haka, Hkw.
    rewrite list_lookup_insert_eq by by eapply lookup_lt_Some.
    cbn [mbind option_bind]. by apply list_lookup_insert_eq.
  - intros Hkw. rewrite Htype, HtypeRows, Hkw. cbn [default].
    destruct (d =? 0)%nat eqn:E.
    + apply Nat.eqb_eq in E as ->.
      rewrite list_lookup_insert_eq by by eapply lookup_lt_Some.
      cbn [mbind option_bind]. rewrite lookup_app_r by done.
      by rewrite Nat.sub_diag.
    + rewrite HY1. cbn [mbind option_bind].
      rewrite list_lookup_insert_eq by by eapply lookup_lt_Some.
      cbn [mbind option_bind]. by apply list_lookup_insert_eq.
Qed.

Lemma op_ok_named (blockID blockData : nat) (name : string) :
  blockID < id_limit → blockData < 16 →
  op_ok (OpAddBlock blockID blockData (kw_named name)).
Proof. intros Hi Hd. repeat split; done. Qed.

Lemma kw_ok_stone : kw_ok stone_kw.
Proof. split; [right; simpl; lia|done]. Qed.

Lemma kw_ok_empty : kw_ok kw_empty.
Proof. by split. Qed.

Lemma id_limit_gt (n : nat) : n < 4096 → n < id_limit.
Proof. done. Qed.

(** C3 (amended), on a sample: Stone is defined with every field, then
    defined again with no keyword at all. *)
Lemma addBlock_omitted_fields_witness :
  ∃ m m' b,
    build "Unused Block" [OpAddBlock 1 0 stone_kw] = Some m
    ∧ addBlock m 1 0 kw_empty = Some (m', b)
    ∧ Block_key b = (1, 0)
    ∧ Block_name m' b = Block_name m b
    ∧ Block_color m' b = Block_color m b
    ∧ Block_blockTextures m' b = Block_blockTextures m b
    ∧ Block_brightness m' b = Some 0%Z
    ∧ Block_opacity m' b = Some 15%Z
    ∧ Block_aka m' b = Some EmptyString
    ∧ Block_type m' b = Some "NORMAL"%string.
Proof.
  destruct (build_Some "Unused Block" [OpAddBlock 1 0 stone_kw]) as [m Hm].
  { apply Forall_cons. split; [|constructor].
    split; [apply id_limit_gt; lia|]. split; [lia|apply kw_ok_stone]. }
  destruct (addBlock_Some m 1 0 kw_empty) as (m' & b & H).
  { by eapply build_wf. }
  { apply id_limit_gt; lia. }
  { lia. }
  { apply kw_ok_empty. }
  exists m, m', b.
  destruct (addBlock_omitted_fields _ _ _ _ _ _ _ _ Hm H)
    as (Hkey & Hname & Hcolor & Htex & Hbright & Hopac & Haka & Htype).
  repeat split; auto.
Defined.

(** C3 (counterexample): Stone is defined with brightness 7, opacity 3,
    alias "Rock" and category "SIMPLE"; a second definition of the same
    identifier that gives only the name leaves none of the four at its
    current value. *)
Lemma addBlock_omitted_fields_counterexample :
  (m ← build "Unused Block" [OpAddBlock 1 0 stone_kw];
   r ← addBlock m 1 0 (kw_named "Stone");
   Some ((Block_brightness m r.2, Block_opacity m r.2,
          Block_aka m r.2, Block_type m r.2),
         (Block_brightness r.1 r.2, Block_opacity r.1 r.2,
          Block_aka r.1 r.2, Block_type r.1 r.2)))
  = Some ((Some 7%Z, Some 3%Z, Some "Rock"%string, Some "SIMPLE"%string),
          (Some 0%Z, Some 15%Z, Some EmptyString, Some "NORMAL"%string)).
Proof. vm_compute. reflexivity. Qed.

(** ** Family defaults and variant overrides *)

(** C5: in every registry state and for every ID in range,
    [addBlock(id, 0, name=X)] followed by [addBlock(id, 3, name=Y)] both
    return, and afterwards the name of variant 3 resolves to [Y] and the
    name of each of the other fifteen variants to [X]. *)
Theorem addBlock_family_then_variant :
  ∀ (dn : string) (ops : list Op) (m : MCMaterials) (id : nat) (X Y : string),
    build dn ops = Some m → id < id_limit →
    ∃ m1 b1 m2 b2,
      addBlock m id 0 (kw_named X) = Some (m1, b1)
      ∧ addBlock m1 id 3 (kw_named Y) = Some (m2, b2)
      ∧ Block_name m2 (blockWithID m2 id 3) = Some Y
      ∧ ∀ v, v < 16 → v ≠ 3 → Block_name m2 (blockWithID m2 id v) = Some X.
Proof.
  intros dn ops m id X Y Hm Hid.
  pose proof (build_wf _ _ _ Hm) as Hwf.
  destruct (addBlock_Some m id 0 (kw_named X) Hwf Hid) as (m1 & b1 & H1);
    [lia|apply kw_ok_named|].
  pose proof (addBlock_wf _ _ _ _ _ _ Hwf H1) as Hwf1.
  destruct (addBlock_Some m1 id 3 (kw_named Y) Hwf1 Hid) as (m2 & b2 & H2);
    [lia|apply kw_ok_named|].
  pose proof (addBlock_wf _ _ _ _ _ _ Hwf1 H2) as Hwf2.
  exists m1, b1, m2, b2. split; [done|]. split; [done|].
  assert (Hrow : names m2 !! id = Some (<[3 := Y]> (replicate 16 X))).
  { destruct (addBlock_inv _ _ _ _ _ _ H1) as
      (namesRow & currentName & _ & _ & _ & _ & _ & _ & _ & [HN1 _] & _ & _
       & _ & _ & _ & Hnames1 & _).
    destruct (addBlock_inv _ _ _ _ _ _ H2) as
      (namesRow' & currentName' & _ & _ & _ & _ & _ & _ & _ & [HN1' _] & _ & _
       & _ & _ & _ & Hnames2 & _).
    cbn [Nat.eqb kw_named kw_name default] in Hnames1, Hnames2.
    pose proof (lookup_lt_Some _ _ _ HN1) as Hlt.
    rewrite Hnames1, list_lookup_insert_eq in HN1' by done.
    injection HN1' as <-. rewrite Hnames2.
    apply list_lookup_insert_eq. by rewrite Hnames1, length_insert. }
  assert (Hres : ∀ v, Block_name m2 (blockWithID m2 id v)
                      = <[3 := Y]> (replicate 16 X) !! v).
  { intros v. destruct (blockWithID_ID m2 id v Hwf2) as [HID Hdata].
    unfold Block_name. rewrite HID, Hdata, Hrow. done. }
  split.
  - rewrite Hres. apply list_lookup_insert_eq. rewrite length_replicate. lia.
  - intros v Hv Hne. rewrite Hres, list_lookup_insert_ne by done.
    by apply lookup_replicate_2.
Qed.

(** C5, on a sample: Wool (35) in a registry that holds only Air. *)
Lemma addBlock_family_then_variant_witness :
  ∃ m m1 b1 m2 b2,
    build "Unused Block" [] = Some m
    ∧ addBlock m 35 0 (kw_named "Wool") = Some (m1, b1)
    ∧ addBlock m1 35 3 (kw_named "Light Blue Wool") = Some (m2, b2)
    ∧ Block_name m2 (blockWithID m2 35 3) = Some "Light Blue Wool"%string
    ∧ Block_name m2 (blockWithID m2 35 0) = Some "Wool"%string
    ∧ Block_name m2 (blockWithID m2 35 15) = Some "Wool"%string.
Proof.
  destruct (build_Some "Unused Block" []) as [m Hm]; [constructor|].
  destruct (addBlock_family_then_variant "Unused Block" [] m 35
              "Wool" "Light Blue Wool" Hm)
    as (m1 & b1 & m2 & b2 & H1 & H2 & H3 & Hv).
  { apply id_limit_gt; lia. }
  exists m, m1, b1, m2, b2. repeat split; try done.
  - apply Hv; lia.
  - apply Hv; lia.
Defined.

(** ** Identifiers that were never defined *)

Lemma same_tables_at_refl p m : same_tables_at p m m.
Proof. by repeat split. Qed.

Lemma same_tables_at_trans p m1 m2 m3 :
  same_tables_at p m1 m2 → same_tables_at p m2 m3 → same_tables_at p m1 m3.
Proof.
  intros (A1 & A2 & A3 & A4 & A5 & A6) (B1 & B2 & B3 & B4 & B5 & B6).
  repeat split; congruence.
Qed.

(** A definition of another ID leaves the rows of ID [p] alone. *)
Lemma addBlock_other_ID m i d kw m' b p :
  addBlock m i d kw = Some (m', b) → p ≠ i → same_tables_at p m m'.
Proof.
  intros H Hne.
  destruct (addBlock_inv _ _ _ _ _ _ H) as
    (namesRow & currentName & akaRow & colorRow & currentColor & rgba & texture
     & typeRef & typeRow & [HN1 HN2] & [HL1 HL2] & [HA1 HA2]
     & (HC1 & HC2 & HC3 & HC4) & [HT1 HT2] & (HY1 & HY2 & HY3)
     & Hnames & Htype & HtypeRows & Haka & HlE & HlA & Hall & HbyID & Hb & _).
  repeat split.
  - rewrite Hnames. destruct (d =? 0)%nat; by apply list_lookup_insert_ne.
  - rewrite Haka. by apply list_lookup_insert_ne.
  - rewrite HlE. by apply list_lookup_insert_ne.
  - rewrite HlA. by apply list_lookup_insert_ne.
  - by eapply assign_variants_lookup_ne.
  - destruct texture as [faces|].
    + by eapply assign_variants_lookup_ne.
    + by injection HT2 as <-.
Qed.

Lemma run_ops_other_ID (ops : list Op) (p : nat) :
  ∀ m m', run_ops m ops = Some m' →
          Forall (λ op, op_blockID op ≠ Some p) ops →
          same_tables_at p m m'.
Proof.
  induction ops as [|[i d kw|name] ops IH]; intros m m' H Hops; simpl in H.
  - injection H as <-. apply same_tables_at_refl.
  - apply Forall_cons in Hops as [Hop Hops].
    destruct (addBlock m i d kw) as [[m1 b]|] eqn:E; [|discriminate].
    simpl in H. eapply same_tables_at_trans; [|by eapply IH].
    eapply addBlock_other_ID; [done|]. simpl in Hop. congruence.
  - apply Forall_cons in Hops as [_ Hops].
    eapply same_tables_at_trans; [|by eapply IH]. by repeat split.
Qed.

(** C7 (counterexample): after the constructor, one call defines (7, 3)
    with light emission 9; no call ever targeted the identifier (7, 0),
    yet its light emission resolves to 9 and not to the default 0.  In the
    same way one call that defines (7, 0) with the name "Planks" makes the
    name of (7, 5), which no call targeted, resolve to "Planks". *)
Lemma blockWithID_resolves_counterexample :
  (m ← build "Unused Block" [OpAddBlock 7 3 glow_kw];
   Block_brightness m (blockWithID m 7 0)) = Some 9%Z
  ∧ (m ← build "Unused Block" [OpAddBlock 7 0 (kw_named "Planks")];
     Block_name m (blockWithID m 7 5)) = Some "Planks"%string.
Proof. split; vm_compute; reflexivity. Qed.

(** ** The shared category row *)

(** The constructor leaves every entry of [type] but the one of ID 0 at
    the address of the row it allocated first. *)
Lemma MCMaterials_init_type (dn : string) (m0 : MCMaterials) :
  MCMaterials_init dn = Some m0 →
  type m0 !! 0 = Some 1
  ∧ ∀ r, 0 < r → r < id_limit → type m0 !! r = Some 0.
Proof.
  unfold MCMaterials_init. intros H.
  destruct (addBlock (MCMaterials_alloc dn) 0 0 Air_kw) as [[m b]|] eqn:E;
    [|discriminate].
  injection H as <-.
  destruct (addBlock_inv _ _ _ _ _ _ E) as
    (namesRow & currentName & akaRow & colorRow & currentColor & rgba & texture
     & typeRef & typeRow & [HN1 HN2] & [HL1 HL2] & [HA1 HA2]
     & (HC1 & HC2 & HC3 & HC4) & [HT1 HT2] & (HY1 & HY2 & HY3)
     & Hnames & Htype & HtypeRows & Haka & HlE & HlA & Hall & HbyID & Hb & _).
  rewrite Htype. cbn [Nat.eqb MCMaterials_alloc type typeRows length]. split.
  - apply list_lookup_insert_eq. rewrite length_replicate. unfold id_limit. lia.
  - intros r Hr Hlt. rewrite list_lookup_insert_ne by lia.
    by apply lookup_replicate_2.
Qed.

(** An ID keeps the address of the first row as long as no call defines
    its data 0. *)
Lemma run_ops_shared_row (ops : list Op) (q : nat) :
  ∀ m m', run_ops m ops = Some m' →
          type m !! q = Some 0 → 0 < length (typeRows m) →
          Forall (λ op, op_is_default_of q op = false) ops →
          type m' !! q = Some 0.
Proof.
  induction ops as [|[i d kw|name] ops IH]; intros m m' H Hq Hlen Hops;
    simpl in H.
  - by injection H as <-.
  - apply Forall_cons in Hops as [Hop Hops].
    destruct (addBlock m i d kw) as [[m1 b]|] eqn:E; [|discriminate].
    simpl in H.
    destruct (addBlock_inv _ _ _ _ _ _ E) as
      (namesRow & currentName & akaRow & colorRow & currentColor & rgba & texture
     & typeRef & typeRow & [HN1 HN2] & [HL1 HL2] & [HA1 HA2]
     & (HC1 & HC2 & HC3 & HC4) & [HT1 HT2] & (HY1 & HY2 & HY3)
     & Hnames & Htype & HtypeRows & Haka & HlE & HlA & Hall & HbyID & Hb & _).
    apply (IH _ _ H); [| |done].
    + rewrite Htype. destruct d as [|d]; cbn [Nat.eqb]; [|done].
      simpl in Hop. apply bool_decide_eq_false in Hop.
      by rewrite list_lookup_insert_ne.
    + rewrite HtypeRows. destruct (d =? 0)%nat.
      * rewrite length_app. lia.
      * by rewrite length_insert.
  - apply Forall_cons in Hops as [_ Hops]. by apply (IH _ _ H).
Qed.

Lemma build_shared_row (dn : string) (ops : list Op) (m : MCMaterials) (q : nat) :
  build dn ops = Some m → q < id_limit → no_default_definition q ops →
  type m !! q = Some 0.
Proof.
  rewrite build_history. intros Hm Hq Hops.
  apply (run_ops_shared_row _ q _ _ Hm); [|simpl; lia|done].
  by apply lookup_replicate_2.
Qed.

(** C10 (amended): in a freshly constructed registry the entries of [type]
    for the IDs 1 to 4095 refer to one shared row, while the entry of ID 0
    refers to the row that the constructor's definition of Air put in its
    place.  In every registry state, an [addBlock] call with a data other
    than 0 on an ID that never received a definition of its data 0 writes
    the category into the shared row: afterwards the category of that data
    resolves to the written one for every ID that still refers to the
    shared row. *)
Theorem addBlock_writes_shared_type_row :
  ∀ (dn : string) (ops : list Op) (m : MCMaterials) (p d : nat) (kw : BlockKw)
    (m' : MCMaterials) (b : Block) (q : nat),
    build dn ops = Some m →
    no_default_definition p ops → d ≠ 0 →
    addBlock m p d kw = Some (m', b) →
    q < id_limit → no_default_definition q ops →
    (∃ m0, MCMaterials_init dn = Some m0
           ∧ type m0 !! 0 = Some 1
           ∧ ∀ r, 0 < r → r < id_limit → type m0 !! r = Some 0)
    ∧ type m !! p = Some 0
    ∧ type m !! q = Some 0
    ∧ type m' !! q = Some 0
    ∧ Block_type m' (blockWithID m' q d)
      = Some (default "NORMAL"%string (kw_type kw)).
Proof.
  intros dn ops m p d kw m' b q Hm Hp Hd H Hq Hqops.
  pose proof (build_wf _ _ _ Hm) as Hwf.
  pose proof (addBlock_wf _ _ _ _ _ _ Hwf H) as Hwf'.
  destruct (addBlock_inv _ _ _ _ _ _ H) as
    (namesRow & currentName & akaRow & colorRow & currentColor & rgba & texture
     & typeRef & typeRow & [HN1 HN2] & [HL1 HL2] & [HA1 HA2]
     & (HC1 & HC2 & HC3 & HC4) & [HT1 HT2] & (HY1 & HY2 & HY3)
     & Hnames & Htype & HtypeRows & Haka & HlE & HlA & Hall & HbyID & Hb & _).
  assert (Hplt : p < id_limit).
  { rewrite <- (wf_names_len _ Hwf). by eapply lookup_lt_Some. }
  pose proof (build_shared_row _ _ _ _ Hm Hplt Hp) as Hprow.
  pose proof (build_shared_row _ _ _ _ Hm Hq Hqops) as Hqrow.
  rewrite Hprow in HY1. injection HY1 as <-.
  apply Nat.eqb_neq in Hd. rewrite Hd in Htype, HtypeRows.
  split; [|split; [done|split; [done|split]]].
  - destruct (MCMaterials_init_Some dn) as (m0 & H0 & _).
    exists m0. split; [done|]. by apply (MCMaterials_init_type dn).
  - by rewrite Htype.
  - destruct (blockWithID_ID m' q d Hwf') as [HID Hdata].
    unfold Block_type. rewrite HID, Hdata, Htype, Hqrow, HtypeRows.
    cbn [mbind option_bind].
    rewrite list_lookup_insert_eq by by eapply lookup_lt_Some.
    cbn [mbind option_bind]. by apply list_lookup_insert_eq.
Qed.

(** C10 (amended), on a sample: a category written for (5, 3) in a fresh
    registry is read back for (6, 3). *)
Lemma addBlock_writes_shared_type_row_witness :
  ∃ m m' b,
    build "Unused Block" [] = Some m
    ∧ addBlock m 5 3 stairs_kw = Some (m', b)
    ∧ type m !! 5 = Some 0
    ∧ type m !! 6 = Some 0
    ∧ type m' !! 6 = Some 0
    ∧ Block_type m' (blockWithID m' 6 3) = Some "STAIRS"%string.
Proof.
  destruct (build_Some "Unused Block" []) as [m Hm]; [constructor|].
  destruct (addBlock_Some m 5 3 stairs_kw) as (m' & b & H).
  { by eapply build_wf. }
  { apply id_limit_gt; lia. }
  { lia. }
  { by split. }
  destruct (addBlock_writes_shared_type_row _ _ m 5 3 stairs_kw m' b 6 Hm)
    as (_ & H1 & H2 & H3 & H4).
  { repeat constructor. }
  { lia. }
  { done. }
  { apply id_limit_gt; lia. }
  { repeat constructor. }
  exists m, m', b. repeat split; done.
Defined.

(** C10 (counterexample): in a freshly constructed registry the entry of
    [type] for ID 0 is the address of another row than the entry for ID 1,
    and after [addBlock(1, 3, type="STAIRS")] the category of (0, 3) is
    still "NORMAL" while the category of (2, 3) is "STAIRS". *)
Lemma addBlock_writes_shared_type_row_counterexample :
  (m ← MCMaterials_init "Unused Block";
   r ← addBlock m 1 3 stairs_kw;
   Some (type m !! 0, type m !! 1,
         Block_type r.1 (blockWithID r.1 0 3),
         Block_type r.1 (blockWithID r.1 2 3)))
  = Some (Some 1, Some 0, Some "NORMAL"%string, Some "STAIRS"%string).
Proof. vm_compute. reflexivity. Qed.

(** ** Partial-name lookup *)

(** On a registry whose known blocks all resolve, the loop of
    [blocksMatching] returns, and it returns the accumulated blocks
    followed by the blocks that pass the test. *)
Lemma blocksMatching_loop_spec (m : MCMaterials) (spiltNames : list string)
    (blocks : list Block) :
  wf m → Forall (λ b, ID b < id_limit ∧ blockData b < 16) blocks →
  ∀ toReturn, ∃ r,
    blocksMatching_loop m spiltNames blocks toReturn = Some r
    ∧ ∀ v, v ∈ r ↔
           v ∈ toReturn
           ∨ (v ∈ blocks
              ∧ ∃ n a, Block_name m v = Some n ∧ Block_aka m v = Some a
                       ∧ block_matches spiltNames n a = true).
Proof.
  intros Hwf Hblocks. induction Hblocks as [|b blocks [Hi Hd] _ IH];
    intros toReturn.
  - exists toReturn. split; [done|]. intros v. split; [by left|].
    intros [H|[H _]]; [done|]. by apply elem_of_nil in H.
  - destruct (resolve_in_range m b Hwf Hi Hd) as ([n Hn] & [a Ha] & _).
    cbn [blocksMatching_loop]. rewrite Hn, Ha. cbn [mbind option_bind].
    destruct (IH (if block_matches spiltNames n a then toReturn ++ [b]
                  else toReturn)) as (r & Hr & Hiff).
    exists r. split; [done|]. intros v. rewrite Hiff. clear Hiff Hr.
    destruct (block_matches spiltNames n a) eqn:E.
    + rewrite elem_of_app, list_elem_of_singleton, elem_of_cons. split.
      * intros [[H| ->]|[H Hex]]; [by left| |right; by split; [right|]].
        right. split; [by left|]. by exists n, a.
      * intros [H|[[->|H] Hex]]; [by left; left|by left; right|].
        right. by split.
    + rewrite elem_of_cons. split.
      * intros [H|[H Hex]]; [by left|right; by split; [right|]].
      * intros [H|[[->|H] Hex]]; [by left| |right; by split].
        destruct Hex as (n' & a' & Hn' & Ha' & Hmatch). congruence.
Qed.

(** ** The order of blocks and [sorted(..., reverse=True)] *)

Lemma Block_cmp_Gt (a b : Block) :
  Block_cmp a b = Gt → Block_ge a b.
Proof.
  unfold Block_cmp, Block_ge, key_le, Block_key. simpl.
  destruct (Nat.compare_spec (ID a) (ID b)); [|done|lia].
  destruct (Nat.compare_spec (blockData a) (blockData b)); [done|done|lia].
Qed.

Lemma Block_cmp_not_Gt (a b : Block) :
  Block_cmp a b ≠ Gt → Block_ge b a.
Proof.
  unfold Block_cmp, Block_ge, key_le, Block_key. simpl.
  destruct (Nat.compare_spec (ID a) (ID b)); [|lia|done].
  destruct (Nat.compare_spec (blockData a) (blockData b)); [lia|lia|done].
Qed.

Global Instance Block_ge_trans : Transitive Block_ge.
Proof. intros a b c. unfold Block_ge, key_le. simpl. lia. Qed.

Lemma insert_sorted_perm (b : Block) (l : list Block) :
  insert_sorted b l ≡ₚ b :: l.
Proof.
  induction l as [|x l IH]; [done|]. simpl.
  destruct (Block_cmp x b); [done|done|].
  rewrite IH. apply Permutation_swap.
Qed.

Lemma insert_sorted_sorted (b : Block) (l : list Block) :
  StronglySorted Block_ge l → StronglySorted Block_ge (insert_sorted b l).
Proof.
  induction l as [|x l IH]; intros Hl.
  - by repeat constructor.
  - apply StronglySorted_cons in Hl as [Hx Hl]. simpl.
    destruct (Block_cmp x b) eqn:E.
    + assert (Block_ge b x) as Hbx by (apply Block_cmp_not_Gt; congruence).
      apply StronglySorted_cons. split; [|by apply StronglySorted_cons].
      constructor; [done|]. eapply Forall_impl; [done|].
      intros y Hy. by transitivity x.
    + assert (Block_ge b x) as Hbx by (apply Block_cmp_not_Gt; congruence).
      apply StronglySorted_cons. split; [|by apply StronglySorted_cons].
      constructor; [done|]. eapply Forall_impl; [done|].
      intros y Hy. by transitivity x.
    + apply StronglySorted_cons. split; [|by apply IH].
      rewrite insert_sorted_perm. constructor; [|done].
      by apply Block_cmp_Gt.
Qed.

Lemma sorted_reverse_perm (l : list Block) : sorted_reverse l ≡ₚ l.
Proof.
  induction l as [|b l IH]; [done|]. unfold sorted_reverse. simpl.
  rewrite insert_sorted_perm. by f_equiv.
Qed.

Lemma sorted_reverse_sorted (l : list Block) :
  StronglySorted Block_ge (sorted_reverse l).
Proof.
  induction l as [|b l IH]; [constructor|].
  by apply insert_sorted_sorted.
Qed.

(** ** The name dictionary *)

(** After the pairs of [blocks] are inserted, a name maps to the last
    block of that name in [blocks], or to what it mapped to before. *)
Lemma dict_by_name_lookup (m : MCMaterials) (blocks : list Block) :
  ∀ (d d' : gmap string Block) (n : string),
    dict_by_name m blocks d = Some d' →
    (∃ l1 b l2, blocks = l1 ++ b :: l2
                ∧ Block_name m b = Some n
                ∧ Forall (λ b', Block_name m b' ≠ Some n) l2
                ∧ d' !! n = Some b)
    ∨ (Forall (λ b', Block_name m b' ≠ Some n) blocks ∧ d' !! n = d !! n).
Proof.
  induction blocks as [|b blocks IH]; intros d d' n H; simpl in H.
  - injection H as <-. by right.
  - destruct (Block_name m b) as [nb|] eqn:Hnb; [|discriminate].
    simpl in H. destruct (IH _ _ n H) as
      [(l1 & b0 & l2 & -> & Hb0 & Hl2 & Hd')|[Hnone Hd']].
    + left. by exists (b :: l1), b0, l2.
    + destruct (decide (nb = n)) as [->|Hne].
      * left. exists [], b, blocks. rewrite lookup_insert_eq in Hd'. done.
      * right. rewrite lookup_insert_ne in Hd' by done. split; [|done].
        constructor; [congruence|done].
Qed.

Lemma dict_by_name_Some (m : MCMaterials) (blocks : list Block) :
  wf m → Forall (λ b, ID b < id_limit ∧ blockData b < 16) blocks →
  ∀ d, ∃ d', dict_by_name m blocks d = Some d'.
Proof.
  intros Hwf Hblocks. induction Hblocks as [|b blocks [Hi Hd] _ IH]; intros d.
  - by exists d.
  - destruct (resolve_in_range m b Hwf Hi Hd) as ([n Hn] & _).
    simpl. rewrite Hn. simpl. apply IH.
Qed.

(** [toByName] returns, and a name maps to the known block of that name
    whose identifier is the smallest, or to nothing when no known block
    has the name. *)
Lemma toByName_spec (m : MCMaterials) :
  wf m →
  ∃ byName,
    toByName m = Some byName
    ∧ ∀ n,
        (byName !! n = None
         ∧ Forall (λ b, Block_name m b ≠ Some n) (allBlocks m))
        ∨ (∃ b0, byName !! n = Some b0
                 ∧ b0 ∈ allBlocks m
                 ∧ Block_name m b0 = Some n
                 ∧ ∀ b', b' ∈ allBlocks m → Block_name m b' = Some n →
                         key_le (Block_key b0) (Block_key b')).
Proof.
  intros Hwf. unfold toByName.
  pose proof (sorted_reverse_perm (allBlocks m)) as Hperm.
  pose proof (sorted_reverse_sorted (allBlocks m)) as Hsorted.
  destruct (dict_by_name_Some m (sorted_reverse (allBlocks m)) Hwf) with (d := (∅ : gmap string Block))
    as [byName HbyName].
  { rewrite Hperm. apply (wf_allBlocks _ Hwf). }
  exists byName. split; [done|]. intros n.
  destruct (dict_by_name_lookup _ _ _ _ n HbyName) as
    [(l1 & b0 & l2 & Hl & Hb0 & Hl2 & Hd')|[Hnone Hd']].
  - right. exists b0. split; [done|]. split.
    { rewrite <- Hperm, Hl. apply elem_of_app. right. by left. }
    split; [done|]. intros b' Hb' Hname.
    rewrite <- Hperm, Hl in Hb'. rewrite Hl in Hsorted.
    apply elem_of_app in Hb' as [Hb'|Hb'].
    + apply (StronglySorted_app_1_elem_of _ _ _ _ _ Hsorted Hb'). by left.
    + apply elem_of_cons in Hb' as [->|Hb'].
      * unfold key_le. lia.
      * rewrite Forall_forall in Hl2. by destruct (Hl2 _ Hb').
  - left. rewrite lookup_empty in Hd'. split; [done|]. by rewrite <- Hperm.
Qed.

(** ** The resolver *)

Lemma first_block_Some (test : Block → option bool) (blocks : list Block) :
  Forall (λ b, is_Some (test b)) blocks →
  ∃ r, first_block test blocks = Some r.
Proof.
  induction 1 as [|b blocks [t Ht] _ [r IH]]; [by eexists|].
  simpl. rewrite Ht. simpl. destruct t; by eexists.
Qed.

Lemma first_block_none (test : Block → option bool) (blocks : list Block) :
  Forall (λ b, test b = Some false) blocks →
  first_block test blocks = Some None.
Proof.
  induction 1 as [|b blocks Ht _ IH]; [done|]. simpl. by rewrite Ht.
Qed.

(** The block chosen for a source block depends on its identifier only. *)
Lemma guess_block_key (matsFrom matsTo : MCMaterials)
    (byName : gmap string Block) (b1 b2 : Block) :
  Block_key b1 = Block_key b2 →
  guess_block matsFrom matsTo byName b1 = guess_block matsFrom matsTo byName b2.
Proof.
  unfold Block_key. intros [= HID Hdata].
  unfold guess_block, Block_name. by rewrite HID, Hdata.
Qed.

(** The first rule: a name of the dictionary ends the search. *)
Lemma guess_block_exact (matsFrom matsTo : MCMaterials)
    (byName : gmap string Block) (fromBlock b0 : Block) (n : string) :
  Block_name matsFrom fromBlock = Some n → byName !! n = Some b0 →
  guess_block matsFrom matsTo byName fromBlock = Some (Some b0).
Proof.
  intros Hn Hb0. unfold guess_block. rewrite Hn. cbn [mbind option_bind].
  rewrite Hb0. done.
Qed.

Lemma guess_block_Some (matsFrom matsTo : MCMaterials)
    (byName : gmap string Block) (fromBlock : Block) :
  wf matsFrom → wf matsTo →
  ID fromBlock < id_limit → blockData fromBlock < 16 →
  ∃ r, guess_block matsFrom matsTo byName fromBlock = Some r.
Proof.
  intros HwfF HwfT Hi Hd.
  destruct (resolve_in_range _ _ HwfF Hi Hd) as ([n Hn] & _).
  unfold guess_block. rewrite Hn. cbn [mbind option_bind].
  assert (Hres : ∀ b, b ∈ allBlocks matsTo →
                      is_Some (Block_name matsTo b)
                      ∧ is_Some (Block_aka matsTo b)).
  { intros b Hb. pose proof (wf_allBlocks _ HwfT) as Hall.
    rewrite Forall_forall in Hall. destruct (Hall _ Hb) as [Hbi Hbd].
    destruct (resolve_in_range _ _ HwfT Hbi Hbd) as (H1 & H2 & _). done. }
  destruct (first_block_Some (name_startswith matsTo n) (allBlocks matsTo))
    as [r1 H1].
  { apply Forall_forall. intros b Hb. destruct (Hres b Hb) as [[x Hx] _].
    unfold name_startswith. rewrite Hx. by eexists. }
  destruct (first_block_Some (name_contains matsTo n) (allBlocks matsTo))
    as [r2 H2].
  { apply Forall_forall. intros b Hb. destruct (Hres b Hb) as [[x Hx] _].
    unfold name_contains. rewrite Hx. by eexists. }
  destruct (first_block_Some (aka_contains matsTo n) (allBlocks matsTo))
    as [r3 H3].
  { apply Forall_forall. intros b Hb. destruct (Hres b Hb) as [_ [x Hx]].
    unfold aka_contains. rewrite Hx. by eexists. }
  rewrite H1, H2, H3. unfold or_search.
  destruct (byName !! n); cbn [mbind option_bind]; [by eexists|].
  destruct r1; cbn [mbind option_bind]; [by eexists|].
  destruct r2; cbn [mbind option_bind]; [by eexists|].
  destruct r3; cbn [mbind option_bind]; by eexists.
Qed.

(** The loop of [guessFilterTable] returns when every source block gets a
    decision; its filters are the pairs of the source blocks whose chosen
    block has another identifier, and its unavailable identifiers are
    those of the source blocks with no chosen block. *)
Lemma guess_loop_spec (matsFrom matsTo : MCMaterials)
    (byName : gmap string Block) (blocks : list Block) :
  Forall (λ fb, is_Some (guess_block matsFrom matsTo byName fb)) blocks →
  ∀ filters unavailable, ∃ f u,
    guess_loop matsFrom matsTo byName blocks filters unavailable = Some (f, u)
    ∧ (∀ e, e ∈ f ↔
            e ∈ filters
            ∨ ∃ fb b, fb ∈ blocks
                      ∧ guess_block matsFrom matsTo byName fb = Some (Some b)
                      ∧ Block_key b ≠ Block_key fb
                      ∧ e = (Block_key fb, Block_key b))
    ∧ (∀ k, k ∈ u ↔
            k ∈ unavailable
            ∨ ∃ fb, fb ∈ blocks
                    ∧ guess_block matsFrom matsTo byName fb = Some None
                    ∧ k = Block_key fb).
Proof.
  induction 1 as [|fb blocks [r Hr] _ IH]; intros filters unavailable.
  - exists filters, unavailable. split; [done|].
    split; intros x; (split; [by left|]).
    + intros [H|(? & ? & H & _)]; [done|]. by apply elem_of_nil in H.
    + intros [H|(? & H & _)]; [done|]. by apply elem_of_nil in H.
  - cbn [guess_loop]. rewrite Hr. cbn [mbind option_bind].
    destruct r as [b|].
    + destruct (bool_decide (Block_key b ≠ Block_key fb)) eqn:E.
      * apply bool_decide_eq_true in E.
        destruct (IH (filters ++ [(Block_key fb, Block_key b)]) unavailable)
          as (f & u & Hloop & Hf & Hu).
        exists f, u. split; [done|]. split.
        -- intros e. rewrite Hf, elem_of_app, list_elem_of_singleton. split.
           ++ intros [[H| ->]|(fb' & b' & Hin & Hg & Hne & ->)].
              ** by left.
              ** right. exists fb, b. split; [by left|done].
              ** right. exists fb', b'. split; [by right|done].
           ++ intros [H|(fb' & b' & Hin & Hg & Hne & ->)]; [by left; left|].
              apply elem_of_cons in Hin as [->|Hin].
              ** rewrite Hr in Hg. injection Hg as <-. by left; right.
              ** right. by exists fb', b'.
        -- intros k. rewrite Hu. split.
           ++ intros [H|(fb' & Hin & Hg & ->)]; [by left|].
              right. exists fb'. split; [by right|done].
           ++ intros [H|(fb' & Hin & Hg & ->)]; [by left|].
              apply elem_of_cons in Hin as [->|Hin]; [congruence|].
              right. by exists fb'.
      * apply bool_decide_eq_false in E.
        destruct (IH filters unavailable) as (f & u & Hloop & Hf & Hu).
        exists f, u. split; [done|]. split.
        -- intros e. rewrite Hf. split.
           ++ intros [H|(fb' & b' & Hin & Hg & Hne & ->)]; [by left|].
              right. exists fb', b'. split; [by right|done].
           ++ intros [H|(fb' & b' & Hin & Hg & Hne & ->)]; [by left|].
              apply elem_of_cons in Hin as [->|Hin].
              ** rewrite Hr in Hg. injection Hg as <-. done.
              ** right. by exists fb', b'.
        -- intros k. rewrite Hu. split.
           ++ intros [H|(fb' & Hin & Hg & ->)]; [by left|].
              right. exists fb'. split; [by right|done].
           ++ intros [H|(fb' & Hin & Hg & ->)]; [by left|].
              apply elem_of_cons in Hin as [->|Hin]; [congruence|].
              right. by exists fb'.
    + destruct (IH filters (unavailable ++ [Block_key fb]))
        as (f & u & Hloop & Hf & Hu).
      exists f, u. split; [done|]. split.
      * intros e. rewrite Hf. split.
        -- intros [H|(fb' & b' & Hin & Hg & Hne & ->)]; [by left|].
           right. exists fb', b'. split; [by right|done].
        -- intros [H|(fb' & b' & Hin & Hg & Hne & ->)]; [by left|].
           apply elem_of_cons in Hin as [->|Hin]; [congruence|].
           right. by exists fb', b'.
      * intros k. rewrite Hu, elem_of_app, list_elem_of_singleton. split.
        -- intros [[H| ->]|(fb' & Hin & Hg & ->)].
           ++ by left.
           ++ right. exists fb. split; [by left|done].
           ++ right. exists fb'. split; [by right|done].
        -- intros [H|(fb' & Hin & Hg & ->)]; [by left; left|].
           apply elem_of_cons in Hin as [->|Hin]; [by left; right|].
           right. by exists fb'.
Qed.

(** [guessFilterTable] returns on every pair of registry states. *)
Lemma guessFilterTable_spec (matsFrom matsTo : MCMaterials) :
  wf matsFrom → wf matsTo →
  ∃ byName f u,
    toByName matsTo = Some byName
    ∧ guessFilterTable matsFrom matsTo = Some (f, u)
    ∧ (∀ e, e ∈ f ↔
            ∃ fb b, fb ∈ allBlocks matsFrom
                    ∧ guess_block matsFrom matsTo byName fb = Some (Some b)
                    ∧ Block_key b ≠ Block_key fb
                    ∧ e = (Block_key fb, Block_key b))
    ∧ (∀ k, k ∈ u ↔
            ∃ fb, fb ∈ allBlocks matsFrom
                  ∧ guess_block matsFrom matsTo byName fb = Some None
                  ∧ k = Block_key fb).
Proof.
  intros HwfF HwfT. destruct (toByName_spec _ HwfT) as (byName & HbyName & _).
  destruct (guess_loop_spec matsFrom matsTo byName (allBlocks matsFrom))
    with (filters := @nil ((nat * nat) * (nat * nat)))
         (unavailable := @nil (nat * nat))
    as (f & u & Hloop & Hf & Hu).
  { pose proof (wf_allBlocks _ HwfF) as Hall.
    eapply Forall_impl; [exact Hall|]. intros fb [Hi Hd].
    destruct (guess_block_Some matsFrom matsTo byName fb HwfF HwfT Hi Hd)
      as [r Hr]. by exists r. }
  exists byName, f, u. split; [done|]. split.
  { unfold guessFilterTable. rewrite HbyName. done. }
  split.
  - intros e. rewrite Hf. split; [|by right].
    intros [H|H]; [by apply elem_of_nil in H|done].
  - intros k. rewrite Hu. split; [|by right].
    intros [H|H]; [by apply elem_of_nil in H|done].
Qed.

Lemma build_built (dn : string) (ops : list Op) :
  Forall op_ok ops → build dn ops = Some (built dn ops).
Proof.
  intros Hok. unfold built. by destruct (build_Some dn ops Hok) as [m ->].
Qed.

Ltac ops_ok :=
  repeat (apply Forall_cons; split;
          [apply op_ok_named; [apply id_limit_gt; lia|lia]|]);
  apply Forall_nil_2.

(** ** Ties between destination blocks of one name *)

(** C4 (amended): in the first rule of the resolver, when one or more
    known blocks of the destination have the display name of the source
    block, the block chosen is the one with the smallest identifier
    (ID, then data), whatever the order in which they were defined. *)
Theorem exact_name_match_smallest_identifier :
  ∀ (dnS : string) (opsS : list Op) (src : MCMaterials)
    (dnD : string) (opsD : list Op) (dst : MCMaterials)
    (fromBlock : Block) (n : string) (b : Block),
    build dnS opsS = Some src → build dnD opsD = Some dst →
    Block_name src fromBlock = Some n →
    b ∈ allBlocks dst → Block_name dst b = Some n →
    ∃ byName b0,
      toByName dst = Some byName
      ∧ guess_block src dst byName fromBlock = Some (Some b0)
      ∧ b0 ∈ allBlocks dst
      ∧ Block_name dst b0 = Some n
      ∧ ∀ b', b' ∈ allBlocks dst → Block_name dst b' = Some n →
              key_le (Block_key b0) (Block_key b').
Proof.
  intros dnS opsS src dnD opsD dst fromBlock n b Hsrc Hdst Hfrom Hb Hname.
  pose proof (build_wf _ _ _ Hdst) as HwfD.
  destruct (toByName_spec dst HwfD) as (byName & HbyName & Hspec).
  destruct (Hspec n) as [[_ Hnone]|(b0 & Hb0 & Hin & Hn0 & Hmin)].
  { rewrite Forall_forall in Hnone. by destruct (Hnone b Hb). }
  exists byName, b0. split; [done|]. split; [|done].
  by eapply guess_block_exact.
Qed.

Lemma allBlocks_two_stones :
  allBlocks (built "Unused Block" two_stones)
  = [mkBlock 0 0 EmptyString; mkBlock 1 0 EmptyString; mkBlock 2 0 EmptyString].
Proof. vm_compute. reflexivity. Qed.

(** C4 (amended), on a sample: a source Stone (5, 0) against a destination
    with the two Stones (1, 0) and (2, 0). *)
Lemma exact_name_match_smallest_identifier_witness :
  ∃ byName b0,
    toByName (built "Unused Block" two_stones) = Some byName
    ∧ guess_block (built "Unused Block" [OpAddBlock 5 0 (kw_named "Stone")])
        (built "Unused Block" two_stones) byName (mkBlock 5 0 EmptyString)
      = Some (Some b0)
    ∧ b0 ∈ allBlocks (built "Unused Block" two_stones)
    ∧ Block_name (built "Unused Block" two_stones) b0 = Some "Stone"%string
    ∧ key_le (Block_key b0) (2, 0).
Proof.
  assert (mkBlock 2 0 EmptyString ∈ allBlocks (built "Unused Block" two_stones))
    as Hin.
  { rewrite allBlocks_two_stones. repeat constructor. }
  assert (Block_name (built "Unused Block" two_stones) (mkBlock 2 0 EmptyString)
          = Some "Stone"%string) as Hname.
  { vm_compute. reflexivity. }
  destruct (exact_name_match_smallest_identifier
              "Unused Block" [OpAddBlock 5 0 (kw_named "Stone")]
              (built "Unused Block" [OpAddBlock 5 0 (kw_named "Stone")])
              "Unused Block" two_stones (built "Unused Block" two_stones)
              (mkBlock 5 0 EmptyString) "Stone"%string
              (mkBlock 2 0 EmptyString))
    as (byName & b0 & H1 & H2 & H3 & H4 & H5).
  { apply build_built. ops_ok. }
  { apply build_built. unfold two_stones. ops_ok. }
  { vm_compute. reflexivity. }
  { exact Hin. }
  { exact Hname. }
  exists byName, b0.
  exact (conj H1 (conj H2 (conj H3 (conj H4
           (H5 (mkBlock 2 0 EmptyString) Hin Hname))))).
Defined.

(** C4 (counterexample): the destination defines Stone as (1, 0) and then
    again as (2, 0); for a source block (5, 0) named Stone the resolver
    records the filter (5, 0) -> (1, 0): the block chosen is the one
    defined first, not the one defined later. *)
Lemma exact_name_match_counterexample :
  (src ← build "Unused Block" [OpAddBlock 5 0 (kw_named "Stone")];
   dst ← build "Unused Block" two_stones;
   r ← guessFilterTable src dst;
   Some (Block_key <$> allBlocks dst, r))
  = Some ([(0, 0); (1, 0); (2, 0)], ([((5, 0), (1, 0))], [])).
Proof. vm_compute. reflexivity. Qed.

(** ** The special case of Violet Wool *)

(** C9 (amended): when a known source block is named "Violet Wool", no
    known destination block has that name, matches it by prefix, or
    contains it in its name or its alias, and the destination has a known
    block named "Purple Wool", then [guessFilterTable] returns, the source
    identifier is not recorded as unavailable, and the block chosen is the
    Purple Wool of the name dictionary: if its identifier differs from the
    source identifier the filter from the source identifier to it is
    recorded, and if the two identifiers are equal no filter is recorded
    for the source identifier. *)
Theorem violet_wool_special_case :
  ∀ (dnS : string) (opsS : list Op) (src : MCMaterials)
    (dnD : string) (opsD : list Op) (dst : MCMaterials)
    (fromBlock purple : Block),
    build dnS opsS = Some src → build dnD opsD = Some dst →
    fromBlock ∈ allBlocks src →
    Block_name src fromBlock = Some "Violet Wool"%string →
    Forall (λ b, Block_name dst b ≠ Some "Violet Wool"%string) (allBlocks dst) →
    Forall (λ b, name_startswith dst "Violet Wool" b = Some false)
      (allBlocks dst) →
    Forall (λ b, name_contains dst "Violet Wool" b = Some false)
      (allBlocks dst) →
    Forall (λ b, aka_contains dst "Violet Wool" b = Some false)
      (allBlocks dst) →
    purple ∈ allBlocks dst →
    Block_name dst purple = Some "Purple Wool"%string →
    ∃ filters unavailable byName pb,
      guessFilterTable src dst = Some (filters, unavailable)
      ∧ toByName dst = Some byName
      ∧ byName !! ("Purple Wool" : string) = Some pb
      ∧ pb ∈ allBlocks dst
      ∧ Block_name dst pb = Some "Purple Wool"%string
      ∧ key_le (Block_key pb) (Block_key purple)
      ∧ (Block_key fromBlock ∉ unavailable)
      ∧ (Block_key pb ≠ Block_key fromBlock →
         (Block_key fromBlock, Block_key pb) ∈ filters)
      ∧ (Block_key pb = Block_key fromBlock →
         ∀ t, (Block_key fromBlock, t) ∉ filters).
Proof.
  intros dnS opsS src dnD opsD dst fromBlock purple Hsrc Hdst Hin Hname
    Hexact Hprefix Hsub Haka Hpurple Hpname.
  pose proof (build_wf _ _ _ Hsrc) as HwfS.
  pose proof (build_wf _ _ _ Hdst) as HwfD.
  destruct (guessFilterTable_spec src dst HwfS HwfD)
    as (byName & f & u & HbyName & Hguess & Hf & Hu).
  destruct (toByName_spec dst HwfD) as (byName' & HbyName' & Hspec).
  rewrite HbyName in HbyName'. injection HbyName' as <-.
  destruct (Hspec "Purple Wool"%string)
    as [[_ Hnone]|(pb & Hpb & Hpin & Hpn & Hmin)].
  { rewrite Forall_forall in Hnone. by destruct (Hnone purple Hpurple). }
  assert (Hviolet : byName !! "Violet Wool"%string = None).
  { destruct (Hspec "Violet Wool"%string)
      as [[Hn _]|(b0 & _ & Hb0 & Hn0 & _)]; [done|].
    rewrite Forall_forall in Hexact. by destruct (Hexact b0 Hb0). }
  assert (Hchosen : guess_block src dst byName fromBlock = Some (Some pb)).
  { unfold guess_block. rewrite Hname. cbn [mbind option_bind].
    rewrite Hviolet. cbn [or_search].
    rewrite (first_block_none _ _ Hprefix). cbn [mbind option_bind or_search].
    rewrite (first_block_none _ _ Hsub). cbn [mbind option_bind or_search].
    rewrite (first_block_none _ _ Haka). cbn [mbind option_bind or_search].
    unfold special_case. simpl. by rewrite Hpb. }
  exists f, u, byName, pb. repeat split; try done.
  - by apply Hmin.
  - intros (fb & Hfb & Hg & Hkey)%Hu.
    rewrite (guess_block_key src dst byName fb fromBlock) in Hg by done.
    congruence.
  - intros Hne. apply Hf. by exists fromBlock, pb.
  - intros Heq t (fb & b & Hfb & Hg & Hne & Hpair)%Hf.
    apply pair_equal_spec in Hpair as [Hkey ->].
    rewrite (guess_block_key src dst byName fb fromBlock) in Hg by done.
    rewrite Hchosen in Hg. injection Hg as <-. congruence.
Qed.

Lemma allBlocks_old_wool :
  allBlocks (built "Unused Block" old_wool)
  = [mkBlock 0 0 EmptyString; mkBlock 31 0 EmptyString].
Proof. vm_compute. reflexivity. Qed.

Lemma allBlocks_alpha_wool :
  allBlocks (built "Future Block!" alpha_wool)
  = [mkBlock 0 0 EmptyString; mkBlock 35 0 EmptyString;
     mkBlock 35 10 EmptyString].
Proof. vm_compute. reflexivity. Qed.

(** C9 (amended), on a sample: Violet Wool (31, 0) against a destination
    whose Purple Wool is (35, 10). *)
Lemma violet_wool_special_case_witness :
  ∃ filters unavailable pb,
    guessFilterTable (built "Unused Block" old_wool)
      (built "Future Block!" alpha_wool) = Some (filters, unavailable)
    ∧ Block_name (built "Future Block!" alpha_wool) pb
      = Some "Purple Wool"%string
    ∧ key_le (Block_key pb) (35, 10)
    ∧ ((31, 0) ∉ unavailable)
    ∧ (Block_key pb ≠ (31, 0) → ((31, 0), Block_key pb) ∈ filters).
Proof.
  destruct (violet_wool_special_case
              "Unused Block" old_wool (built "Unused Block" old_wool)
              "Future Block!" alpha_wool (built "Future Block!" alpha_wool)
              (mkBlock 31 0 EmptyString) (mkBlock 35 10 EmptyString))
    as (filters & unavailable & byName & pb & H1 & H2 & H3 & H4 & H5 & H6
        & H7 & H8 & H9).
  { apply build_built. unfold old_wool. ops_ok. }
  { apply build_built. unfold alpha_wool. ops_ok. }
  { rewrite allBlocks_old_wool. repeat constructor. }
  { vm_compute. reflexivity. }
  { rewrite allBlocks_alpha_wool.
    repeat (apply Forall_cons; split); [..|apply Forall_nil_2];
      vm_compute; discriminate. }
  { rewrite allBlocks_alpha_wool.
    repeat (apply Forall_cons; split); [..|apply Forall_nil_2];
      vm_compute; reflexivity. }
  { rewrite allBlocks_alpha_wool.
    repeat (apply Forall_cons; split); [..|apply Forall_nil_2];
      vm_compute; reflexivity. }
  { rewrite allBlocks_alpha_wool.
    repeat (apply Forall_cons; split); [..|apply Forall_nil_2];
      vm_compute; reflexivity. }
  { rewrite allBlocks_alpha_wool. repeat constructor. }
  { vm_compute. reflexivity. }
  exists filters, unavailable, pb.
  exact (conj H1 (conj H5 (conj H6 (conj H7 H8)))).
Defined.

(** C9 (counterexample): the source defines Violet Wool as (35, 10) and
    the destination defines Purple Wool as (35, 10) and nothing that
    matches "Violet Wool": the resolver returns no filter entry at all
    (and no unavailable identifier). *)
Lemma violet_wool_special_case_counterexample :
  (src ← build "Unused Block" classic_wool;
   dst ← build "Future Block!" alpha_wool;
   byName ← toByName dst;
   block ← guess_block src dst byName (mkBlock 35 10 EmptyString);
   r ← guessFilterTable src dst;
   Some (Block_name src (mkBlock 35 10 EmptyString),
         option_map Block_key block, r))
  = Some (Some "Violet Wool"%string, Some (35, 10), ([((35, 0), (35, 10))], [])).
Proof. vm_compute. reflexivity. Qed.

(** * Further properties of the registry *)

(** ** What a definition accepts *)

Lemma addBlock_in_range (m : MCMaterials) (i d : nat) (kw : BlockKw) :
  wf m → is_Some (addBlock m i d kw) → i < id_limit ∧ d < 16.
Proof.
  intros Hwf [[m' b] H].
  destruct (addBlock_inv _ _ _ _ _ _ H) as
    (namesRow & currentName & akaRow & colorRow & currentColor & rgba & texture
     & typeRef & typeRow & [HN1 HN2] & _).
  split.
  - rewrite <- (wf_names_len _ Hwf). by eapply lookup_lt_Some.
  - rewrite <- (row_length _ _ _ _ (wf_names_rows _ Hwf) HN1).
    by eapply lookup_lt_Some.
Qed.

(** ** What a definition stores *)

(** X2: an [addBlock] call that returns stores the fields it is given for
    the targeted identifier: the name, alias and category as given, the
    light emission and absorption reduced modulo 256 (the arrays are
    [uint8]), and the returned block carries the given [idStr]. *)
Theorem addBlock_stores_given_fields :
  ∀ (m : MCMaterials) (blockID blockData : nat) (kw : BlockKw)
    (m' : MCMaterials) (b : Block),
    addBlock m blockID blockData kw = Some (m', b) →
    (∀ n, kw_name kw = Some n → Block_name m' b = Some n)
    ∧ (∀ a, kw_aka kw = Some a → Block_aka m' b = Some a)
    ∧ (∀ t, kw_type kw = Some t → Block_type m' b = Some t)
    ∧ (∀ v, kw_brightness kw = Some v →
            Block_brightness m' b = Some (v mod 256)%Z)
    ∧ (∀ v, kw_opacity kw = Some v → Block_opacity m' b = Some (v mod 256)%Z)
    ∧ stringID b = default EmptyString (kw_idStr kw).
Proof.
  intros m i d kw m' b H.
  destruct (addBlock_inv _ _ _ _ _ _ H) as
    (namesRow & currentName & akaRow & colorRow & currentColor & rgba & texture
     & typeRef & typeRow & [HN1 HN2] & [HL1 HL2] & [HA1 HA2]
     & (HC1 & HC2 & HC3 & HC4) & [HT1 HT2] & (HY1 & HY2 & HY3)
     & Hnames & Htype & HtypeRows & Haka & HlE & HlA & Hall & HbyID & Hb & _).
  pose proof (lookup_lt_Some _ _ _ HN1) as Hi.
  pose proof (lookup_lt_Some _ _ _ HN2) as Hd.
  subst b.
  unfold Block_name, Block_aka, Block_type, Block_brightness, Block_opacity,
    brightness, opacity.
  cbn [ID blockData stringID].
  split; [|split; [|split; [|split; [|split; [|done]]]]].
  - intros n Hkw. rewrite Hnames, Hkw. cbn [default].
    destruct (d =? 0)%nat eqn:E.
    + apply Nat.eqb_eq in E as ->. rewrite list_lookup_insert_eq by done.
      cbn [mbind option_bind]. apply lookup_replicate_2. lia.
    + rewrite list_lookup_insert_eq by done. cbn [mbind option_bind].
      by apply list_lookup_insert_eq.
  - intros a Hkw. rewrite Haka, Hkw.
    rewrite list_lookup_insert_eq by by eapply lookup_lt_Some.
    cbn [mbind option_bind]. by apply list_lookup_insert_eq.
  - intros t Hkw. rewrite Htype, HtypeRows, Hkw. cbn [default].
    destruct (d =? 0)%nat eqn:E.
    + apply Nat.eqb_eq in E as ->.
      rewrite list_lookup_insert_eq by by eapply lookup_lt_Some.
      cbn [mbind option_bind]. rewrite lookup_app_r by done.
      by rewrite Nat.sub_diag.
    + rewrite HY1. cbn [mbind option_bind].
      rewrite list_lookup_insert_eq by by eapply lookup_lt_Some.
      cbn [mbind option_bind]. by apply list_lookup_insert_eq.
  - intros v Hkw. rewrite HlE, Hkw. by apply list_lookup_insert_eq.
  - intros v Hkw. rewrite HlA, Hkw. by apply list_lookup_insert_eq.
Qed.

(** X2, on a sample: Stone with brightness 7 and opacity 3. *)
Lemma addBlock_stores_given_fields_witness :
  ∃ m' b,
    addBlock (built "Unused Block" []) 1 0 stone_kw = Some (m', b)
    ∧ Block_name m' b = Some "Stone"%string
    ∧ Block_aka m' b = Some "Rock"%string
    ∧ Block_type m' b = Some "SIMPLE"%string
    ∧ Block_brightness m' b = Some (7 mod 256)%Z
    ∧ Block_opacity m' b = Some (3 mod 256)%Z
    ∧ stringID b = "stone"%string.
Proof.
  destruct (addBlock_Some (built "Unused Block" []) 1 0 stone_kw)
    as (m' & b & H).
  { eapply build_wf. apply build_built. constructor. }
  { apply id_limit_gt; lia. }
  { lia. }
  { apply kw_ok_stone. }
  destruct (addBlock_stores_given_fields _ _ _ _ _ _ H)
    as (H1 & H2 & H3 & H4 & H5 & H6).
  exists m', b.
  exact (conj H (conj (H1 _ eq_refl) (conj (H2 _ eq_refl) (conj (H3 _ eq_refl)
           (conj (H4 _ eq_refl) (conj (H5 _ eq_refl) H6)))))).
Defined.

(** X3: in every registry state, an [addBlock] call with a [mapcolor] of
    three channels stores them modulo 256 with the alpha 255 appended; a
    call on data 0 stores that color for all 16 variants of the ID, a call
    on another data stores it for that variant only. *)
Theorem addBlock_mapcolor :
  ∀ (dn : string) (ops : list Op) (m : MCMaterials) (blockID blockData : nat)
    (kw : BlockKw) (m' : MCMaterials) (b : Block) (r g bl : Z),
    build dn ops = Some m →
    addBlock m blockID blockData kw = Some (m', b) →
    kw_mapcolor kw = Some [r; g; bl] →
    Block_color m' b = Some [r mod 256; g mod 256; bl mod 256; 255]%Z
    ∧ (blockData = 0 → ∀ v, v < 16 →
       Block_color m' (blockWithID m' blockID v)
       = Some [r mod 256; g mod 256; bl mod 256; 255]%Z)
    ∧ (blockData ≠ 0 → ∀ v, v ≠ blockData →
       Block_color m' (blockWithID m' blockID v)
       = Block_color m (blockWithID m blockID v)).
Proof.
  intros dn ops m i d kw m' b r g bl Hm H Hkw.
  pose proof (build_wf _ _ _ Hm) as Hwf.
  pose proof (addBlock_wf _ _ _ _ _ _ Hwf H) as Hwf'.
  destruct (addBlock_inv _ _ _ _ _ _ H) as
    (namesRow & currentName & akaRow & colorRow & currentColor & rgba & texture
     & typeRef & typeRow & [HN1 HN2] & [HL1 HL2] & [HA1 HA2]
     & (HC1 & HC2 & HC3 & HC4) & [HT1 HT2] & (HY1 & HY2 & HY3)
     & Hnames & Htype & HtypeRows & Haka & HlE & HlA & Hall & HbyID & Hb & _).
  rewrite Hkw in HC3. cbn in HC3. injection HC3 as <-.
  change (Z_uint8 <$> [r; g; bl; 255%Z])
    with [r mod 256; g mod 256; bl mod 256; 255]%Z in HC4.
  apply assign_variants_inv in HC4 as (row & Hrow & Hcolors).
  rewrite HC1 in Hrow. injection Hrow as <-.
  destruct (Forall_lookup_1 _ _ _ _ (wf_flatColors_rows _ Hwf) HC1)
    as [Hlen _].
  pose proof (lookup_lt_Some _ _ _ HC1) as Hi.
  pose proof (lookup_lt_Some _ _ _ HC2) as Hd.
  assert (Hres : ∀ v, Block_color m' (blockWithID m' i v)
                      = assigned_row colorRow d
                          [r mod 256; g mod 256; bl mod 256; 255]%Z !! v).
  { intros v. destruct (blockWithID_ID m' i v Hwf') as [HID Hdata].
    unfold Block_color, color. rewrite HID, Hdata, Hcolors.
    by rewrite list_lookup_insert_eq. }
  split; [|split].
  - subst b. unfold Block_color, color. cbn [ID blockData].
    rewrite Hcolors, list_lookup_insert_eq by done. cbn [mbind option_bind].
    by apply assigned_row_lookup.
  - intros -> v Hv. rewrite Hres. cbn [assigned_row Nat.eqb].
    apply lookup_replicate_2. lia.
  - intros Hne v Hv. rewrite Hres.
    destruct (blockWithID_ID m i v Hwf) as [HID Hdata].
    unfold Block_color at 1, color. rewrite HID, Hdata, HC1.
    cbn [mbind option_bind]. unfold assigned_row.
    apply Nat.eqb_neq in Hne. rewrite Hne.
    by apply list_lookup_insert_ne.
Qed.

(** X3, on a sample: the color (125, 300, 125) given for (5, 0) is read
    back as (125, 44, 125, 255) for (5, 0) and for (5, 9). *)
Lemma addBlock_mapcolor_witness :
  ∃ m' b,
    addBlock (built "Unused Block" []) 5 0 gray_kw = Some (m', b)
    ∧ Block_color m' b = Some [125 mod 256; 300 mod 256; 125 mod 256; 255]%Z
    ∧ Block_color m' (blockWithID m' 5 9)
      = Some [125 mod 256; 300 mod 256; 125 mod 256; 255]%Z.
Proof.
  assert (build "Unused Block" [] = Some (built "Unused Block" [])) as Hm.
  { apply build_built. constructor. }
  destruct (addBlock_Some (built "Unused Block" []) 5 0 gray_kw)
    as (m' & b & H).
  { by eapply build_wf. }
  { apply id_limit_gt; lia. }
  { lia. }
  { split; [right; simpl; lia|done]. }
  destruct (addBlock_mapcolor _ _ _ _ _ _ _ _ 125%Z 300%Z 125%Z Hm H eq_refl)
    as (H1 & H2 & _).
  exists m', b.
  refine (conj H (conj H1 (H2 eq_refl 9 _))). lia.
Defined.

(** ** What a definition leaves alone *)

(** X4: an [addBlock] call that returns changes nothing of what the blocks
    of another ID resolve to for the name, alias, color, light emission,
    light absorption and textures.  (The category is not in the list: its
    rows may be shared between IDs.) *)
Theorem addBlock_leaves_other_IDs :
  ∀ (m : MCMaterials) (blockID blockData : nat) (kw : BlockKw)
    (m' : MCMaterials) (b other : Block),
    addBlock m blockID blockData kw = Some (m', b) →
    ID other ≠ blockID →
    Block_name m' other = Block_name m other
    ∧ Block_aka m' other = Block_aka m other
    ∧ Block_color m' other = Block_color m other
    ∧ Block_brightness m' other = Block_brightness m other
    ∧ Block_opacity m' other = Block_opacity m other
    ∧ Block_blockTextures m' other = Block_blockTextures m other.
Proof.
  intros m i d kw m' b other H Hne.
  destruct (addBlock_other_ID _ _ _ _ _ _ (ID other) H Hne)
    as (H1 & H2 & H3 & H4 & H5 & H6).
  unfold Block_name, Block_aka, Block_color, Block_brightness, Block_opacity,
    Block_blockTextures, color, brightness, opacity.
  by rewrite H1, H2, H3, H4, H5, H6.
Qed.

(** X4, on a sample: defining Stone (1, 0) leaves Air (0, 0) as it was. *)
Lemma addBlock_leaves_other_IDs_witness :
  ∃ m' b,
    addBlock (built "Unused Block" []) 1 0 stone_kw = Some (m', b)
    ∧ Block_name m' (mkBlock 0 0 EmptyString)
      = Block_name (built "Unused Block" []) (mkBlock 0 0 EmptyString)
    ∧ Block_opacity m' (mkBlock 0 0 EmptyString)
      = Block_opacity (built "Unused Block" []) (mkBlock 0 0 EmptyString).
Proof.
  destruct (addBlock_Some (built "Unused Block" []) 1 0 stone_kw)
    as (m' & b & H).
  { eapply build_wf. apply build_built. constructor. }
  { apply id_limit_gt; lia. }
  { lia. }
  { apply kw_ok_stone. }
  destruct (addBlock_leaves_other_IDs _ _ _ _ _ _ (mkBlock 0 0 EmptyString) H)
    as (H1 & _ & _ & _ & H5 & _).
  { simpl. lia. }
  exists m', b. exact (conj H (conj H1 H5)).
Defined.

(** ** The known blocks and the index by identifier *)

(** X5: an [addBlock] call that returns appends its block to the known
    blocks, also when the identifier was defined before (the number of
    known blocks grows by one on every call); [blockWithID] then returns
    that block for the identifier and what it returned before for every
    other identifier. *)
Theorem addBlock_registers_block :
  ∀ (m : MCMaterials) (blockID blockData : nat) (kw : BlockKw)
    (m' : MCMaterials) (b : Block),
    addBlock m blockID blockData kw = Some (m', b) →
    allBlocks m' = allBlocks m ++ [b]
    ∧ length (allBlocks m') = S (length (allBlocks m))
    ∧ Block_key b = (blockID, blockData)
    ∧ blockWithID m' blockID blockData = b
    ∧ ∀ id data, (id, data) ≠ (blockID, blockData) →
                 blockWithID m' id data = blockWithID m id data.
Proof.
  intros m i d kw m' b H.
  destruct (addBlock_inv _ _ _ _ _ _ H) as
    (namesRow & currentName & akaRow & colorRow & currentColor & rgba & texture
     & typeRef & typeRow & [HN1 HN2] & [HL1 HL2] & [HA1 HA2]
     & (HC1 & HC2 & HC3 & HC4) & [HT1 HT2] & (HY1 & HY2 & HY3)
     & Hnames & Htype & HtypeRows & Haka & HlE & HlA & Hall & HbyID & Hb & _).
  split; [done|]. split; [rewrite Hall, length_app; simpl; lia|].
  split; [by rewrite Hb|]. split.
  - unfold blockWithID. by rewrite HbyID, lookup_insert_eq.
  - intros id data Hne. unfold blockWithID.
    by rewrite HbyID, lookup_insert_ne.
Qed.

(** X5, on a sample: Stone defined twice is known twice. *)
Lemma addBlock_registers_block_witness :
  ∃ m1 b1 m2 b2,
    addBlock (built "Unused Block" []) 1 0 stone_kw = Some (m1, b1)
    ∧ addBlock m1 1 0 (kw_named "Rock") = Some (m2, b2)
    ∧ allBlocks m2 = (allBlocks (built "Unused Block" []) ++ [b1]) ++ [b2]
    ∧ blockWithID m2 1 0 = b2.
Proof.
  destruct (addBlock_Some (built "Unused Block" []) 1 0 stone_kw)
    as (m1 & b1 & H1).
  { eapply build_wf. apply build_built. constructor. }
  { apply id_limit_gt; lia. }
  { lia. }
  { apply kw_ok_stone. }
  destruct (addBlock_Some m1 1 0 (kw_named "Rock")) as (m2 & b2 & H2).
  { eapply addBlock_wf; [|exact H1].
    eapply build_wf. apply build_built. constructor. }
  { apply id_limit_gt; lia. }
  { lia. }
  { apply kw_ok_named. }
  destruct (addBlock_registers_block _ _ _ _ _ _ H1) as (A1 & _).
  destruct (addBlock_registers_block _ _ _ _ _ _ H2) as (A2 & _ & _ & A3 & _).
  exists m1, b1, m2, b2.
  refine (conj H1 (conj H2 (conj _ A3))). by rewrite A2, A1.
Defined.

(** ** Definitions of data 0 and the variants *)

(** X6: in every registry state, an [addBlock] call on data 0 that returns
    makes the name of every one of the 16 variants of the ID resolve to the
    name of data 0 (the given name, or the current name of data 0 when
    none is given), whatever names the variants had, while the alias of
    every variant other than data 0 stays as it was. *)
Theorem addBlock_default_renames_variants :
  ∀ (dn : string) (ops : list Op) (m : MCMaterials) (blockID : nat)
    (kw : BlockKw) (m' : MCMaterials) (b : Block),
    build dn ops = Some m →
    addBlock m blockID 0 kw = Some (m', b) →
    Block_name m' b
    = Some (default (default EmptyString (Block_name m b)) (kw_name kw))
    ∧ ∀ v, v < 16 →
           Block_name m' (blockWithID m' blockID v) = Block_name m' b
           ∧ (v ≠ 0 →
              Block_aka m' (blockWithID m' blockID v)
              = Block_aka m (blockWithID m blockID v)).
Proof.
  intros dn ops m i kw m' b Hm H.
  pose proof (build_wf _ _ _ Hm) as Hwf.
  pose proof (addBlock_wf _ _ _ _ _ _ Hwf H) as Hwf'.
  destruct (addBlock_inv _ _ _ _ _ _ H) as
    (namesRow & currentName & akaRow & colorRow & currentColor & rgba & texture
     & typeRef & typeRow & [HN1 HN2] & [HL1 HL2] & [HA1 HA2]
     & (HC1 & HC2 & HC3 & HC4) & [HT1 HT2] & (HY1 & HY2 & HY3)
     & Hnames & Htype & HtypeRows & Haka & HlE & HlA & Hall & HbyID & Hb & _).
  cbn [Nat.eqb] in Hnames.
  pose proof (lookup_lt_Some _ _ _ HN1) as Hi.
  assert (Hrow : ∀ v, v < 16 →
            Block_name m' (mkBlock i v (stringID b))
            = Some (default currentName (kw_name kw))).
  { intros v Hv. unfold Block_name. cbn [ID blockData].
    rewrite Hnames, list_lookup_insert_eq by done. cbn [mbind option_bind].
    by apply lookup_replicate_2. }
  assert (Hb0 : Block_name m' b = Some (default currentName (kw_name kw))).
  { rewrite Hb. apply (Hrow 0). lia. }
  split.
  - rewrite Hb0. subst b. unfold Block_name at 1. cbn [ID blockData].
    by rewrite HN1; cbn [mbind option_bind]; rewrite HN2.
  - intros v Hv. destruct (blockWithID_ID m' i v Hwf') as [HID Hdata].
    destruct (blockWithID_ID m i v Hwf) as [HID0 Hdata0]. split.
    + rewrite Hb0. unfold Block_name. rewrite HID, Hdata.
      apply (Hrow v Hv).
    + intros Hne. unfold Block_aka.
      rewrite HID, Hdata, HID0, Hdata0, Haka, HA1.
      rewrite list_lookup_insert_eq by by eapply lookup_lt_Some.
      cbn [mbind option_bind]. by apply list_lookup_insert_ne.
Qed.

(** X6, on a sample: Light Blue Wool (35, 3) is defined, then Wool (35, 0);
    afterwards (35, 3) resolves to the name of (35, 0). *)
Lemma addBlock_default_renames_variants_witness :
  ∃ m' b,
    addBlock
      (built "Unused Block" [OpAddBlock 35 3 (kw_named "Light Blue Wool")])
      35 0 (kw_named "Wool") = Some (m', b)
    ∧ Block_name m' b = Some "Wool"%string
    ∧ Block_name m' (blockWithID m' 35 3) = Block_name m' b.
Proof.
  assert (build "Unused Block" [OpAddBlock 35 3 (kw_named "Light Blue Wool")]
          = Some (built "Unused Block"
                    [OpAddBlock 35 3 (kw_named "Light Blue Wool")])) as Hm.
  { apply build_built. ops_ok. }
  destruct (addBlock_Some
              (built "Unused Block"
                 [OpAddBlock 35 3 (kw_named "Light Blue Wool")])
              35 0 (kw_named "Wool")) as (m' & b & H).
  { by eapply build_wf. }
  { apply id_limit_gt; lia. }
  { lia. }
  { apply kw_ok_named. }
  destruct (addBlock_default_renames_variants _ _ _ _ _ _ _ Hm H) as [H1 H2].
  destruct (H2 3) as [H3 _]; [lia|].
  exists m', b. exact (conj H (conj H1 H3)).
Defined.

(** ** Lookup by name *)

(** The loop of [__getitem__] on blocks that resolve: it returns the first
    block of the name, with the blocks before it, or raises [KeyError]
    when no block has the name. *)
Lemma getitem_name_spec (m : MCMaterials) (key : string) (blocks : list Block) :
  Forall (λ b, is_Some (Block_name m b)) blocks →
  (∃ l1 b l2, blocks = l1 ++ b :: l2
              ∧ Block_name m b = Some key
              ∧ Forall (λ b', Block_name m b' ≠ Some key) l1
              ∧ getitem_name m key blocks = Ok b)
  ∨ (Forall (λ b', Block_name m b' ≠ Some key) blocks
     ∧ getitem_name m key blocks = Raise KeyError).
Proof.
  induction 1 as [|b blocks [n Hn] _ IH]; [by right|].
  cbn [getitem_name]. rewrite Hn.
  destruct (String.eqb n key) eqn:E.
  - apply String.eqb_eq in E as ->. left. exists [], b, blocks. by repeat split.
  - apply String.eqb_neq in E.
    destruct IH as [(l1 & b0 & l2 & -> & Hb0 & Hl1 & Hget)|[Hnone Hget]].
    + left. exists (b :: l1), b0, l2. repeat split; try done.
      constructor; [congruence|done].
    + right. split; [|done]. constructor; [congruence|done].
Qed.

Lemma known_blocks_resolve (m : MCMaterials) :
  wf m → Forall (λ b, is_Some (Block_name m b)) (allBlocks m).
Proof.
  intros Hwf. eapply Forall_impl; [apply (wf_allBlocks _ Hwf)|].
  intros b [Hi Hd]. by destruct (resolve_in_range m b Hwf Hi Hd) as (H & _).
Qed.

(** X7: in every registry state, [materials[name]] returns the first known
    block, in the order of definition, whose name resolves to [name], and
    raises [KeyError] exactly when no known block has that name. *)
Theorem getitem_by_name :
  ∀ (dn : string) (ops : list Op) (m : MCMaterials) (name : string),
    build dn ops = Some m →
    (∀ b, getitem m (KeyName name) = Ok b →
          ∃ l1 l2, allBlocks m = l1 ++ b :: l2
                   ∧ Block_name m b = Some name
                   ∧ Forall (λ b', Block_name m b' ≠ Some name) l1)
    ∧ (getitem m (KeyName name) = Raise KeyError
       ↔ Forall (λ b', Block_name m b' ≠ Some name) (allBlocks m))
    ∧ getitem m (KeyName name) ≠ Raise IndexError.
Proof.
  intros dn ops m name Hm. pose proof (build_wf _ _ _ Hm) as Hwf.
  cbn [getitem].
  destruct (getitem_name_spec m name (allBlocks m) (known_blocks_resolve m Hwf))
    as [(l1 & b0 & l2 & Hl & Hb0 & Hl1 & Hget)|[Hnone Hget]]; rewrite Hget.
  - split; [|split; [|done]].
    + intros b [= <-]. by exists l1, l2.
    + split; [done|]. intros Hall. rewrite Hl in Hall.
      apply Forall_app in Hall as [_ Hall].
      apply Forall_cons in Hall as [Hne _]. done.
  - split; [done|]. split; [|done]. by split.
Qed.

(** X7, on a sample: with Stone defined as (1, 0) and again as (2, 0),
    the lookup of "Stone" is not a [KeyError]. *)
Lemma getitem_by_name_witness :
  getitem (built "Unused Block" two_stones) (KeyName "Stone") ≠ Raise IndexError
  ∧ (getitem (built "Unused Block" two_stones) (KeyName "Granite")
     = Raise KeyError
     ↔ Forall (λ b', Block_name (built "Unused Block" two_stones) b'
                     ≠ Some "Granite"%string)
         (allBlocks (built "Unused Block" two_stones))).
Proof.
  assert (build "Unused Block" two_stones
          = Some (built "Unused Block" two_stones)) as Hm.
  { apply build_built. unfold two_stones. ops_ok. }
  destruct (getitem_by_name _ _ _ "Stone"%string Hm) as (_ & _ & H1).
  destruct (getitem_by_name _ _ _ "Granite"%string Hm) as (_ & H2 & _).
  exact (conj H1 H2).
Defined.

(** X8: in every registry state, [materials.get(name, default)] never
    raises; it returns [default] exactly when [materials[name]] raises
    [KeyError], that is when no known block has the name, and the block
    [materials[name]] returns otherwise. *)
Theorem get_by_name :
  ∀ (dn : string) (ops : list Op) (m : MCMaterials) (name : string)
    (default : option Block),
    build dn ops = Some m →
    (Forall (λ b', Block_name m b' ≠ Some name) (allBlocks m)
     ∧ get m (KeyName name) default = Ok default)
    ∨ (∃ b, b ∈ allBlocks m
            ∧ Block_name m b = Some name
            ∧ getitem m (KeyName name) = Ok b
            ∧ get m (KeyName name) default = Ok (Some b)).
Proof.
  intros dn ops m name default Hm. pose proof (build_wf _ _ _ Hm) as Hwf.
  unfold get. cbn [getitem].
  destruct (getitem_name_spec m name (allBlocks m) (known_blocks_resolve m Hwf))
    as [(l1 & b0 & l2 & Hl & Hb0 & Hl1 & Hget)|[Hnone Hget]]; rewrite Hget.
  - right. exists b0. split; [|done]. rewrite Hl.
    apply elem_of_app. right. by left.
  - by left.
Qed.

(** X8, on a sample: a registry that holds only Air. *)
Lemma get_by_name_witness :
  (Forall (λ b', Block_name (built "Unused Block" []) b' ≠ Some "Stone"%string)
     (allBlocks (built "Unused Block" []))
   ∧ get (built "Unused Block" []) (KeyName "Stone") None = Ok None)
  ∨ (∃ b, b ∈ allBlocks (built "Unused Block" [])
          ∧ Block_name (built "Unused Block" []) b = Some "Stone"%string
          ∧ getitem (built "Unused Block" []) (KeyName "Stone") = Ok b
          ∧ get (built "Unused Block" []) (KeyName "Stone") None = Ok (Some b)).
Proof.
  apply (get_by_name "Unused Block" [] _ "Stone"%string None).
  apply build_built. constructor.
Defined.

(** X9: in every registry state where no known block has the ID [blockID]
    or the name [name], after [addBlock(blockID, blockData, name=name)]
    the lookup [materials[name]] returns the block that the call
    returned. *)
Theorem getitem_after_addBlock :
  ∀ (dn : string) (ops : list Op) (m : MCMaterials) (blockID blockData : nat)
    (kw : BlockKw) (name : string) (m' : MCMaterials) (b : Block),
    build dn ops = Some m →
    kw_name kw = Some name →
    Forall (λ b', ID b' ≠ blockID ∧ Block_name m b' ≠ Some name) (allBlocks m) →
    addBlock m blockID blockData kw = Some (m', b) →
    getitem m' (KeyName name) = Ok b.
Proof.
  intros dn ops m i d kw name m' b Hm Hkw Hfresh H.
  pose proof (build_wf _ _ _ Hm) as Hwf.
  pose proof (addBlock_wf _ _ _ _ _ _ Hwf H) as Hwf'.
  assert (Hall : allBlocks m' = allBlocks m ++ [b]).
  { by destruct (addBlock_inv _ _ _ _ _ _ H) as
      (? & ? & ? & ? & ? & ? & ? & ? & ? & _ & _ & _ & _ & _ & _ & _ & _ & _
       & _ & _ & _ & Hall & _). }
  assert (Hname : Block_name m' b = Some name).
  { assert (∀ n, kw_name kw = Some n → Block_name m' b = Some n) as Hn.
    { intros n Hn.
      destruct (addBlock_inv _ _ _ _ _ _ H) as
        (namesRow & currentName & akaRow & colorRow & currentColor & rgba
         & texture & typeRef & typeRow & [HN1 HN2] & _ & _ & _ & _ & _
         & Hnames & _ & _ & _ & _ & _ & _ & _ & Hb & _).
      pose proof (lookup_lt_Some _ _ _ HN1) as Hi.
      pose proof (lookup_lt_Some _ _ _ HN2) as Hd.
      subst b. unfold Block_name. cbn [ID blockData].
      rewrite Hnames, Hn. cbn [default].
      destruct (d =? 0)%nat eqn:E.
      + apply Nat.eqb_eq in E as ->. rewrite list_lookup_insert_eq by done.
        cbn [mbind option_bind]. apply lookup_replicate_2. lia.
      + rewrite list_lookup_insert_eq by done. cbn [mbind option_bind].
        by apply list_lookup_insert_eq. }
    by apply Hn. }
  cbn [getitem].
  destruct (getitem_name_spec m' name (allBlocks m')
              (known_blocks_resolve m' Hwf'))
    as [(l1 & b0 & l2 & Hl & Hb0 & Hl1 & Hget)|[Hnone Hget]]; rewrite Hget.
  - f_equal. rewrite Hall in Hl.
    assert (b0 ∈ allBlocks m ++ [b]) as Hin.
    { rewrite Hl. apply elem_of_app. right. by left. }
    apply elem_of_app in Hin as [Hin|Hin].
    + exfalso. rewrite Forall_forall in Hfresh.
      destruct (Hfresh _ Hin) as [HID Hn]. apply Hn.
      rewrite <- Hb0. symmetry.
      destruct (addBlock_other_ID _ _ _ _ _ _ (ID b0) H HID) as (Hnames & _).
      unfold Block_name. by rewrite Hnames.
    + by apply list_elem_of_singleton in Hin.
  - exfalso. rewrite Hall in Hnone. apply Forall_app in Hnone as [_ Hnone].
    apply Forall_cons in Hnone as [Hne _]. done.
Qed.

(** X9, on a sample: Stone (1, 0) defined in a registry that holds only
    Air. *)
Lemma getitem_after_addBlock_witness :
  ∃ m' b,
    addBlock (built "Unused Block" []) 1 0 stone_kw = Some (m', b)
    ∧ getitem m' (KeyName "Stone") = Ok b.
Proof.
  assert (build "Unused Block" [] = Some (built "Unused Block" [])) as Hm.
  { apply build_built. constructor. }
  destruct (addBlock_Some (built "Unused Block" []) 1 0 stone_kw)
    as (m' & b & H).
  { by eapply build_wf. }
  { apply id_limit_gt; lia. }
  { lia. }
  { apply kw_ok_stone. }
  exists m', b. split; [exact H|].
  apply (getitem_after_addBlock _ _ _ 1 0 stone_kw "Stone"%string m' b Hm
           eq_refl); [|exact H].
  assert (allBlocks (built "Unused Block" []) = [mkBlock 0 0 EmptyString])
    as -> by (vm_compute; reflexivity).
  apply Forall_cons. split; [|apply Forall_nil_2].
  split; [simpl; lia|vm_compute; discriminate].
Defined.

(** ** Partial-name lookup in general *)

Lemma blocksMatching_loop_filter (m : MCMaterials) (spiltNames : list string)
    (blocks : list Block) :
  wf m → Forall (λ b, ID b < id_limit ∧ blockData b < 16) blocks →
  ∀ toReturn,
    blocksMatching_loop m spiltNames blocks toReturn
    = Some (toReturn ++ List.filter (block_passes m spiltNames) blocks).
Proof.
  intros Hwf Hblocks. induction Hblocks as [|b blocks [Hi Hd] _ IH];
    intros toReturn.
  - simpl. by rewrite app_nil_r.
  - destruct (resolve_in_range m b Hwf Hi Hd) as ([n Hn] & [a Ha] & _).
    cbn [blocksMatching_loop List.filter]. rewrite Hn, Ha.
    cbn [mbind option_bind]. rewrite IH. unfold block_passes at 2.
    rewrite Hn, Ha. destruct (block_matches spiltNames n a); [|done].
    by rewrite <- app_assoc.
Qed.

(** X10: in every registry state, [blocksMatching(name)] returns, and it
    returns the known blocks that pass its test, in the order of
    definition: a sublist of the known blocks. *)
Theorem blocksMatching_is_filter :
  ∀ (dn : string) (ops : list Op) (m : MCMaterials) (name : string),
    build dn ops = Some m →
    blocksMatching m name
    = Some (List.filter
              (block_passes m (PyStr.split (PyStr.lower name)))
              (allBlocks m))
    ∧ ∀ r, blocksMatching m name = Some r → sublist r (allBlocks m).
Proof.
  intros dn ops m name Hm. pose proof (build_wf _ _ _ Hm) as Hwf.
  assert (blocksMatching m name
          = Some (List.filter
                    (block_passes m (PyStr.split (PyStr.lower name)))
                    (allBlocks m))) as Heq.
  { unfold blocksMatching.
    by rewrite (blocksMatching_loop_filter m _ _ Hwf (wf_allBlocks _ Hwf)). }
  split; [done|]. intros r Hr. rewrite Heq in Hr. injection Hr as <-.
  generalize (allBlocks m). intros l.
  induction l as [|b l IH]; [done|]. simpl.
  destruct (block_passes _ _ b).
  - by apply sublist_skip.
  - by apply sublist_cons.
Qed.

(** X10, on a sample. *)
Lemma blocksMatching_is_filter_witness :
  ∃ r,
    blocksMatching (built "Unused Block" two_stones) "stone" = Some r
    ∧ sublist r (allBlocks (built "Unused Block" two_stones)).
Proof.
  assert (build "Unused Block" two_stones
          = Some (built "Unused Block" two_stones)) as Hm.
  { apply build_built. unfold two_stones. ops_ok. }
  destruct (blocksMatching_is_filter _ _ _ "stone"%string Hm) as [H1 H2].
  eexists. split; [exact H1|]. apply H2. exact H1.
Defined.

Lemma lower_ascii_idemp (c : ascii) :
  PyStr.lower_ascii (PyStr.lower_ascii c) = PyStr.lower_ascii c.
Proof.
  destruct c as [[] [] [] [] [] [] [] []]; reflexivity.
Qed.

Lemma lower_idemp (s : string) : PyStr.lower (PyStr.lower s) = PyStr.lower s.
Proof.
  induction s as [|c s IH]; [done|]. simpl. by rewrite lower_ascii_idemp, IH.
Qed.

(** X11: [blocksMatching] does not distinguish the case of the letters of
    its query: a query and its lower-case form give the same result, in
    every registry. *)
Theorem blocksMatching_query_case :
  ∀ (m : MCMaterials) (name : string),
    blocksMatching m (PyStr.lower name) = blocksMatching m name.
Proof.
  intros m name. unfold blocksMatching. by rewrite lower_idemp.
Qed.

Lemma split_nonempty (s : string) : PyStr.split s ≠ [].
Proof.
  destruct s as [|c s]; [done|]. simpl.
  destruct (Ascii.eqb c " "); [done|]. by destruct (PyStr.split s).
Qed.

(** Once the only token of the query [""] is used, no further block token
    counts. *)
Lemma count_parts_empty_used (nameParts : list string) :
  count_parts [EmptyString] nameParts 1 [0] = (1, [0]).
Proof.
  induction nameParts as [|v2 rest IH]; [done|].
  cbn [count_parts first_unused].
  assert (PyStr.contains EmptyString v2 = true) as -> by (by destruct v2).
  by rewrite bool_decide_eq_true_2 by (by left).
Qed.

Lemma block_matches_empty_query (vname vaka : string) :
  block_matches [EmptyString] vname vaka = true.
Proof.
  unfold block_matches.
  destruct (PyStr.split (PyStr.lower vname)) as [|v2 rest] eqn:E.
  { by destruct (split_nonempty _ E). }
  cbn [app count_parts first_unused].
  assert (PyStr.contains EmptyString v2 = true) as -> by (by destruct v2).
  rewrite bool_decide_eq_false_2 by (by apply not_elem_of_nil).
  cbn [andb negb Nat.add app]. by rewrite count_parts_empty_used.
Qed.

(** X12: in every registry state, [blocksMatching("")] returns all the
    known blocks: the one empty token of the empty query occurs in every
    block token. *)
Theorem blocksMatching_empty_query :
  ∀ (dn : string) (ops : list Op) (m : MCMaterials),
    build dn ops = Some m →
    blocksMatching m EmptyString = Some (allBlocks m).
Proof.
  intros dn ops m Hm. pose proof (build_wf _ _ _ Hm) as Hwf.
  unfold blocksMatching.
  rewrite (blocksMatching_loop_filter m _ _ Hwf (wf_allBlocks _ Hwf)).
  cbn [PyStr.lower PyStr.split app]. f_equal.
  pose proof (wf_allBlocks _ Hwf) as Hall.
  induction Hall as [|b l [Hi Hd] _ IH]; [done|].
  cbn [List.filter].
  destruct (resolve_in_range m b Hwf Hi Hd) as ([n Hn] & [a Ha] & _).
  unfold block_passes at 1. rewrite Hn, Ha, block_matches_empty_query.
  by rewrite IH.
Qed.

(** X12, on a sample. *)
Lemma blocksMatching_empty_query_witness :
  blocksMatching (built "Unused Block" two_stones) EmptyString
  = Some (allBlocks (built "Unused Block" two_stones)).
Proof.
  apply (blocksMatching_empty_query "Unused Block" two_stones).
  apply build_built. unfold two_stones. ops_ok.
Defined.

(** The counter grows by at most one per block token. *)
Lemma count_parts_le (spiltNames nameParts : list string) :
  ∀ i used, (count_parts spiltNames nameParts i used).1 ≤ i + length nameParts.
Proof.
  induction nameParts as [|v2 rest IH]; intros i used; simpl; [lia|].
  destruct (first_unused spiltNames v2 used 0).
  - specialize (IH (i + 1) (used ++ [n])). lia.
  - specialize (IH i used). lia.
Qed.

(** X13: a block never passes the test of [blocksMatching] for a query
    that has more space-separated tokens than the name and the alias of
    the block have together: every block token uses up at most one query
    token. *)
Theorem block_matches_too_many_tokens :
  ∀ (spiltNames : list string) (vname vaka : string),
    length (PyStr.split (PyStr.lower vname))
    + length (PyStr.split (PyStr.lower vaka)) < length spiltNames →
    block_matches spiltNames vname vaka = false.
Proof.
  intros spiltNames vname vaka Hlen. unfold block_matches.
  apply Nat.eqb_neq.
  pose proof (count_parts_le spiltNames
                (PyStr.split (PyStr.lower vname)
                 ++ PyStr.split (PyStr.lower vaka)) 0 []) as Hle.
  rewrite length_app in Hle. lia.
Qed.

(** X13, on a sample: five query tokens against "Lapis Lazuli Block" with
    an empty alias, which have four tokens together. *)
Lemma block_matches_too_many_tokens_witness :
  block_matches (PyStr.split "a b c d e") "Lapis Lazuli Block" EmptyString
  = false.
Proof.
  apply block_matches_too_many_tokens. vm_compute. lia.
Defined.

(** * Further properties of the conversion table *)

Lemma table_of_indices_wf : table_wf table_of_indices.
Proof.
  unfold table_wf, table_of_indices, _indices. split.
  - by rewrite !length_fmap, length_seq.
  - apply Forall_forall. intros row Hrow.
    apply list_elem_of_fmap in Hrow as (r0 & -> & Hr0).
    apply list_elem_of_fmap in Hr0 as (i & -> & _).
    by rewrite !length_fmap, length_seq.
Qed.

Lemma table_assign_inv (table : Table) (u v : nat * nat) (table' : Table) :
  table_assign table u v = Some table' →
  ∃ row, table !! u.1 = Some row
         ∧ table' = <[u.1 := assigned_row row u.2 (to_uint8_pair v)]> table
         ∧ (u.2 ≠ 0 → u.2 < length row).
Proof.
  unfold table_assign, assigned_row. intros H.
  destruct (table !! u.1) as [row|]; [|discriminate]. simpl in H.
  exists row. split; [done|].
  destruct (u.2 =? 0)%nat eqn:E.
  - injection H as <-. split; [done|]. apply Nat.eqb_eq in E. lia.
  - destruct (row !! u.2) eqn:E2; [|discriminate]. injection H as <-.
    split; [done|]. intros _. by eapply lookup_lt_Some.
Qed.

Lemma table_assign_wf (table : Table) (u v : nat * nat) (table' : Table) :
  table_wf table → table_assign table u v = Some table' → table_wf table'.
Proof.
  intros [Hlen Hrows] (row & Hrow & -> & _)%table_assign_inv. split.
  - by rewrite length_insert.
  - apply Forall_insert; [done|]. rewrite assigned_row_length.
    exact (row_length _ _ _ _ Hrows Hrow).
Qed.

Lemma table_assign_is_Some (table : Table) (u v : nat * nat) :
  table_wf table → (is_Some (table_assign table u v) ↔ key_in_range u).
Proof.
  intros [Hlen Hrows]. unfold key_in_range. split.
  - intros [table' (row & Hrow & _ & Hd)%table_assign_inv].
    pose proof (lookup_lt_Some _ _ _ Hrow) as Hi.
    pose proof (row_length _ _ _ _ Hrows Hrow) as Hrlen.
    split; [lia|]. destruct (decide (u.2 = 0)); [lia|].
    specialize (Hd n). lia.
  - intros [Hi Hd]. unfold table_assign.
    destruct (lookup_lt_is_Some_2 table u.1) as [row Hrow]; [lia|].
    pose proof (row_length _ _ _ _ Hrows Hrow) as Hrlen.
    rewrite Hrow. simpl. destruct (u.2 =? 0)%nat; [by eexists|].
    destruct (lookup_lt_is_Some_2 row u.2) as [x Hx]; [lia|].
    rewrite Hx. by eexists.
Qed.

Lemma touches_spec (u : nat * nat) (i d : nat) :
  touches u i d = true ↔ u.1 = i ∧ (u.2 = 0 ∨ u.2 = d).
Proof.
  unfold touches.
  rewrite andb_true_iff, orb_true_iff, !Nat.eqb_eq. done.
Qed.

(** One assignment: the addressed identifiers read the value, the others
    read what they read before. *)
Lemma table_assign_lookup (table : Table) (u v : nat * nat) (table' : Table)
    (i d : nat) :
  table_wf table → table_assign table u v = Some table' → d < 16 →
  filterConversion table' i (Some d)
  = if touches u i d then Some (to_uint8_pair v)
    else filterConversion table i (Some d).
Proof.
  intros [Hlen Hrows] (row & Hrow & -> & Hd)%table_assign_inv Hdlt.
  pose proof (lookup_lt_Some _ _ _ Hrow) as Hi.
  pose proof (row_length _ _ _ _ Hrows Hrow) as Hrlen.
  unfold filterConversion. cbn [default from_option id].
  destruct (touches u i d) eqn:E.
  - apply touches_spec in E as [<- Hor].
    rewrite list_lookup_insert_eq by done. cbn [mbind option_bind].
    unfold assigned_row. destruct Hor as [H0| <-].
    + rewrite H0. cbn [Nat.eqb]. apply lookup_replicate_2. lia.
    + destruct (u.2 =? 0)%nat eqn:E0.
      * apply lookup_replicate_2. lia.
      * apply list_lookup_insert_eq. lia.
  - destruct (decide (u.1 = i)) as [<-|Hne].
    + rewrite list_lookup_insert_eq by done. rewrite Hrow.
      cbn [mbind option_bind]. unfold assigned_row.
      destruct (u.2 =? 0)%nat eqn:E0.
      * exfalso. apply Nat.eqb_eq in E0.
        assert (touches u u.1 d = true) as Ht by (apply touches_spec; auto).
        congruence.
      * apply list_lookup_insert_ne. intros <-.
        assert (touches u u.1 u.2 = true) as Ht by (apply touches_spec; auto).
        congruence.
    + by rewrite list_lookup_insert_ne.
Qed.

Lemma assign_unavailable_as_filters (table : Table)
    (unavailable : list (nat * nat)) (default : nat * nat) :
  assign_unavailable table unavailable default
  = assign_filters table ((λ u, (u, default)) <$> unavailable).
Proof.
  revert table. induction unavailable as [|u rest IH]; intros table; [done|].
  cbn [assign_unavailable assign_filters fmap list_fmap].
  destruct (table_assign table u default); [|done]. apply IH.
Qed.

Lemma assign_filters_app (table : Table) (ws1 ws2 : Filters) :
  assign_filters table (ws1 ++ ws2)
  = assign_filters table ws1 ≫= λ t, assign_filters t ws2.
Proof.
  revert table. induction ws1 as [|[u v] rest IH]; intros table; [done|].
  cbn [app assign_filters]. destruct (table_assign table u v); [|done].
  apply IH.
Qed.

Lemma filterTable_as_writes (filters : Filters)
    (unavailable : list (nat * nat)) (default : nat * nat) :
  _filterTable filters unavailable default
  = assign_filters table_of_indices (table_writes filters unavailable default).
Proof.
  unfold _filterTable, table_writes.
  by rewrite assign_filters_app, assign_unavailable_as_filters.
Qed.

Lemma assign_filters_lookup (writes : Filters) :
  ∀ (table table' : Table) (i d : nat),
    table_wf table → assign_filters table writes = Some table' → d < 16 →
    filterConversion table' i (Some d)
    = match last_write writes i d with
      | Some v => Some (to_uint8_pair v)
      | None => filterConversion table i (Some d)
      end.
Proof.
  induction writes as [|[u v] rest IH]; intros table table' i d Hwf H Hd.
  - by injection H as <-.
  - cbn [assign_filters] in H.
    destruct (table_assign table u v) as [t1|] eqn:E; [|discriminate].
    cbn [mbind option_bind] in H.
    rewrite (IH t1 table' i d (table_assign_wf _ _ _ _ Hwf E) H Hd).
    cbn [last_write]. destruct (last_write rest i d); [done|].
    rewrite (table_assign_lookup _ _ _ _ i d Hwf E Hd).
    by destruct (touches u i d).
Qed.

Lemma assign_filters_is_Some (writes : Filters) :
  ∀ table, table_wf table →
           (is_Some (assign_filters table writes)
            ↔ Forall (λ w, key_in_range w.1) writes).
Proof.
  induction writes as [|[u v] rest IH]; intros table Hwf.
  - split; [by constructor|by eexists].
  - cbn [assign_filters]. rewrite Forall_cons. cbn [fst].
    rewrite <- (table_assign_is_Some table u v Hwf).
    destruct (table_assign table u v) as [t1|] eqn:E.
    + cbn [mbind option_bind].
      rewrite (IH t1 (table_assign_wf _ _ _ _ Hwf E)).
      split; [intros H; split; [by eexists|done]|by intros [_ H]].
    + cbn [mbind option_bind]. split; [by intros [? ?]|].
      intros [[? ?] _]. discriminate.
Qed.

(** X14: when [_filterTable] returns a table, the table maps every
    identifier in range to the value (each component modulo 256) of the
    last entry that addresses it, where the entries are the unavailable
    keys with the fallback followed by the filters, and an entry with
    data 0 addresses all 16 variants of its ID; an identifier that no
    entry addresses is mapped to its own ID modulo 256 and its own
    data. *)
Theorem filterTable_lookup :
  ∀ (filters : Filters) (unavailable : list (nat * nat)) (fallback : nat * nat)
    (table : Table) (i d : nat),
    _filterTable filters unavailable fallback = Some table →
    i < id_limit → d < 16 →
    filterConversion table i (Some d)
    = Some (match last_write (table_writes filters unavailable fallback) i d with
            | Some v => (v.1 mod 256, v.2 mod 256)
            | None => (i mod 256, d)
            end).
Proof.
  intros filters unavailable fallback table i d H Hi Hd.
  rewrite filterTable_as_writes in H.
  rewrite (assign_filters_lookup _ _ _ i d table_of_indices_wf H Hd).
  destruct (last_write _ i d); [done|].
  by apply table_of_indices_lookup.
Qed.

(** X14, on a sample: (5, 3) is unavailable and the source of a filter;
    the filter, which is applied later, decides. *)
Lemma filterTable_lookup_witness :
  ∃ table,
    _filterTable [((5, 3), (300, 2))] [(5, 0); (5, 3)] (35, 0) = Some table
    ∧ filterConversion table 5 (Some 3) = Some (300 mod 256, 2 mod 256)
    ∧ filterConversion table 5 (Some 4) = Some (35 mod 256, 0 mod 256)
    ∧ filterConversion table 6 (Some 3) = Some (6 mod 256, 3).
Proof.
  destruct (_filterTable [((5, 3), (300, 2))] [(5, 0); (5, 3)] (35, 0))
    as [table|] eqn:H.
  - exists table. split; [done|].
    assert (5 < id_limit) as H5 by (apply id_limit_gt; lia).
    assert (6 < id_limit) as H6 by (apply id_limit_gt; lia).
    split; [|split].
    + apply (filterTable_lookup _ _ _ table 5 3 H H5). lia.
    + apply (filterTable_lookup _ _ _ table 5 4 H H5). lia.
    + apply (filterTable_lookup _ _ _ table 6 3 H H6). lia.
  - exfalso. rewrite filterTable_as_writes in H.
    apply eq_None_not_Some in H. apply H.
    apply (assign_filters_is_Some _ _ table_of_indices_wf).
    unfold table_writes. cbn [fmap list_fmap app].
    repeat (apply Forall_cons; split;
            [split; [apply id_limit_gt; simpl; lia|simpl; lia]|]).
    apply Forall_nil_2.
Defined.

(** X16: every pair a built table holds has both components below 256:
    no conversion through a table yields an ID of 256 or more. *)
Theorem filterTable_values_below_256 :
  ∀ (filters : Filters) (unavailable : list (nat * nat)) (fallback : nat * nat)
    (table : Table) (i d : nat) (t : nat * nat),
    _filterTable filters unavailable fallback = Some table →
    d < 16 →
    filterConversion table i (Some d) = Some t →
    t.1 < 256 ∧ t.2 < 256.
Proof.
  intros filters unavailable fallback table i d t H Hd Ht.
  rewrite filterTable_as_writes in H.
  rewrite (assign_filters_lookup _ _ _ i d table_of_indices_wf H Hd) in Ht.
  destruct (last_write _ i d) as [v|].
  - injection Ht as <-. unfold to_uint8_pair, uint8. cbn [fst snd].
    split; apply Nat.mod_upper_bound; lia.
  - destruct (decide (i < id_limit)) as [Hi|Hi].
    + rewrite (table_of_indices_lookup i d Hi Hd) in Ht.
      assert (i mod 256 < 256) as Hmod by (apply Nat.mod_upper_bound; lia).
      injection Ht as <-. split; [exact Hmod|simpl; lia].
    + unfold filterConversion in Ht.
      rewrite (lookup_ge_None_2 table_of_indices i) in Ht; [done|].
      destruct table_of_indices_wf as [-> _]. lia.
Qed.

(** X16, on a sample: the identity table at (4095, 15). *)
Lemma filterTable_values_below_256_witness :
  ∃ table t,
    _filterTable [] [] (0, 0) = Some table
    ∧ filterConversion table 4095 (Some 15) = Some t
    ∧ t.1 < 256 ∧ t.2 < 256.
Proof.
  pose proof (filterTable_empty (0, 0)) as H.
  assert (filterConversion table_of_indices 4095 (Some 15)
          = Some (4095 mod 256, 15)) as Ht.
  { apply table_of_indices_lookup; [apply id_limit_gt; lia|lia]. }
  exists table_of_indices, (4095 mod 256, 15).
  refine (conj H (conj Ht _)).
  apply (filterTable_values_below_256 [] [] (0, 0) table_of_indices 4095 15
           _ H); [lia|exact Ht].
Defined.

(** * Further properties of the resolver *)

Lemma first_block_in (test : Block → option bool) (blocks : list Block)
    (b : Block) :
  first_block test blocks = Some (Some b) → b ∈ blocks.
Proof.
  induction blocks as [|x blocks IH]; [discriminate|]. simpl.
  destruct (test x) as [[]|]; simpl; [|by right; apply IH|discriminate].
  intros [= <-]. by left.
Qed.

(** A block the resolver chooses is a known block of the destination. *)
Lemma guess_block_in (matsFrom matsTo : MCMaterials)
    (byName : gmap string Block) (fromBlock b : Block) :
  wf matsTo → toByName matsTo = Some byName →
  guess_block matsFrom matsTo byName fromBlock = Some (Some b) →
  b ∈ allBlocks matsTo.
Proof.
  intros Hwf HbyName. destruct (toByName_spec _ Hwf) as (byName' & H' & Hspec).
  rewrite HbyName in H'. injection H' as <-.
  assert (Hdict : ∀ n b0, byName !! n = Some b0 → b0 ∈ allBlocks matsTo).
  { intros n b0 Hb0. destruct (Hspec n) as [[Hn _]|(b1 & Hb1 & Hin & _)];
      congruence. }
  unfold guess_block. destruct (Block_name matsFrom fromBlock) as [n|];
    [|discriminate].
  cbn [mbind option_bind].
  destruct (byName !! n) as [b0|] eqn:E0; cbn [or_search mbind option_bind].
  { intros [= <-]. by eapply Hdict. }
  destruct (first_block (name_startswith matsTo n) (allBlocks matsTo))
    as [[b1|]|] eqn:E1; cbn [or_search mbind option_bind]; [| |discriminate].
  { intros [= <-]. by eapply first_block_in. }
  destruct (first_block (name_contains matsTo n) (allBlocks matsTo))
    as [[b2|]|] eqn:E2; cbn [or_search mbind option_bind]; [| |discriminate].
  { intros [= <-]. by eapply first_block_in. }
  destruct (first_block (aka_contains matsTo n) (allBlocks matsTo))
    as [[b3|]|] eqn:E3; cbn [or_search mbind option_bind]; [| |discriminate].
  { intros [= <-]. by eapply first_block_in. }
  unfold special_case.
  destruct (String.eqb "Indigo Wool" n); [intros [= H]; by eapply Hdict|].
  destruct (String.eqb "Violet Wool" n); [|discriminate].
  intros [= H]. by eapply Hdict.
Qed.

(** X18: on every pair of registry states [guessFilterTable] returns, and
    it decides every known source block: a filter never maps an
    identifier to itself, its source is the identifier of a known source
    block and its destination the identifier of a known destination
    block; an unavailable identifier is the identifier of a known source
    block and is the source of no filter; and every known source block is
    unavailable, or the source of a filter, or has the identifier of a
    known destination block. *)
Theorem guessFilterTable_decides_every_block :
  ∀ (dnS : string) (opsS : list Op) (src : MCMaterials)
    (dnD : string) (opsD : list Op) (dst : MCMaterials),
    build dnS opsS = Some src → build dnD opsD = Some dst →
    ∃ filters unavailable,
      guessFilterTable src dst = Some (filters, unavailable)
      ∧ (∀ f t, (f, t) ∈ filters →
                f ≠ t
                ∧ (∃ fb, fb ∈ allBlocks src ∧ Block_key fb = f)
                ∧ (∃ b, b ∈ allBlocks dst ∧ Block_key b = t)
                ∧ f ∉ unavailable)
      ∧ (∀ k, k ∈ unavailable → ∃ fb, fb ∈ allBlocks src ∧ Block_key fb = k)
      ∧ (∀ fb, fb ∈ allBlocks src →
               Block_key fb ∈ unavailable
               ∨ (∃ t, (Block_key fb, t) ∈ filters)
               ∨ (∃ b, b ∈ allBlocks dst ∧ Block_key b = Block_key fb)).
Proof.
  intros dnS opsS src dnD opsD dst Hsrc Hdst.
  pose proof (build_wf _ _ _ Hsrc) as HwfS.
  pose proof (build_wf _ _ _ Hdst) as HwfD.
  destruct (guessFilterTable_spec src dst HwfS HwfD)
    as (byName & f & u & HbyName & Hguess & Hf & Hu).
  exists f, u. split; [done|]. split; [|split].
  - intros k t (fb & b & Hfb & Hg & Hne & Hpair)%Hf.
    apply pair_equal_spec in Hpair as [-> ->].
    split; [congruence|]. split; [by exists fb|]. split.
    + exists b. split; [|done]. by eapply guess_block_in.
    + intros (fb' & Hfb' & Hg' & Hkey)%Hu.
      rewrite (guess_block_key src dst byName fb fb') in Hg by done.
      congruence.
  - intros k (fb & Hfb & _ & ->)%Hu. by exists fb.
  - intros fb Hfb.
    pose proof (wf_allBlocks _ HwfS) as Hall. rewrite Forall_forall in Hall.
    destruct (Hall _ Hfb) as [Hi Hd].
    destruct (guess_block_Some src dst byName fb HwfS HwfD Hi Hd)
      as [[b|] Hg].
    + destruct (decide (Block_key b = Block_key fb)) as [Heq|Hne].
      * right. right. exists b. split; [|done]. by eapply guess_block_in.
      * right. left. exists (Block_key b). apply Hf. by exists fb, b.
    + left. apply Hu. by exists fb.
Qed.

(** X18, on a sample: Violet Wool (31, 0) against a destination with
    Purple Wool (35, 10). *)
Lemma guessFilterTable_decides_every_block_witness :
  ∃ filters unavailable,
    guessFilterTable (built "Unused Block" old_wool)
      (built "Future Block!" alpha_wool) = Some (filters, unavailable)
    ∧ ∀ f t, (f, t) ∈ filters → f ≠ t.
Proof.
  destruct (guessFilterTable_decides_every_block
              "Unused Block" old_wool (built "Unused Block" old_wool)
              "Future Block!" alpha_wool (built "Future Block!" alpha_wool))
    as (filters & unavailable & H & Hf & _).
  { apply build_built. unfold old_wool. ops_ok. }
  { apply build_built. unfold alpha_wool. ops_ok. }
  exists filters, unavailable. split; [exact H|].
  intros f t Hin. exact (proj1 (Hf f t Hin)).
Defined.

(** X19: on every pair of registry states in which every known source
    block has the name of some known destination block, [guessFilterTable]
    records nothing as unavailable; in particular nothing is unavailable
    when a registry is resolved against itself. *)
Theorem guessFilterTable_names_present :
  ∀ (dnS : string) (opsS : list Op) (src : MCMaterials)
    (dnD : string) (opsD : list Op) (dst : MCMaterials),
    build dnS opsS = Some src → build dnD opsD = Some dst →
    Forall (λ fb, ∃ b, b ∈ allBlocks dst
                       ∧ Block_name dst b = Block_name src fb)
      (allBlocks src) →
    (∃ filters, guessFilterTable src dst = Some (filters, []))
    ∧ ∃ filters, guessFilterTable dst dst = Some (filters, []).
Proof.
  assert (Hgen : ∀ src dst, wf src → wf dst →
            Forall (λ fb, ∃ b, b ∈ allBlocks dst
                               ∧ Block_name dst b = Block_name src fb)
              (allBlocks src) →
            ∃ filters, guessFilterTable src dst = Some (filters, [])).
  { intros src dst HwfS HwfD Hnames.
    destruct (guessFilterTable_spec src dst HwfS HwfD)
      as (byName & f & u & HbyName & Hguess & Hf & Hu).
    destruct (toByName_spec dst HwfD) as (byName' & H' & Hspec).
    rewrite HbyName in H'. injection H' as <-.
    exists f. rewrite Hguess. do 2 f_equal.
    apply elem_of_nil_inv. intros k (fb & Hfb & Hg & _)%Hu.
    rewrite Forall_forall in Hnames.
    destruct (Hnames _ Hfb) as (b & Hb & Hname).
    pose proof (wf_allBlocks _ HwfS) as Hall. rewrite Forall_forall in Hall.
    destruct (Hall _ Hfb) as [Hi Hd].
    destruct (resolve_in_range _ _ HwfS Hi Hd) as ([n Hn] & _).
    rewrite Hn in Hname.
    destruct (Hspec n) as [[_ Hnone]|(b0 & Hb0 & _)].
    - rewrite Forall_forall in Hnone. by destruct (Hnone _ Hb).
    - rewrite (guess_block_exact src dst byName fb b0 n Hn Hb0) in Hg.
      discriminate. }
  intros dnS opsS src dnD opsD dst Hsrc Hdst Hnames.
  pose proof (build_wf _ _ _ Hsrc) as HwfS.
  pose proof (build_wf _ _ _ Hdst) as HwfD.
  split; [by apply Hgen|]. apply Hgen; [done..|].
  apply Forall_forall. intros fb Hfb. by exists fb.
Qed.

(** X19, on a sample: a source with one Stone against a destination with
    two. *)
Lemma guessFilterTable_names_present_witness :
  ∃ filters,
    guessFilterTable (built "Unused Block" [OpAddBlock 5 0 (kw_named "Stone")])
      (built "Unused Block" two_stones) = Some (filters, []).
Proof.
  refine (proj1 (guessFilterTable_names_present
              "Unused Block" [OpAddBlock 5 0 (kw_named "Stone")] _
              "Unused Block" two_stones _ _ _ _)).
  - apply build_built. ops_ok.
  - apply build_built. unfold two_stones. ops_ok.
  - assert (allBlocks (built "Unused Block" [OpAddBlock 5 0 (kw_named "Stone")])
            = [mkBlock 0 0 EmptyString; mkBlock 5 0 EmptyString]) as ->
      by (vm_compute; reflexivity).
    apply Forall_cons. split; [|apply Forall_cons; split; [|apply Forall_nil_2]].
    + exists (mkBlock 0 0 EmptyString). split.
      * rewrite allBlocks_two_stones. repeat constructor.
      * vm_compute. reflexivity.
    + exists (mkBlock 1 0 EmptyString). split.
      * rewrite allBlocks_two_stones. repeat constructor.
      * vm_compute. reflexivity.
Defined.

Lemma prefix_refl (s : string) : String.prefix s s = true.
Proof.
  induction s as [|c s IH]; [done|]. simpl.
  by destruct (ascii_dec c c).
Qed.

Lemma contains_false_prefix (needle hay : string) :
  PyStr.contains needle hay = false → String.prefix needle hay = false.
Proof.
  destruct hay; simpl; intros H; by apply orb_false_iff in H as [H _].
Qed.

(** X20: on every pair of registry states, a known source block whose
    name is neither "Indigo Wool" nor "Violet Wool" and occurs in no name
    and in no alias of a known destination block is recorded as
    unavailable, and no filter is recorded for its identifier. *)
Theorem guessFilterTable_no_match :
  ∀ (dnS : string) (opsS : list Op) (src : MCMaterials)
    (dnD : string) (opsD : list Op) (dst : MCMaterials)
    (fromBlock : Block) (n : string),
    build dnS opsS = Some src → build dnD opsD = Some dst →
    fromBlock ∈ allBlocks src →
    Block_name src fromBlock = Some n →
    n ≠ "Indigo Wool"%string → n ≠ "Violet Wool"%string →
    Forall (λ b, name_contains dst n b = Some false) (allBlocks dst) →
    Forall (λ b, aka_contains dst n b = Some false) (allBlocks dst) →
    ∃ filters unavailable,
      guessFilterTable src dst = Some (filters, unavailable)
      ∧ Block_key fromBlock ∈ unavailable
      ∧ ∀ t, (Block_key fromBlock, t) ∉ filters.
Proof.
  intros dnS opsS src dnD opsD dst fromBlock n Hsrc Hdst Hin Hname
    Hindigo Hviolet Hsub Haka.
  pose proof (build_wf _ _ _ Hsrc) as HwfS.
  pose proof (build_wf _ _ _ Hdst) as HwfD.
  destruct (guessFilterTable_spec src dst HwfS HwfD)
    as (byName & f & u & HbyName & Hguess & Hf & Hu).
  destruct (toByName_spec dst HwfD) as (byName' & H' & Hspec).
  rewrite HbyName in H'. injection H' as <-.
  assert (Hprefix : Forall (λ b, name_startswith dst n b = Some false)
                      (allBlocks dst)).
  { eapply Forall_impl; [exact Hsub|]. intros b Hb.
    unfold name_contains, name_startswith in *.
    destruct (Block_name dst b) as [nb|]; [|discriminate].
    cbn [mbind option_bind] in *. injection Hb as Hb.
    unfold PyStr.startswith. by rewrite (contains_false_prefix _ _ Hb). }
  assert (Hexact : byName !! n = None).
  { destruct (Hspec n) as [[Hn _]|(b0 & _ & Hb0 & Hn0 & _)]; [done|].
    rewrite Forall_forall in Hprefix. specialize (Hprefix _ Hb0).
    unfold name_startswith in Hprefix. rewrite Hn0 in Hprefix.
    cbn [mbind option_bind] in Hprefix. unfold PyStr.startswith in Hprefix.
    rewrite prefix_refl in Hprefix. discriminate. }
  assert (Hchosen : guess_block src dst byName fromBlock = Some None).
  { unfold guess_block. rewrite Hname. cbn [mbind option_bind].
    rewrite Hexact. cbn [or_search].
    rewrite (first_block_none _ _ Hprefix). cbn [mbind option_bind or_search].
    rewrite (first_block_none _ _ Hsub). cbn [mbind option_bind or_search].
    rewrite (first_block_none _ _ Haka). cbn [mbind option_bind or_search].
    unfold special_case.
    destruct (String.eqb_spec "Indigo Wool" n) as [<-|_]; [done|].
    by destruct (String.eqb_spec "Violet Wool" n) as [<-|_]. }
  exists f, u. split; [done|]. split.
  - apply Hu. by exists fromBlock.
  - intros t (fb & b & Hfb & Hg & Hne & Hpair)%Hf.
    apply pair_equal_spec in Hpair as [Hkey ->].
    rewrite (guess_block_key src dst byName fb fromBlock) in Hg by done.
    congruence.
Qed.

(** X20, on a sample: Stone (5, 0) against a destination that holds Air
    and two kinds of wool. *)
Lemma guessFilterTable_no_match_witness :
  ∃ filters unavailable,
    guessFilterTable (built "Unused Block" [OpAddBlock 5 0 (kw_named "Stone")])
      (built "Future Block!" alpha_wool) = Some (filters, unavailable)
    ∧ (5, 0) ∈ unavailable.
Proof.
  destruct (guessFilterTable_no_match
              "Unused Block" [OpAddBlock 5 0 (kw_named "Stone")]
              (built "Unused Block" [OpAddBlock 5 0 (kw_named "Stone")])
              "Future Block!" alpha_wool (built "Future Block!" alpha_wool)
              (mkBlock 5 0 EmptyString) "Stone"%string)
    as (filters & unavailable & H1 & H2 & _).
  { apply build_built. ops_ok. }
  { apply build_built. unfold alpha_wool. ops_ok. }
  { assert (allBlocks (built "Unused Block" [OpAddBlock 5 0 (kw_named "Stone")])
            = [mkBlock 0 0 EmptyString; mkBlock 5 0 EmptyString]) as ->
      by (vm_compute; reflexivity).
    repeat constructor. }
  { vm_compute. reflexivity. }
  { discriminate. }
  { discriminate. }
  { rewrite allBlocks_alpha_wool.
    repeat (apply Forall_cons; split); [..|apply Forall_nil_2];
      vm_compute; reflexivity. }
  { rewrite allBlocks_alpha_wool.
    repeat (apply Forall_cons; split); [..|apply Forall_nil_2];
      vm_compute; reflexivity. }
  exists filters, unavailable. exact (conj H1 H2).
Defined.

(** * Further properties of the conversion cache *)

(** X21: when [conversionFunc(destMats, sourceMats)] returns, the registry
    objects are as before, every cache entry of another ordered pair is as
    before, the resolver was run at most once, and only if the pair was
    not cached; asking again for the same pair returns the same function
    and leaves the state, the trace of resolver runs included, as it
    is. *)
Theorem conversionFunc_caches :
  ∀ (st : Module_state) (destMats sourceMats : nat) (func : ConversionFunc)
    (st' : Module_state),
    conversionFunc st destMats sourceMats = Some (func, st') →
    conversionFunc st' destMats sourceMats = Some (func, st')
    ∧ registries st' = registries st
    ∧ (∀ k, k ≠ (destMats, sourceMats) →
            _conversionFuncs st' !! k = _conversionFuncs st !! k)
    ∧ (destMats ≠ sourceMats →
       _conversionFuncs st' !! (destMats, sourceMats) = Some func)
    ∧ (resolver_runs st' = resolver_runs st
       ∨ (resolver_runs st' = resolver_runs st ++ [(sourceMats, destMats)]
          ∧ _conversionFuncs st !! (destMats, sourceMats) = None)).
Proof.
  intros st d s func st' H. unfold conversionFunc in H.
  destruct (bool_decide (d = s)) eqn:Eds.
  { injection H as <- <-. apply bool_decide_eq_true in Eds.
    unfold conversionFunc. rewrite bool_decide_eq_true_2 by done.
    repeat split; try done. by left. }
  apply bool_decide_eq_false in Eds.
  destruct (_conversionFuncs st !! (d, s)) as [cached|] eqn:Ecache.
  { injection H as <- <-. unfold conversionFunc.
    rewrite bool_decide_eq_false_2 by done. rewrite Ecache.
    repeat split; try done. by left. }
  destruct (registries st !! s) as [source|]; [|discriminate].
  cbn [mbind option_bind] in H.
  destruct (registries st !! d) as [dest|]; [|discriminate].
  cbn [mbind option_bind] in H.
  destruct (guessFilterTable source dest) as [[filters unavailable]|];
    [|discriminate].
  cbn [mbind option_bind] in H.
  destruct (mats_name source); [|discriminate]. cbn [mbind option_bind] in H.
  destruct (mats_name dest); [|discriminate]. cbn [mbind option_bind] in H.
  destruct (mapM _ filters); [|discriminate]. cbn [mbind option_bind] in H.
  destruct (mapM _ unavailable); [|discriminate].
  cbn [mbind option_bind] in H.
  destruct (_filterTable filters unavailable (35, 0)) as [table|];
    [|discriminate].
  cbn [mbind option_bind] in H. injection H as <- <-.
  unfold conversionFunc. cbn [_conversionFuncs registries resolver_runs].
  rewrite bool_decide_eq_false_2 by done. rewrite lookup_insert_eq.
  split; [done|]. split; [done|]. split.
  { intros k Hk. by rewrite lookup_insert_ne. }
  split; [done|]. by right.
Qed.

Lemma allBlocks_set_name (m : MCMaterials) (name : string) :
  allBlocks (set_name m name) = allBlocks m.
Proof. done. Qed.

(** X22: when the two registries of a pair are different objects, each a
    registry state with a name, and the pair is not cached,
    [conversionFunc] returns: it runs the resolver once, builds the table
    from the resolver's result with the fallback (35, 0), returns its
    [convert] closure and stores it under the ordered pair. *)
Theorem conversionFunc_builds_table :
  ∀ (st : Module_state) (destMats sourceMats : nat)
    (dnS : string) (opsS : list Op) (source : MCMaterials)
    (dnD : string) (opsD : list Op) (dest : MCMaterials),
    destMats ≠ sourceMats →
    registries st !! sourceMats = Some source →
    registries st !! destMats = Some dest →
    build dnS opsS = Some source → build dnD opsD = Some dest →
    is_Some (mats_name source) → is_Some (mats_name dest) →
    _conversionFuncs st !! (destMats, sourceMats) = None →
    ∃ filters unavailable table,
      guessFilterTable source dest = Some (filters, unavailable)
      ∧ _filterTable filters unavailable (35, 0) = Some table
      ∧ conversionFunc st destMats sourceMats
        = Some (ConvFilter table,
                {| registries := registries st;
                   _conversionFuncs :=
                     <[(destMats, sourceMats) := ConvFilter table]>
                       (_conversionFuncs st);
                   resolver_runs :=
                     resolver_runs st ++ [(sourceMats, destMats)] |}).
Proof.
  intros st d s dnS opsS source dnD opsD dest Hne Hs Hd Hsrc Hdst
    [ns Hns] [nd Hnd] Hcache.
  pose proof (build_wf _ _ _ Hsrc) as HwfS.
  pose proof (build_wf _ _ _ Hdst) as HwfD.
  destruct (guessFilterTable_spec source dest HwfS HwfD)
    as (byName & f & u & HbyName & Hguess & Hf & Hu).
  assert (HinS : ∀ fb, fb ∈ allBlocks source →
                       (Block_key fb).1 < id_limit ∧ (Block_key fb).2 < 16).
  { intros fb Hfb. pose proof (wf_allBlocks _ HwfS) as Hall.
    rewrite Forall_forall in Hall. by apply Hall. }
  assert (HinD : ∀ b, b ∈ allBlocks dest →
                      (Block_key b).1 < id_limit ∧ (Block_key b).2 < 16).
  { intros b Hb. pose proof (wf_allBlocks _ HwfD) as Hall.
    rewrite Forall_forall in Hall. by apply Hall. }
  assert (Hres : ∀ m k, wf m → k.1 < id_limit → k.2 < 16 →
                        is_Some (Block_name m (blockWithID m k.1 k.2))).
  { intros m k Hwf Hi Hk. destruct (blockWithID_ID m k.1 k.2 Hwf) as [HID HD].
    apply resolve_in_range; [done|by rewrite HID|by rewrite HD]. }
  assert (Hfkeys : ∀ e, e ∈ f →
            (e.1.1 < id_limit ∧ e.1.2 < 16) ∧ (e.2.1 < id_limit ∧ e.2.2 < 16)).
  { intros e (fb & b & Hfb & Hg & _ & ->)%Hf. split; [by apply HinS|].
    apply HinD. by eapply guess_block_in. }
  assert (Hukeys : ∀ k, k ∈ u → k.1 < id_limit ∧ k.2 < 16).
  { intros k (fb & Hfb & _ & ->)%Hu. by apply HinS. }
  destruct (mapM_is_Some_2
              (λ ab : (nat * nat) * (nat * nat),
                 a ← Block_name source (blockWithID source ab.1.1 ab.1.2);
                 b ← Block_name dest (blockWithID dest ab.2.1 ab.2.2);
                 Some (a, b)) f) as [lf Hlf].
  { apply Forall_forall. intros e He. destruct (Hfkeys e He) as [[? ?] [? ?]].
    simpl. destruct (Hres source e.1 HwfS) as [a ->]; [done..|].
    destruct (Hres dest e.2 HwfD) as [b ->]; [done..|]. by eexists. }
  destruct (mapM_is_Some_2
              (λ a : nat * nat,
                 Block_name source (blockWithID source a.1 a.2)) u)
    as [lu Hlu].
  { apply Forall_forall. intros k Hk. destruct (Hukeys k Hk).
    simpl. by apply Hres. }
  assert (is_Some (_filterTable f u (35, 0))) as [table Htable].
  { rewrite filterTable_as_writes.
    apply (assign_filters_is_Some _ _ table_of_indices_wf).
    unfold table_writes. apply Forall_app. split.
    - apply Forall_fmap, Forall_forall. intros k Hk. by apply Hukeys.
    - apply Forall_forall. intros e He. by apply Hfkeys. }
  exists f, u, table. split; [done|]. split; [done|].
  unfold conversionFunc. rewrite bool_decide_eq_false_2 by done.
  rewrite Hcache, Hs. cbn [mbind option_bind]. rewrite Hd.
  cbn [mbind option_bind]. rewrite Hguess. cbn [mbind option_bind].
  rewrite Hns, Hnd. cbn [mbind option_bind]. rewrite Hlf.
  cbn [mbind option_bind]. rewrite Hlu. cbn [mbind option_bind].
  rewrite Htable. done.
Qed.

Lemma run_ops_app (ops1 ops2 : list Op) :
  ∀ m, run_ops m (ops1 ++ ops2) = run_ops m ops1 ≫= λ m', run_ops m' ops2.
Proof.
  induction ops1 as [|[i d kw|n] ops1 IH]; intros m; [done| |].
  - cbn [app run_ops]. destruct (addBlock m i d kw) as [[m1 b]|]; [|done].
    cbn [mbind option_bind fst]. apply IH.
  - cbn [app run_ops]. apply IH.
Qed.

Lemma build_app (dn : string) (ops1 ops2 : list Op) :
  build dn (ops1 ++ ops2) = build dn ops1 ≫= λ m, run_ops m ops2.
Proof.
  unfold build. destruct (MCMaterials_init dn) as [m0|]; [|done].
  cbn [mbind option_bind]. apply run_ops_app.
Qed.

Lemma build_set_name (dn : string) (ops : list Op) (name : string) :
  Forall op_ok ops →
  build dn (ops ++ [OpSetName name]) = Some (set_name (built dn ops) name).
Proof.
  intros Hok. rewrite build_app, (build_built dn ops Hok). reflexivity.
Qed.

(** X22, on the sample state: the conversion from the registry at address
    1 to the registry at address 0. *)
Lemma conversionFunc_builds_table_witness :
  ∃ table st',
    conversionFunc sample_state 0 1 = Some (ConvFilter table, st')
    ∧ resolver_runs st' = [(1, 0)].
Proof.
  destruct (conversionFunc_builds_table sample_state 0 1
              "Unused Block" (old_wool ++ [OpSetName "Classic"])
              (set_name (built "Unused Block" old_wool) "Classic")
              "Future Block!" (alpha_wool ++ [OpSetName "Alpha"])
              (set_name (built "Future Block!" alpha_wool) "Alpha"))
    as (filters & unavailable & table & _ & _ & H).
  { lia. }
  { reflexivity. }
  { reflexivity. }
  { apply build_set_name. unfold old_wool. ops_ok. }
  { apply build_set_name. unfold alpha_wool. ops_ok. }
  { by eexists. }
  { by eexists. }
  { reflexivity. }
  eexists table, _. split; [exact H|]. reflexivity.
Defined.

(** The sample request returns (by evaluation). *)
Lemma sample_conversion_returns :
  match conversionFunc sample_state 0 1 with Some _ => true | None => false end
  = true.
Proof. vm_compute. reflexivity. Qed.

(** X21, on the sample state: the second request for the pair (0, 1), and
    the reverse pair, which stays uncached. *)
Lemma conversionFunc_caches_witness :
  ∃ func st',
    conversionFunc sample_state 0 1 = Some (func, st')
    ∧ conversionFunc st' 0 1 = Some (func, st')
    ∧ _conversionFuncs st' !! (1, 0) = None.
Proof.
  pose proof sample_conversion_returns as Hret.
  destruct (conversionFunc sample_state 0 1) as [[func st']|] eqn:H;
    [|discriminate Hret].
  destruct (conversionFunc_caches _ _ _ _ _ H) as (H1 & _ & H3 & _).
  exists func, st'. refine (conj eq_refl (conj H1 _)).
  rewrite (H3 (1, 0)) by (intros [= ? ?]; lia). reflexivity.
Defined.

(** * The order of blocks *)

(** X24: two blocks compare equal exactly when they have the same ID and
    the same data, whatever their [stringID]; and comparing them the other
    way round gives the opposite result. *)
Theorem Block_cmp_key :
  ∀ a b : Block,
    (Block_cmp a b = Eq ↔ Block_key a = Block_key b)
    ∧ Block_cmp b a = CompOpp (Block_cmp a b).
Proof.
  intros a b. unfold Block_cmp, Block_key. split.
  - destruct (Nat.compare_spec (ID a) (ID b)) as [->| |].
    + rewrite Nat.compare_eq_iff. split; [by intros ->|by intros [= ->]].
    + split; [done|intros [= ? ?]; lia].
    + split; [done|intros [= ? ?]; lia].
  - rewrite (Nat.compare_antisym (ID a) (ID b)).
    rewrite (Nat.compare_antisym (blockData a) (blockData b)).
    by destruct (ID a ?= ID b).
Qed.

(** * The rotation on lists of any length *)

(** X25: [rot90cw] returns exactly on texture lists of at least six faces,
    and what it returns has six faces: the faces beyond the sixth are
    dropped. *)
Theorem rot90cw_length :
  ∀ (A : Type) (texture : list A),
    (is_Some (rot90cw texture) ↔ 6 ≤ length texture)
    ∧ ∀ texture', rot90cw texture = Some texture' → length texture' = 6.
Proof.
  intros A texture. split.
  - split.
    + intros [r Hr]. destruct (decide (6 ≤ length texture)); [done|].
      rewrite rot90cw_short in Hr by lia. discriminate.
    + intros Hlen. unfold rot90cw, rot. cbn [mapM].
      destruct (lookup_lt_is_Some_2 texture 5) as [t5 ->]; [lia|].
      destruct (lookup_lt_is_Some_2 texture 0) as [t0 ->]; [lia|].
      destruct (lookup_lt_is_Some_2 texture 2) as [t2 ->]; [lia|].
      destruct (lookup_lt_is_Some_2 texture 3) as [t3 ->]; [lia|].
      destruct (lookup_lt_is_Some_2 texture 4) as [t4 ->]; [lia|].
      destruct (lookup_lt_is_Some_2 texture 1) as [t1 ->]; [lia|].
      by eexists.
  - intros texture' H. apply length_mapM in H. by rewrite <- H.
Qed.

(** * Conversion of arrays *)

(** The length of a broadcast: the length of [blocks] when [data] is
    [None] or as long as [blocks]. *)
Lemma broadcast_indices_length (blocks : list nat) (data : option (list nat))
    (pairs : list (nat * nat)) :
  broadcast_indices blocks data = Some pairs →
  (∀ l, data = Some l → length l = length blocks) →
  length pairs = length blocks.
Proof.
  intros H Hlen. destruct data as [l|]; cbn [broadcast_indices] in H.
  - specialize (Hlen l eq_refl).
    rewrite <- Hlen, Nat.eqb_refl in H. injection H as <-.
    rewrite length_zip_with. lia.
  - injection H as <-. by rewrite length_fmap.
Qed.

Lemma filterConversion_arrays_inv (table : Table) (blocks : list nat)
    (data : option (list nat)) (bs ds : list nat) :
  filterConversion_arrays table blocks data = Some (bs, ds) →
  ∃ pairs ts,
    broadcast_indices blocks data = Some pairs
    ∧ mapM (λ bd, filterConversion table bd.1 (Some bd.2)) pairs = Some ts
    ∧ bs = fst <$> ts ∧ ds = snd <$> ts.
Proof.
  unfold filterConversion_arrays. intros H.
  destruct (broadcast_indices blocks data) as [pairs|]; [|discriminate].
  cbn [mbind option_bind] in H.
  destruct (mapM _ pairs) as [ts|] eqn:Hts; [|discriminate].
  cbn [mbind option_bind] in H. injection H as <- <-. by exists pairs, ts.
Qed.



(** * The batch entry point *)

(** X23: when [convertBlocks] returns for a data array that is [None] or
    as long as the ID array, the ID array it returns has the length of the
    ID array it was given, and so has the data array it returns when that
    is not [None]; for one and the same registry object it returns the two
    arguments themselves and leaves the module state, cache and trace of
    resolver runs included, as it is. *)
Theorem convertBlocks_same_length :
  ∀ (st : Module_state) (destMats sourceMats : nat) (blocks : list nat)
    (blockData : option (list nat)) (bs : list nat) (ds : option (list nat))
    (st' : Module_state),
    convertBlocks st destMats sourceMats blocks blockData
    = Some ((bs, ds), st') →
    ((∀ l, blockData = Some l → length l = length blocks) →
     length bs = length blocks
     ∧ ∀ data, ds = Some data → length data = length blocks)
    ∧ (destMats = sourceMats → bs = blocks ∧ ds = blockData ∧ st' = st).
Proof.
  intros st d s blocks blockData bs ds st' H. unfold convertBlocks in H.
  destruct (bool_decide (s = d)) eqn:E.
  { injection H as <- <- <-. split; [|done]. intros Hlen. split; [done|].
    intros data ->. by apply Hlen. }
  apply bool_decide_eq_false in E. split; [|by intros ->].
  intros Hlen.
  destruct (conversionFunc st d s) as [[func st1]|]; [|discriminate].
  cbn [mbind option_bind fst snd] in H.
  destruct (call_conversion_arrays func blocks blockData) as [r|] eqn:Hcall;
    [|discriminate].
  cbn [mbind option_bind] in H. injection H as -> <-.
  destruct func as [|table]; cbn [call_conversion_arrays] in Hcall.
  - injection Hcall as <- <-. split; [done|]. intros data ->. by apply Hlen.
  - destruct (filterConversion_arrays table blocks blockData) as [[rb rd]|]
      eqn:Hr; [|discriminate].
    cbn [mbind option_bind fst snd] in Hcall. injection Hcall as <- <-.
    destruct (filterConversion_arrays_inv _ _ _ _ _ Hr)
      as (pairs & ts & Hpairs & Hts & -> & ->).
    apply length_mapM in Hts.
    pose proof (broadcast_indices_length _ _ _ Hpairs Hlen) as Hp.
    rewrite length_fmap. split; [lia|].
    intros data [= <-]. rewrite length_fmap. lia.
Qed.

(** X23, on the sample state: three identifiers of the registry at address
    1 converted into the registry at address 0. *)
Lemma convertBlocks_same_length_witness :
  ∃ bs ds st',
    convertBlocks sample_state 0 1 [31; 0; 31] None = Some ((bs, ds), st')
    ∧ length bs = 3.
Proof.
  assert (match convertBlocks sample_state 0 1 [31; 0; 31] None with
          | Some _ => true
          | None => false
          end = true) as Hret by (vm_compute; reflexivity).
  destruct (convertBlocks sample_state 0 1 [31; 0; 31] None)
    as [[[bs ds] st']|] eqn:H; [|discriminate Hret].
  exists bs, ds, st'. split; [reflexivity|].
  destruct (convertBlocks_same_length _ _ _ _ _ _ _ _ H) as [Hlen _].
  assert (∀ l : list nat, None = Some l → length l = 3) as Hnone
    by (intros l Hl; discriminate Hl).
  exact (proj1 (Hlen Hnone)).
Defined.

(** * Calls that return *)

Lemma kw_fits_empty : kw_fits kw_empty.
Proof. by repeat split. Qed.

Lemma kw_fits_stone : kw_fits stone_kw.
Proof.
  unfold kw_fits, fits_long. cbn [stone_kw kw_brightness kw_opacity kw_mapcolor
                                    kw_texture from_option].
  split; [lia|]. split; [lia|]. split; [|done].
  repeat (apply Forall_cons; split; [lia|]). apply Forall_nil_2.
Qed.

(** X1: in every registry state, an [addBlock] call with accepted keywords
    whose integers fit a C [long] returns exactly when its ID is below
    [id_limit] and its data below 16; otherwise it raises. *)
Theorem addBlock_returns_iff_in_range :
  ∀ (dn : string) (ops : list Op) (m : MCMaterials) (blockID blockData : nat)
    (kw : BlockKw),
    build dn ops = Some m → kw_ok kw → kw_fits kw →
    (is_Some (addBlock m blockID blockData kw)
     ↔ blockID < id_limit ∧ blockData < 16).
Proof.
  intros dn ops m i d kw Hm Hkw _. pose proof (build_wf _ _ _ Hm) as Hwf. split.
  - by apply addBlock_in_range.
  - intros [Hi Hd].
    destruct (addBlock_Some m i d kw Hwf Hi Hd Hkw) as (m' & b & H).
    rewrite H. by eexists.
Qed.

(** X1, on a sample: the last identifier (4095, 15) is accepted, the ID
    4096 and the data 16 are not. *)
Lemma addBlock_returns_iff_in_range_witness :
  is_Some (addBlock (built "Unused Block" []) 4095 15 stone_kw)
  ∧ addBlock (built "Unused Block" []) 4096 0 kw_empty = None
  ∧ addBlock (built "Unused Block" []) 0 16 kw_empty = None.
Proof.
  assert (build "Unused Block" [] = Some (built "Unused Block" [])) as Hm.
  { apply build_built. constructor. }
  split; [|split].
  - apply (addBlock_returns_iff_in_range _ _ _ 4095 15 stone_kw Hm kw_ok_stone
             kw_fits_stone).
    split; [apply id_limit_gt; lia|lia].
  - apply eq_None_not_Some. intros H.
    apply (addBlock_returns_iff_in_range _ _ _ 4096 0 kw_empty Hm kw_ok_empty
             kw_fits_empty) in H as [H _].
    unfold id_limit in H. lia.
  - apply eq_None_not_Some. intros H.
    apply (addBlock_returns_iff_in_range _ _ _ 0 16 kw_empty Hm kw_ok_empty
             kw_fits_empty) in H as [_ H].
    lia.
Defined.

(** X15: when the fallback and the target of every filter fit a C [long],
    [_filterTable] returns a table exactly when every unavailable key and
    every filter source has its ID below [id_limit] and its data below 16;
    otherwise the assignment of the first key out of range raises. *)
Theorem filterTable_returns_iff_keys_in_range :
  ∀ (filters : Filters) (unavailable : list (nat * nat)) (fallback : nat * nat),
    pair_fits fallback → Forall (λ f, pair_fits f.2) filters →
    (is_Some (_filterTable filters unavailable fallback)
     ↔ Forall key_in_range unavailable
       ∧ Forall (λ f, key_in_range f.1) filters).
Proof.
  intros filters unavailable fallback _ _.
  rewrite filterTable_as_writes.
  rewrite (assign_filters_is_Some _ _ table_of_indices_wf).
  unfold table_writes. rewrite Forall_app, Forall_fmap. done.
Qed.

(** X15, on a sample: one unavailable key and one filter in range are
    accepted; the unavailable key (4096, 0) is not. *)
Lemma filterTable_returns_iff_keys_in_range_witness :
  is_Some (_filterTable [((5, 3), (300, 2))] [(5, 0)] (35, 0))
  ∧ _filterTable [((5, 3), (300, 2))] [(4096, 0)] (35, 0) = None.
Proof.
  assert (pair_fits (35, 0)) as Hfallback.
  { unfold pair_fits, fits_long. cbn [fst snd]. lia. }
  assert (Forall (λ f : (nat * nat) * (nat * nat), pair_fits f.2)
            [((5, 3), (300, 2))]) as Hfilters.
  { apply Forall_cons. split; [|apply Forall_nil_2].
    unfold pair_fits, fits_long. cbn [fst snd]. lia. }
  split.
  - apply (filterTable_returns_iff_keys_in_range _ [(5, 0)] _ Hfallback
             Hfilters).
    split; (apply Forall_cons; split; [|apply Forall_nil_2]);
      (split; [apply id_limit_gt|]; cbn [fst snd]; lia).
  - apply eq_None_not_Some. intros H.
    apply (filterTable_returns_iff_keys_in_range _ [(4096, 0)] _ Hfallback
             Hfilters) in H as [H _].
    apply Forall_cons in H as [[H _] _]. unfold id_limit in H.
    cbn [fst] in H. lia.
Defined.

(** * The token test of the partial-name lookup *)

(** The query token the [while] loop finds occurs in the block token and
    was not used before. *)
Lemma first_unused_spec (v2 : string) (used : list nat) :
  ∀ (spiltNames : list string) (j0 j : nat),
    first_unused spiltNames v2 used j0 = Some j →
    j0 ≤ j ∧ (j ∉ used)
    ∧ ∃ s, spiltNames !! (j - j0) = Some s ∧ PyStr.contains s v2 = true.
Proof.
  induction spiltNames as [|s rest IH]; intros j0 j H; [discriminate|].
  cbn [first_unused] in H.
  destruct (PyStr.contains s v2) eqn:Hs; cbn [andb] in H.
  - destruct (bool_decide (j0 ∈ used)) eqn:Hused; cbn [negb] in H.
    + destruct (IH _ _ H) as (Hle & Hnot & s' & Hs' & Hin).
      split; [lia|]. split; [done|]. exists s'. split; [|done].
      replace (j - j0) with (S (j - S j0)) by lia. done.
    + injection H as <-. apply bool_decide_eq_false in Hused.
      split; [lia|]. split; [done|]. exists s.
      by rewrite Nat.sub_diag.
  - destruct (IH _ _ H) as (Hle & Hnot & s' & Hs' & Hin).
    split; [lia|]. split; [done|]. exists s'. split; [|done].
    replace (j - j0) with (S (j - S j0)) by lia. done.
Qed.

(** The loop over the block tokens records an assignment: after the block
    tokens [pre], the counter is the number of pairs recorded and
    [spiltNamesUsed] lists their query tokens. *)
Lemma count_parts_assignment (spiltNames : list string) :
  ∀ (nameParts pre : list string) (i : nat) (used : list nat)
    (pairs : list (nat * nat)),
    used = pairs.*1 → i = length pairs →
    NoDup pairs.*1 → NoDup pairs.*2 →
    Forall (λ jk : nat * nat,
              jk.2 < length pre
              ∧ ∃ s v2, spiltNames !! jk.1 = Some s
                        ∧ pre !! jk.2 = Some v2
                        ∧ PyStr.contains s v2 = true) pairs →
    ∃ pairs',
      count_parts spiltNames nameParts i used = (length pairs', pairs'.*1)
      ∧ NoDup pairs'.*1 ∧ NoDup pairs'.*2
      ∧ Forall (λ jk : nat * nat,
                  ∃ s v2, spiltNames !! jk.1 = Some s
                          ∧ (pre ++ nameParts) !! jk.2 = Some v2
                          ∧ PyStr.contains s v2 = true) pairs'.
Proof.
  induction nameParts as [|v2 rest IH];
    intros pre i used pairs -> -> Hnd1 Hnd2 Hall.
  - exists pairs. split; [done|]. split; [done|]. split; [done|].
    rewrite app_nil_r. eapply Forall_impl; [exact Hall|].
    intros jk (_ & s & v & ? & ? & ?). by exists s, v.
  - cbn [count_parts].
    assert (Forall (λ jk : nat * nat,
                      jk.2 < length (pre ++ [v2])
                      ∧ ∃ s v, spiltNames !! jk.1 = Some s
                               ∧ (pre ++ [v2]) !! jk.2 = Some v
                               ∧ PyStr.contains s v = true) pairs) as Hall'.
    { eapply Forall_impl; [exact Hall|].
      intros jk (Hlt & s & v & ? & ? & ?). rewrite length_app. split; [lia|].
      exists s, v. split; [done|]. split; [|done].
      by apply lookup_app_l_Some. }
    destruct (first_unused spiltNames v2 pairs.*1 0) as [j|] eqn:Hj.
    + destruct (first_unused_spec _ _ _ _ _ Hj) as (_ & Hnot & s & Hs & Hin).
      rewrite Nat.sub_0_r in Hs.
      destruct (IH (pre ++ [v2]) (length pairs + 1) (pairs.*1 ++ [j])
                  (pairs ++ [(j, length pre)]))
        as (pairs' & Hcount & H1 & H2 & H3).
      * by rewrite fmap_app.
      * rewrite length_app. cbn [length]. lia.
      * rewrite fmap_app. apply NoDup_app. split; [done|].
        split; [|apply NoDup_singleton].
        intros x Hx ->%list_elem_of_singleton. done.
      * rewrite fmap_app. apply NoDup_app. split; [done|].
        split; [|apply NoDup_singleton].
        intros x Hx ->%list_elem_of_singleton.
        apply list_elem_of_fmap in Hx as (jk & Hk & Hjk).
        rewrite Forall_forall in Hall.
        specialize (Hall jk Hjk). cbv beta in Hall.
        destruct Hall as [Hlt _]. cbn [snd] in Hk. lia.
      * apply Forall_app. split; [done|].
        apply Forall_cons. split; [|apply Forall_nil_2]. cbn [fst snd].
        rewrite length_app. cbn [length]. split; [lia|].
        exists s, v2. split; [done|]. split; [|done].
        by apply list_lookup_middle.
      * exists pairs'. rewrite <- (assoc_L (++)) in H3. done.
    + destruct (IH (pre ++ [v2]) (length pairs) pairs.*1 pairs)
        as (pairs' & Hcount & H1 & H2 & H3); try done.
      exists pairs'. rewrite <- (assoc_L (++)) in H3. done.
Qed.

(** A list of [n] distinct numbers below [n] holds every number below
    [n]. *)
Lemma NoDup_below_all (l : list nat) (n : nat) :
  NoDup l → Forall (λ j, j < n) l → length l = n →
  ∀ j, j < n → j ∈ l.
Proof.
  intros Hnd Hlt Hlen j Hj.
  assert (l ⊆+ seq 0 n) as Hsub.
  { apply NoDup_submseteq; [done|]. intros x Hx. apply elem_of_seq.
    rewrite Forall_forall in Hlt. specialize (Hlt x Hx). lia. }
  apply submseteq_length_Permutation in Hsub; [|rewrite length_seq; lia].
  rewrite Hsub. apply elem_of_seq. lia.
Qed.

(** A block that passes the test admits an assignment of all the query
    tokens to its block tokens. *)
Lemma block_matches_assignment (spiltNames : list string)
    (vname vaka : string) :
  block_matches spiltNames vname vaka = true →
  ∃ pairs, token_assignment spiltNames (block_tokens vname vaka) pairs.
Proof.
  unfold block_matches. intros H. apply Nat.eqb_eq in H.
  destruct (count_parts_assignment spiltNames (block_tokens vname vaka)
              [] 0 [] []) as (pairs & Hcount & H1 & H2 & H3);
    try done; try apply NoDup_nil_2.
  fold (block_tokens vname vaka) in H. rewrite Hcount in H. cbn [fst] in H.
  exists pairs. split; [done|]. split; [done|]. split; [|done].
  apply NoDup_below_all; [done| |by rewrite length_fmap].
  apply Forall_fmap. eapply Forall_impl; [exact H3|].
  intros jk (s & v & Hs & _). cbn. by eapply lookup_lt_Some.
Qed.

(** C8 (amended): [blocksMatching] returns in every registry state, and
    it returns exactly the known blocks that pass the token test on their
    name and alias.  A block that passes admits an assignment of the
    query tokens to its block tokens in which every query token occurs in
    its own block token.  A known block whose name is
    "Lapis Lazuli Block" and whose alias is empty is returned for
    "lapis block" and for "Block Lapis", and is not returned for
    "lapis block extra". *)
Theorem blocksMatching_tokens :
  ∀ (dn : string) (ops : list Op) (m : MCMaterials),
    build dn ops = Some m →
    (∀ name, ∃ r,
        blocksMatching m name = Some r
        ∧ ∀ b, b ∈ r ↔
               b ∈ allBlocks m
               ∧ ∃ vname vaka,
                   Block_name m b = Some vname ∧ Block_aka m b = Some vaka
                   ∧ block_matches (PyStr.split (PyStr.lower name))
                       vname vaka = true)
    ∧ (∀ spiltNames vname vaka,
          block_matches spiltNames vname vaka = true →
          ∃ pairs, token_assignment spiltNames (block_tokens vname vaka) pairs)
    ∧ (∀ b, b ∈ allBlocks m →
            Block_name m b = Some "Lapis Lazuli Block"%string →
            Block_aka m b = Some EmptyString →
            ∃ r1 r2 r3,
              blocksMatching m "lapis block" = Some r1 ∧ b ∈ r1
              ∧ blocksMatching m "Block Lapis" = Some r2 ∧ b ∈ r2
              ∧ blocksMatching m "lapis block extra" = Some r3 ∧ b ∉ r3).
Proof.
  intros dn ops m Hm.
  pose proof (build_wf _ _ _ Hm) as Hwf.
  pose proof (wf_allBlocks _ Hwf) as Hall.
  assert (∀ name, ∃ r,
             blocksMatching m name = Some r
             ∧ ∀ b, b ∈ r ↔
                    b ∈ allBlocks m
                    ∧ ∃ vname vaka,
                        Block_name m b = Some vname
                        ∧ Block_aka m b = Some vaka
                        ∧ block_matches (PyStr.split (PyStr.lower name))
                            vname vaka = true) as Hgen.
  { intros name. unfold blocksMatching.
    destruct (blocksMatching_loop_spec m (PyStr.split (PyStr.lower name)) _
                Hwf Hall []) as (r & Hr & Hiff).
    exists r. split; [done|]. intros b. rewrite Hiff. split.
    - intros [H|H]; [by apply elem_of_nil in H|done].
    - intros H. by right. }
  split; [exact Hgen|]. split; [exact block_matches_assignment|].
  intros b Hb Hname Haka.
  destruct (Hgen "lapis block"%string) as (r1 & H1 & Hiff1).
  destruct (Hgen "Block Lapis"%string) as (r2 & H2 & Hiff2).
  destruct (Hgen "lapis block extra"%string) as (r3 & H3 & Hiff3).
  exists r1, r2, r3.
  split; [done|]. split; [|split; [done|split; [|split; [done|]]]].
  - apply Hiff1. split; [done|]. by eexists _, _.
  - apply Hiff2. split; [done|]. by eexists _, _.
  - intros [_ (n & a & Hn & Ha & Hmatch)]%Hiff3.
    rewrite Hname in Hn. rewrite Haka in Ha.
    injection Hn as <-. injection Ha as <-. vm_compute in Hmatch.
    discriminate.
Qed.

(** C8 (amended), on a sample: the registry that holds Air and
    Lapis Lazuli Block (22, 0). *)
Lemma blocksMatching_tokens_witness :
  ∃ m r1 r2 r3,
    build "Unused Block" [OpAddBlock 22 0 (kw_named "Lapis Lazuli Block")]
    = Some m
    ∧ blocksMatching m "lapis block" = Some r1
    ∧ mkBlock 22 0 EmptyString ∈ r1
    ∧ blocksMatching m "Block Lapis" = Some r2
    ∧ mkBlock 22 0 EmptyString ∈ r2
    ∧ blocksMatching m "lapis block extra" = Some r3
    ∧ mkBlock 22 0 EmptyString ∉ r3.
Proof.
  assert (build "Unused Block"
            [OpAddBlock 22 0 (kw_named "Lapis Lazuli Block")]
          = Some (built "Unused Block"
                    [OpAddBlock 22 0 (kw_named "Lapis Lazuli Block")]))
    as Hm.
  { apply build_built. apply Forall_cons. split; [|constructor].
    apply op_ok_named; [apply id_limit_gt; lia|lia]. }
  destruct (blocksMatching_tokens _ _ _ Hm) as (_ & _ & Hlapis).
  destruct (Hlapis (mkBlock 22 0 EmptyString))
    as (r1 & r2 & r3 & H1 & H2 & H3 & H4 & H5 & H6).
  { vm_compute. apply list_elem_of_In. right. left. reflexivity. }
  { vm_compute. reflexivity. }
  { vm_compute. reflexivity. }
  eexists _, r1, r2, r3.
  exact (conj Hm (conj H1 (conj H2 (conj H3 (conj H4 (conj H5 H6)))))).
Defined.

(** C8 (counterexample): the order of the query tokens matters.  In the
    registry that holds Air and a block (22, 0) named "Lapis Lazuli", the
    query "lapis la" returns the block and the query "la lapis" returns
    nothing, although each of its two tokens occurs in a block token of
    its own ("la" in "lazuli", "lapis" in "lapis"): the block token
    "lapis", which is tried first, uses up the query token "la". *)
Lemma blocksMatching_token_order_counterexample :
  (m ← build "Unused Block" [OpAddBlock 22 0 (kw_named "Lapis Lazuli")];
   r1 ← blocksMatching m "lapis la";
   r2 ← blocksMatching m "la lapis";
   Some (r1, r2))
  = Some ([mkBlock 22 0 EmptyString], []).
Proof. vm_compute. reflexivity. Qed.

(** * Attributes that keep their default *)

(** A property of the registry that [set_name] and the calls of a history
    preserve holds after the history. *)
Lemma run_ops_invariant (I : MCMaterials → Prop) (C : Op → Prop) :
  (∀ m name, I m → I (set_name m name)) →
  (∀ m i d kw m' b,
      I m → C (OpAddBlock i d kw) → addBlock m i d kw = Some (m', b) → I m') →
  ∀ ops m m', Forall C ops → I m → run_ops m ops = Some m' → I m'.
Proof.
  intros Hset Hadd.
  induction ops as [|[i d kw|name] ops IH]; intros m m' Hops Hm H;
    cbn [run_ops] in H.
  - by injection H as <-.
  - apply Forall_cons in Hops as [Hop Hops].
    destruct (addBlock m i d kw) as [[m1 b]|] eqn:E; [|discriminate].
    cbn [mbind option_bind fst] in H.
    eapply IH; [done| |done]. by eapply Hadd.
  - apply Forall_cons in Hops as [_ Hops].
    eapply IH; [done| |done]. by apply Hset.
Qed.

Lemma is_rgba_defaultColor : is_rgba defaultColor.
Proof.
  split; [reflexivity|].
  unfold defaultColor. repeat (apply Forall_cons; split; [lia|]).
  apply Forall_nil_2.
Qed.

Lemma alloc_defaults (dn : string) (p v : nat) :
  p < id_limit → v < 16 →
  aka_default p v (MCMaterials_alloc dn)
  ∧ name_default dn p v (MCMaterials_alloc dn)
  ∧ color_default p v (MCMaterials_alloc dn)
  ∧ texture_default p v (MCMaterials_alloc dn)
  ∧ lightEmission (MCMaterials_alloc dn) !! p = Some defaultBrightness
  ∧ lightAbsorption (MCMaterials_alloc dn) !! p = Some defaultOpacity.
Proof.
  intros Hp Hv.
  unfold aka_default, name_default, color_default, texture_default.
  cbn [MCMaterials_alloc aka names flatColors blockTextures lightEmission
         lightAbsorption].
  rewrite !lookup_replicate_2 by done.
  split; [eexists; split; [done|]; by rewrite lookup_replicate_2|].
  split; [eexists; split; [done|]; by rewrite !lookup_replicate_2 by lia|].
  split; [eexists; split; [done|]; by rewrite !lookup_replicate_2 by lia|].
  split; [eexists; split; [done|]; by rewrite lookup_replicate_2|].
  done.
Qed.

Lemma addBlock_aka_default (p v : nat) m i d kw m' b :
  aka_default p v m →
  (op_targets p v (OpAddBlock i d kw) = true → kw_aka kw = None) →
  addBlock m i d kw = Some (m', b) → aka_default p v m'.
Proof.
  intros (row & Hrow & Hcell) Hkw H.
  destruct (addBlock_inv _ _ _ _ _ _ H) as
    (namesRow & currentName & akaRow & colorRow & currentColor & rgba & texture
     & typeRef & typeRow & [HN1 HN2] & [HL1 HL2] & [HA1 HA2]
     & (HC1 & HC2 & HC3 & HC4) & [HT1 HT2] & (HY1 & HY2 & HY3)
     & Hnames & Htype & HtypeRows & Haka & HlE & HlA & Hall & HbyID & Hb & _).
  unfold aka_default. rewrite Haka. cbn [op_targets] in Hkw.
  destruct (decide (i = p)) as [->|Hne].
  - rewrite list_lookup_insert_eq by (by eapply lookup_lt_Some).
    eexists. split; [done|].
    rewrite Hrow in HA1. injection HA1 as <-.
    destruct (decide (d = v)) as [->|Hd].
    + rewrite !Nat.eqb_refl in Hkw. rewrite (Hkw eq_refl).
      by rewrite list_lookup_insert_eq.
    + by rewrite list_lookup_insert_ne.
  - rewrite list_lookup_insert_ne by done. by exists row.
Qed.

Lemma addBlock_name_default (dn : string) (p v : nat) m i d kw m' b :
  v < 16 →
  name_default dn p v m →
  (op_addresses p v (OpAddBlock i d kw) = true → kw_name kw = None) →
  addBlock m i d kw = Some (m', b) → name_default dn p v m'.
Proof.
  intros Hv (row & Hrow & Hcell0 & Hcell) Hkw H.
  destruct (addBlock_inv _ _ _ _ _ _ H) as
    (namesRow & currentName & akaRow & colorRow & currentColor & rgba & texture
     & typeRef & typeRow & [HN1 HN2] & [HL1 HL2] & [HA1 HA2]
     & (HC1 & HC2 & HC3 & HC4) & [HT1 HT2] & (HY1 & HY2 & HY3)
     & Hnames & Htype & HtypeRows & Haka & HlE & HlA & Hall & HbyID & Hb & _).
  unfold name_default. rewrite Hnames. cbn [op_addresses] in Hkw.
  pose proof (lookup_lt_Some _ _ _ HN1) as Hi.
  destruct (decide (i = p)) as [->|Hne].
  - rewrite Nat.eqb_refl in Hkw. cbn [andb] in Hkw.
    rewrite Hrow in HN1. injection HN1 as <-.
    destruct d as [|d']; cbn [Nat.eqb].
    + rewrite (Hkw eq_refl). cbn [default from_option id].
      rewrite Hcell0 in HN2. injection HN2 as <-.
      rewrite list_lookup_insert_eq by done. eexists. split; [done|].
      by rewrite !lookup_replicate_2 by lia.
    + rewrite list_lookup_insert_eq by done. eexists. split; [done|].
      split; [by rewrite list_lookup_insert_ne|].
      destruct (decide (S d' = v)) as [<-|Hd].
      * cbn [Nat.eqb orb] in Hkw. rewrite Nat.eqb_refl in Hkw.
        rewrite (Hkw eq_refl). cbn [default from_option id].
        rewrite Hcell in HN2. injection HN2 as <-.
        apply list_lookup_insert_eq. by eapply lookup_lt_Some.
      * by rewrite list_lookup_insert_ne.
  - exists row. by destruct (d =? 0)%nat; rewrite list_lookup_insert_ne.
Qed.

Lemma addBlock_color_default (p v : nat) m i d kw m' b :
  color_default p v m →
  (op_addresses p v (OpAddBlock i d kw) = true → kw_mapcolor kw = None) →
  addBlock m i d kw = Some (m', b) → color_default p v m'.
Proof.
  intros (row & Hrow & Hcell0 & Hcell) Hkw H.
  destruct (addBlock_inv _ _ _ _ _ _ H) as
    (namesRow & currentName & akaRow & colorRow & currentColor & rgba & texture
     & typeRef & typeRow & [HN1 HN2] & [HL1 HL2] & [HA1 HA2]
     & (HC1 & HC2 & HC3 & HC4) & [HT1 HT2] & (HY1 & HY2 & HY3)
     & Hnames & Htype & HtypeRows & Haka & HlE & HlA & Hall & HbyID & Hb & _).
  unfold color_default. cbn [op_addresses] in Hkw.
  destruct (decide (i = p)) as [->|Hne].
  - apply assign_variants_inv in HC4 as (row' & Hrow' & ->).
    rewrite Hrow in Hrow'. injection Hrow' as <-.
    rewrite Hrow in HC1. injection HC1 as <-.
    rewrite list_lookup_insert_eq by (by eapply lookup_lt_Some).
    eexists. split; [done|].
    rewrite Nat.eqb_refl in Hkw. cbn [andb] in Hkw.
    pose proof (lookup_lt_Some _ _ _ Hcell0) as Hlen0.
    pose proof (lookup_lt_Some _ _ _ Hcell) as Hlenv.
    destruct (is_rgba_stored _ is_rgba_defaultColor) as [Hb4 Hu8].
    unfold assigned_row. destruct d as [|d']; cbn [Nat.eqb].
    + rewrite (Hkw eq_refl) in HC3. cbn [default from_option id] in HC3.
      rewrite Hcell0 in HC2. injection HC2 as <-.
      rewrite Hb4 in HC3. injection HC3 as <-. rewrite Hu8.
      by rewrite !lookup_replicate_2 by done.
    + split; [by rewrite list_lookup_insert_ne|].
      destruct (decide (S d' = v)) as [<-|Hd].
      * cbn [Nat.eqb orb] in Hkw. rewrite Nat.eqb_refl in Hkw.
        rewrite (Hkw eq_refl) in HC3. cbn [default from_option id] in HC3.
        rewrite Hcell in HC2. injection HC2 as <-.
        rewrite Hb4 in HC3. injection HC3 as <-. rewrite Hu8.
        by apply list_lookup_insert_eq.
      * by rewrite list_lookup_insert_ne.
  - exists row.
    by rewrite (assign_variants_lookup_ne _ _ _ _ _ p HC4) by done.
Qed.

Lemma gives_texture_false (kw : BlockKw) :
  gives_texture kw = false → texture_faces (kw_texture kw) = Some None.
Proof.
  unfold gives_texture, texture_faces.
  by destruct (kw_texture kw) as [[x y|[|f faces]]|].
Qed.

Lemma addBlock_texture_default (p v : nat) m i d kw m' b :
  texture_default p v m →
  (op_addresses p v (OpAddBlock i d kw) = true → gives_texture kw = false) →
  addBlock m i d kw = Some (m', b) → texture_default p v m'.
Proof.
  intros (row & Hrow & Hcell) Hkw H.
  destruct (addBlock_inv _ _ _ _ _ _ H) as
    (namesRow & currentName & akaRow & colorRow & currentColor & rgba & texture
     & typeRef & typeRow & [HN1 HN2] & [HL1 HL2] & [HA1 HA2]
     & (HC1 & HC2 & HC3 & HC4) & [HT1 HT2] & (HY1 & HY2 & HY3)
     & Hnames & Htype & HtypeRows & Haka & HlE & HlA & Hall & HbyID & Hb & _).
  unfold texture_default. cbn [op_addresses] in Hkw.
  destruct texture as [faces|]; [|injection HT2 as <-; by exists row].
  destruct (decide (i = p)) as [->|Hne].
  - rewrite Nat.eqb_refl in Hkw. cbn [andb] in Hkw.
    destruct ((d =? 0)%nat || (d =? v)%nat) eqn:Hd.
    + rewrite (gives_texture_false _ (Hkw eq_refl)) in HT1. discriminate.
    + apply orb_false_iff in Hd as [Hd0 Hdv].
      apply Nat.eqb_neq in Hd0, Hdv.
      apply assign_variants_inv in HT2 as (row' & Hrow' & ->).
      rewrite Hrow in Hrow'. injection Hrow' as <-.
      rewrite list_lookup_insert_eq by (by eapply lookup_lt_Some).
      eexists. split; [done|]. unfold assigned_row.
      rewrite (proj2 (Nat.eqb_neq d 0) Hd0).
      by rewrite list_lookup_insert_ne.
  - exists row.
    by rewrite (assign_variants_lookup_ne _ _ _ _ _ p HT2) by done.
Qed.

Lemma addBlock_brightness_default (p : nat) m i d kw m' b :
  lightEmission m !! p = Some defaultBrightness →
  (op_blockID (OpAddBlock i d kw) = Some p → kw_brightness kw = None) →
  addBlock m i d kw = Some (m', b) →
  lightEmission m' !! p = Some defaultBrightness.
Proof.
  intros Hcell Hkw H.
  destruct (addBlock_inv _ _ _ _ _ _ H) as
    (namesRow & currentName & akaRow & colorRow & currentColor & rgba & texture
     & typeRef & typeRow & [HN1 HN2] & [HL1 HL2] & [HA1 HA2]
     & (HC1 & HC2 & HC3 & HC4) & [HT1 HT2] & (HY1 & HY2 & HY3)
     & Hnames & Htype & HtypeRows & Haka & HlE & HlA & Hall & HbyID & Hb & _).
  rewrite HlE. cbn [op_blockID] in Hkw.
  destruct (decide (i = p)) as [->|Hne].
  - rewrite (Hkw eq_refl). by rewrite list_lookup_insert_eq.
  - by rewrite list_lookup_insert_ne.
Qed.

Lemma addBlock_opacity_default (p : nat) m i d kw m' b :
  lightAbsorption m !! p = Some defaultOpacity →
  (op_blockID (OpAddBlock i d kw) = Some p → kw_opacity kw = None) →
  addBlock m i d kw = Some (m', b) →
  lightAbsorption m' !! p = Some defaultOpacity.
Proof.
  intros Hcell Hkw H.
  destruct (addBlock_inv _ _ _ _ _ _ H) as
    (namesRow & currentName & akaRow & colorRow & currentColor & rgba & texture
     & typeRef & typeRow & [HN1 HN2] & [HL1 HL2] & [HA1 HA2]
     & (HC1 & HC2 & HC3 & HC4) & [HT1 HT2] & (HY1 & HY2 & HY3)
     & Hnames & Htype & HtypeRows & Haka & HlE & HlA & Hall & HbyID & Hb & _).
  rewrite HlA. cbn [op_blockID] in Hkw.
  destruct (decide (i = p)) as [->|Hne].
  - rewrite (Hkw eq_refl). by rewrite list_lookup_insert_eq.
  - by rewrite list_lookup_insert_ne.
Qed.

(** * The category of an identifier *)

Lemma keeps_shared_row_snoc (i : nat) (before : list Op) (op : Op) :
  keeps_shared_row i (before ++ [op])
  = keeps_shared_row i before && negb (op_is_default_of i op).
Proof.
  unfold keeps_shared_row. rewrite forallb_app. cbn [forallb].
  by rewrite andb_true_r.
Qed.

Lemma alloc_type_default (dn : string) (p v : nat) :
  p < id_limit → v < 16 → type_default p v [] (MCMaterials_alloc dn).
Proof.
  intros Hp Hv. unfold type_default.
  cbn [MCMaterials_alloc type typeRows keeps_shared_row forallb].
  split; [|split].
  - exists 0, (replicate 16 "NORMAL"%string).
    split; [by apply lookup_replicate_2|]. split; [done|].
    by apply lookup_replicate_2.
  - intros i ref [-> _]%lookup_replicate. done.
  - by intros i j ref _ [-> _]%lookup_replicate _.
Qed.

Lemma addBlock_type_default (p v : nat) (before : list Op) m i d kw m' b :
  v < 16 → wf m → type_default p v before m →
  (op_writes_type p v before (OpAddBlock i d kw) = true → kw_type kw = None) →
  addBlock m i d kw = Some (m', b) →
  type_default p v (before ++ [OpAddBlock i d kw]) m'.
Proof.
  intros Hv Hwf ((ref & row & Hp & Hrow & Hcell) & Hshared & Hinj) Hkw H.
  destruct (addBlock_inv _ _ _ _ _ _ H) as
    (namesRow & currentName & akaRow & colorRow & currentColor & rgba & texture
     & typeRef & typeRow & [HN1 HN2] & [HL1 HL2] & [HA1 HA2]
     & (HC1 & HC2 & HC3 & HC4) & [HT1 HT2] & (HY1 & HY2 & HY3)
     & Hnames & Htype & HtypeRows & Haka & HlE & HlA & Hall & HbyID & Hb & _).
  pose proof (lookup_lt_Some _ _ _ HY1) as Hi.
  pose proof (lookup_lt_Some _ _ _ Hrow) as Href.
  assert (∀ j r, type m !! j = Some r → r < length (typeRows m)) as Hrefs.
  { intros j r Hj.
    exact (Forall_lookup_1 _ _ _ _ (wf_type_refs _ Hwf) Hj). }
  unfold type_default. rewrite Htype, HtypeRows.
  cbn [op_writes_type] in Hkw.
  destruct d as [|d']; cbn [Nat.eqb] in *.
  - (* data 0: the ID gets a row of its own *)
    split; [|split].
    + destruct (decide (i = p)) as [->|Hne].
      * rewrite Nat.eqb_refl in Hkw. rewrite (Hkw eq_refl).
        cbn [default from_option id].
        rewrite list_lookup_insert_eq by done.
        eexists _, _. split; [done|].
        split; [by apply list_lookup_middle|].
        by apply lookup_replicate_2.
      * rewrite list_lookup_insert_ne by done.
        exists ref, row. split; [done|]. split; [|done].
        by apply lookup_app_l_Some.
    + intros j r Hj. rewrite keeps_shared_row_snoc.
      cbn [op_is_default_of].
      destruct (decide (i = j)) as [->|Hne].
      * rewrite list_lookup_insert_eq in Hj by done. injection Hj as <-.
        rewrite bool_decide_eq_true_2 by done. cbn [negb].
        rewrite andb_false_r. split; [lia|done].
      * rewrite list_lookup_insert_ne in Hj by done.
        rewrite bool_decide_eq_false_2 by done. cbn [negb].
        rewrite andb_true_r. by apply Hshared.
    + intros j k r Hjk Hj Hk.
      destruct (decide (i = j)) as [->|Hj'];
        [|destruct (decide (i = k)) as [->|Hk']].
      * rewrite list_lookup_insert_eq in Hj by done. injection Hj as <-.
        rewrite list_lookup_insert_ne in Hk by done.
        specialize (Hrefs _ _ Hk). lia.
      * rewrite list_lookup_insert_eq in Hk by done. injection Hk as <-.
        rewrite list_lookup_insert_ne in Hj by done.
        specialize (Hrefs _ _ Hj). lia.
      * rewrite list_lookup_insert_ne in Hj, Hk by done.
        exact (Hinj j k r Hjk Hj Hk).
  - (* another data: one cell of the row the ID refers to *)
    split; [|split; [|done]].
    + exists ref. destruct (decide (typeRef = ref)) as [->|Href'].
      * rewrite Hrow in HY2. injection HY2 as <-.
        rewrite list_lookup_insert_eq by done.
        eexists. split; [done|]. split; [done|].
        destruct (decide (S d' = v)) as [<-|Hd].
        -- assert (kw_type kw = None) as ->.
           { apply Hkw. destruct (decide (i = p)) as [->|Hne].
             - rewrite !Nat.eqb_refl. done.
             - rewrite (proj2 (Nat.eqb_neq i p) Hne), Nat.eqb_refl.
               cbn [negb andb].
               pose proof (Hinj i p ref Hne HY1 Hp) as ->.
               rewrite (proj1 (Hshared i 0 HY1) eq_refl).
               by rewrite (proj1 (Hshared p 0 Hp) eq_refl). }
           cbn [default from_option id].
           by apply list_lookup_insert_eq.
        -- by rewrite list_lookup_insert_ne.
      * exists row. split; [done|]. split; [|done].
        by rewrite list_lookup_insert_ne.
    + intros j r Hj. rewrite keeps_shared_row_snoc.
      cbn [op_is_default_of negb]. rewrite andb_true_r. by apply Hshared.
Qed.

Lemma run_ops_type_default (p v : nat) :
  v < 16 →
  ∀ rest before m m',
    wf m → type_default p v before m →
    type_not_given_from p v before rest →
    run_ops m rest = Some m' →
    type_default p v (before ++ rest) m'.
Proof.
  intros Hv.
  induction rest as [|[i d kw|name] rest IH]; intros before m m' Hwf Hm Hnot H;
    cbn [run_ops] in H.
  - injection H as <-. by rewrite app_nil_r.
  - destruct Hnot as [Hop Hrest].
    destruct (addBlock m i d kw) as [[m1 b]|] eqn:E; [|discriminate].
    cbn [mbind option_bind fst] in H.
    rewrite cons_middle, (assoc_L (++)).
    eapply IH; [by eapply addBlock_wf| |done|done].
    by eapply addBlock_type_default.
  - destruct Hnot as [_ Hrest].
    rewrite cons_middle, (assoc_L (++)).
    eapply IH; [by apply set_name_wf| |done|done].
    destruct Hm as (Hcell & Hshared & Hinj).
    split; [done|]. split; [|done].
    intros j r Hj. rewrite keeps_shared_row_snoc.
    cbn [op_is_default_of negb]. rewrite andb_true_r. by apply Hshared.
Qed.

(** C7 (amended): in every registry state and for every identifier
    [(p, v)] in range, [blockWithID] returns a block with that identifier
    and every attribute of it resolves.  An attribute resolves to the
    registry's default when no [addBlock] call of the history (the
    constructor's definition of Air included) that writes the attribute
    for the identifier gave it: the alias when no call on [(p, v)] gave
    an alias; the name, the color and the textures of the variant when no
    call on [(p, v)] or on [(p, 0)] gave a name, a map color, a texture;
    the light emission and absorption when no call on a variant of [p]
    gave a brightness, an opacity; the category when no call on [(p, v)]
    or on [(p, 0)] gave a category, nor a call on data [v] of another ID
    made while that ID and [p] both referred to the shared category
    row. *)
Theorem blockWithID_resolves :
  ∀ (dn : string) (ops : list Op) (m : MCMaterials) (p v : nat),
    build dn ops = Some m → p < id_limit → v < 16 →
    Block_key (blockWithID m p v) = (p, v)
    ∧ (is_Some (Block_name m (blockWithID m p v))
       ∧ is_Some (Block_aka m (blockWithID m p v))
       ∧ is_Some (Block_type m (blockWithID m p v))
       ∧ is_Some (Block_color m (blockWithID m p v))
       ∧ is_Some (Block_brightness m (blockWithID m p v))
       ∧ is_Some (Block_opacity m (blockWithID m p v))
       ∧ is_Some (Block_blockTextures m (blockWithID m p v)))
    ∧ (aka_not_given p v ops →
       Block_aka m (blockWithID m p v) = Some EmptyString)
    ∧ (name_not_given p v ops →
       Block_name m (blockWithID m p v) = Some dn)
    ∧ (mapcolor_not_given p v ops →
       Block_color m (blockWithID m p v) = Some defaultColor)
    ∧ (texture_not_given p v ops →
       (t ← Block_blockTextures m (blockWithID m p v); t !! v)
       = Some (replicate 6 NOTEX))
    ∧ (brightness_not_given p ops →
       Block_brightness m (blockWithID m p v) = Some defaultBrightness)
    ∧ (opacity_not_given p ops →
       Block_opacity m (blockWithID m p v) = Some defaultOpacity)
    ∧ (type_not_given p v ops →
       Block_type m (blockWithID m p v) = Some "NORMAL"%string).
Proof.
  intros dn ops m p v Hm Hp Hv.
  pose proof (build_wf _ _ _ Hm) as Hwf.
  destruct (blockWithID_ID m p v Hwf) as [HID Hdata].
  split; [by apply blockWithID_key|]. split.
  { apply resolve_in_range; [done|by rewrite HID|by rewrite Hdata]. }
  rewrite build_history in Hm.
  destruct (alloc_defaults dn p v Hp Hv) as (Ia & In & Ic & It & Ib & Io).
  unfold Block_name, Block_aka, Block_brightness, Block_opacity, Block_color,
    Block_blockTextures, Block_type, color, brightness, opacity.
  rewrite HID, Hdata.
  split; [|split; [|split; [|split; [|split; [|split]]]]]; intros Hnot.
  - destruct (run_ops_invariant (aka_default p v) _
                ltac:(intros ? ? Hkeep; exact Hkeep)
                (λ m i d kw m' b, addBlock_aka_default p v m i d kw m' b)
                _ _ _ Hnot Ia Hm) as (row & -> & Hcell).
    done.
  - destruct (run_ops_invariant (name_default dn p v) _
                ltac:(intros ? ? Hkeep; exact Hkeep)
                (λ m i d kw m' b, addBlock_name_default dn p v m i d kw m' b Hv)
                _ _ _ Hnot In Hm) as (row & -> & _ & Hcell).
    done.
  - destruct (run_ops_invariant (color_default p v) _
                ltac:(intros ? ? Hkeep; exact Hkeep)
                (λ m i d kw m' b, addBlock_color_default p v m i d kw m' b)
                _ _ _ Hnot Ic Hm) as (row & -> & _ & Hcell).
    done.
  - destruct (run_ops_invariant (texture_default p v) _
                ltac:(intros ? ? Hkeep; exact Hkeep)
                (λ m i d kw m' b, addBlock_texture_default p v m i d kw m' b)
                _ _ _ Hnot It Hm) as (row & -> & Hcell).
    done.
  - exact (run_ops_invariant
             (λ m, lightEmission m !! p = Some defaultBrightness) _
             ltac:(intros ? ? Hkeep; exact Hkeep)
             (λ m i d kw m' b, addBlock_brightness_default p m i d kw m' b)
             _ _ _ Hnot Ib Hm).
  - exact (run_ops_invariant
             (λ m, lightAbsorption m !! p = Some defaultOpacity) _
             ltac:(intros ? ? Hkeep; exact Hkeep)
             (λ m i d kw m' b, addBlock_opacity_default p m i d kw m' b)
             _ _ _ Hnot Io Hm).
  - destruct (run_ops_type_default p v Hv (history ops) [] _ _
                (wf_alloc dn) (alloc_type_default dn p v Hp Hv) Hnot Hm)
      as ((ref & row & -> & Hrow & Hcell) & _).
    cbn [mbind option_bind]. by rewrite Hrow.
Qed.

(** C7 (amended), on a sample: after one call that defines (7, 3) with a
    light emission and one that defines Stone (1, 0), the identifier
    (7, 5), which no call defined, resolves to the defaults in its name,
    alias, color, textures, light absorption and category, and the
    identifier (2, 5) in its light emission. *)
Lemma blockWithID_resolves_witness :
  ∃ m,
    build "Future Block!" [OpAddBlock 7 3 glow_kw; OpAddBlock 1 0 stone_kw]
    = Some m
    ∧ Block_key (blockWithID m 7 5) = (7, 5)
    ∧ is_Some (Block_brightness m (blockWithID m 7 5))
    ∧ Block_aka m (blockWithID m 7 5) = Some EmptyString
    ∧ Block_name m (blockWithID m 7 5) = Some "Future Block!"%string
    ∧ Block_color m (blockWithID m 7 5) = Some [201; 119; 240; 255]%Z
    ∧ (t ← Block_blockTextures m (blockWithID m 7 5); t !! 5)
      = Some (replicate 6 (496, 496)%Z)
    ∧ Block_opacity m (blockWithID m 7 5) = Some 15%Z
    ∧ Block_type m (blockWithID m 7 5) = Some "NORMAL"%string
    ∧ Block_brightness m (blockWithID m 2 5) = Some 0%Z.
Proof.
  destruct (build_Some "Future Block!"
              [OpAddBlock 7 3 glow_kw; OpAddBlock 1 0 stone_kw]) as [m Hm].
  { apply Forall_cons. split.
    { split; [apply id_limit_gt; lia|]. split; [lia|]. by split. }
    apply Forall_cons. split; [|constructor].
    split; [apply id_limit_gt; lia|]. split; [lia|apply kw_ok_stone]. }
  destruct (blockWithID_resolves _ _ m 7 5 Hm)
    as (Hkey & Hsome & Haka & Hname & Hcolor & Htex & _ & Hopacity & Htype).
  { apply id_limit_gt; lia. }
  { lia. }
  destruct (blockWithID_resolves _ _ m 2 5 Hm)
    as (_ & _ & _ & _ & _ & _ & Hbrightness & _).
  { apply id_limit_gt; lia. }
  { lia. }
  exists m.
  refine (conj Hm (conj Hkey
            (conj (proj1 (proj2 (proj2 (proj2 (proj2 Hsome)))))
               (conj (Haka _) (conj (Hname _) (conj (Hcolor _)
                  (conj (Htex _) (conj (Hopacity _)
                     (conj (Htype _) (Hbrightness _)))))))))).
  all: try (unfold type_not_given, history; cbn [type_not_given_from app];
            refine (conj _ (conj _ (conj _ I)));
            intros H; vm_compute in H; discriminate H).
  all: repeat (apply Forall_cons; split;
               [intros H;
                first [reflexivity|vm_compute in H; discriminate H]|]).
  all: apply Forall_nil_2.
Defined.
